(** * itsee_to_open_cbgm: the TEI rewriting passes, embedded and verified

    The script [itsee_to_open_cbgm.py] parses a TEI XML collation with lxml
    and runs eight passes over the one in-memory tree. Each pass mutates the
    tree in place and returns nothing. This file embeds the passes as
    functions over an inductive element tree and proves the properties of the
    specification against them.

    Conventions of the embedding.
    - A Python [str] is a [string]; text is held as UTF-8 bytes, so U+0323 is
      the two bytes CC A3. The regular expression class [\d] and
      [str.split()] work on characters: the bytes are read as UTF-8, [\d]
      takes the decimal digits of every script and [split] cuts at every
      character for which [str.isspace] holds.
    - [None] versus a string is [option string].
    - An lxml element has a tag (in Clark notation, [{namespace}local]),
      an attribute dictionary, a text, a tail and an ordered list of children.
      Comments and processing instructions are left out: no XPath expression
      of the script selects them.
    - A pass is a function from the tree to the tree it leaves behind and the
      way it ended: normally, or with a Python exception. The tree component
      is meaningful in both cases, since the mutations done before an
      exception stay done.
    - The loops that change nodes where they stand are folds over the paths
      of the selected nodes; the properties are proved on a traversal of the
      tree that is shown to compute the same. The loops that remove or
      replace nodes are given by traversals. *)

From stdpp Require Import gmap strings list fin_maps.
From Stdlib Require Import String Ascii.

Local Open Scope string_scope.
#[local] Set Warnings "-clear-no-such-hyp".

(** ** Python values: exceptions and results *)

Inductive exn : Type :=
| AttributeError
| TypeError
| KeyError (key : string)
| IndexError.

Inductive res (A : Type) : Type :=
| Ret (a : A)
| Raise (e : exn).
Arguments Ret {A} a.
Arguments Raise {A} e.

Definition raised {A} (r : res A) : bool :=
  match r with Raise _ => true | Ret _ => false end.

(** ** Strings *)

Module Str.

(** *** Characters

    The operations of the script that look at characters, [\d] in the
    regular expression and [str.split()], do so on the characters of the
    string and not on its bytes: the bytes are read as UTF-8 first. *)

(** The number of bytes that follow the first byte [c] of a character. *)
Definition trail (c : ascii) : nat :=
  let n := nat_of_ascii c in
  if (n <? 192)%nat then 0%nat
  else if (n <? 224)%nat then 1%nat
  else if (n <? 240)%nat then 2%nat
  else 3%nat.

(** The characters of a string, each as its bytes, from the left. [k]
    bytes of the character [pend] are still to come. *)
Fixpoint chars_from (pend : string) (k : nat) (s : string) : list string :=
  match s with
  | "" => match k with O => [] | S _ => [pend] end
  | String c s' =>
      match k with
      | O =>
          match trail c with
          | O => String c "" :: chars_from "" 0 s'
          | S m => chars_from (String c "") (S m) s'
          end
      | S O => (pend +:+ String c "") :: chars_from "" 0 s'
      | S k' => chars_from (pend +:+ String c "") k' s'
      end
  end.

Definition chars (s : string) : list string := chars_from "" 0 s.

(** The string made of the characters [l]. *)
Definition join (l : list string) : string := foldr String.append "" l.

(** The bits that the first byte of a character gives to its code point;
    [None] for a byte that starts no character. *)
Definition lead (c : ascii) : option N :=
  let n := N_of_ascii c in
  if (n <? 128)%N then Some n
  else if (n <? 192)%N then None
  else if (n <? 224)%N then Some (n - 192)%N
  else if (n <? 240)%N then Some (n - 224)%N
  else if (n <? 248)%N then Some (n - 240)%N
  else None.

(** The code point with the bits of the bytes [t] after the bits [acc]. *)
Fixpoint code_from (acc : N) (t : string) : option N :=
  match t with
  | "" => Some acc
  | String b t' =>
      let n := N_of_ascii b in
      if ((128 <=? n) && (n <? 192))%N then code_from (acc * 64 + (n - 128))%N t'
      else None
  end.

(** The least code point that takes [k] more bytes than the first. *)
Definition least (k : nat) : N :=
  match k with
  | 0%nat => 0%N
  | 1%nat => 128%N
  | 2%nat => 2048%N
  | _ => 65536%N
  end.

(** The code point of a character. Bytes that are not the UTF-8 form of a
    code point read as U+FFFD, the way a decoder replaces errors; no [str]
    holds such bytes. *)
Definition code (ch : string) : N :=
  match ch with
  | "" => 65533%N
  | String c t =>
      match lead c with
      | Some acc =>
          if (String.length t =? trail c)%nat then
            match code_from acc t with
            | Some n =>
                if ((least (trail c) <=? n) && (n <=? 1114111) &&
                    negb ((55296 <=? n) && (n <=? 57343)))%N
                then n else 65533%N
            | None => 65533%N
            end
          else 65533%N
      | None => 65533%N
      end
  end.

Definition in_ranges (n : N) (l : list (N * N)) : bool :=
  existsb (fun r => ((r.1 <=? n) && (n <=? r.2))%N) l.

(** The code points for which [str.isspace] holds, at which [str.split()]
    cuts: the characters of bidirectional type WS, B or S and those of
    category Zs. *)
Definition spaces : list (N * N) :=
  [(9, 13); (28, 32); (133, 133); (160, 160); (5760, 5760); (8192, 8202);
   (8232, 8233); (8239, 8239); (8287, 8287); (12288, 12288)]%N.

(** The code points that [\d] matches in a pattern of type [str]: the
    decimal digits, category Nd, here those of Unicode 14.0, the tables of
    Python 3.11. Each script has its ten digits; the mathematical digits
    are five sets in a row. *)
Definition decimals : list (N * N) :=
  [(48, 57); (1632, 1641); (1776, 1785); (1984, 1993); (2406, 2415);
   (2534, 2543); (2662, 2671); (2790, 2799); (2918, 2927); (3046, 3055);
   (3174, 3183); (3302, 3311); (3430, 3439); (3558, 3567); (3664, 3673);
   (3792, 3801); (3872, 3881); (4160, 4169); (4240, 4249); (6112, 6121);
   (6160, 6169); (6470, 6479); (6608, 6617); (6784, 6793); (6800, 6809);
   (6992, 7001); (7088, 7097); (7232, 7241); (7248, 7257); (42528, 42537);
   (43216, 43225); (43264, 43273); (43472, 43481); (43504, 43513);
   (43600, 43609); (44016, 44025); (65296, 65305); (66720, 66729);
   (68912, 68921); (69734, 69743); (69872, 69881); (69942, 69951);
   (70096, 70105); (70384, 70393); (70736, 70745); (70864, 70873);
   (71248, 71257); (71360, 71369); (71472, 71481); (71904, 71913);
   (72016, 72025); (72784, 72793); (73040, 73049); (73120, 73129);
   (92768, 92777); (92864, 92873); (93008, 93017); (120782, 120831);
   (123200, 123209); (123632, 123641); (125264, 125273); (130032, 130041)]%N.

(** [str.isspace] on one character. *)
Definition isspace (ch : string) : bool := in_ranges (code ch) spaces.

(** [\d] on one character. *)
Definition isdigit (ch : string) : bool := in_ranges (code ch) decimals.

(** *** Splitting *)

Definition flush (cur : string) : list string :=
  match cur with
  | "" => []
  | _ => [cur]
  end.

(** [s.split()] on the characters of [s]: the maximal runs of characters
    that are not white space. [cur] is the run being read. *)
Fixpoint split_from (cur : string) (l : list string) : list string :=
  match l with
  | [] => flush cur
  | ch :: l' =>
      if isspace ch then (flush cur ++ split_from "" l')%list
      else split_from (cur +:+ ch) l'
  end.

Definition split (s : string) : list string := split_from "" (chars s).

(** *** Ends and slices *)

(** [s.endswith(c)] for a one-character [c]. *)
Fixpoint endswith (s : string) (c : ascii) : bool :=
  match s with
  | "" => false
  | String a "" => bool_decide (a = c)
  | String _ s' => endswith s' c
  end.

(** [s[:-1]] *)
Fixpoint drop_last (s : string) : string :=
  match s with
  | "" => ""
  | String _ "" => ""
  | String a s' => String a (drop_last s')
  end.

(** [s[1:]] *)
Definition drop_first (s : string) : string :=
  match s with
  | "" => ""
  | String _ s' => s'
  end.

(** *** Substrings *)

(** [old in s] *)
Fixpoint contains (old s : string) : bool :=
  String.prefix old s ||
  match s with
  | "" => false
  | String _ s' => contains old s'
  end.

(** [s.replace(old, new)] for a non-empty [old]: the occurrences are taken
    from the left and do not overlap. [skip] counts the characters of a
    matched occurrence that are still to be passed over. *)
Fixpoint replace_from (old new : string) (skip : nat) (s : string) : string :=
  match s with
  | "" => ""
  | String c s' =>
      match skip with
      | S k => replace_from old new k s'
      | O =>
          if String.prefix old s
          then new +:+ replace_from old new (String.length old - 1) s'
          else String c (replace_from old new 0 s')
      end
  end.

Definition replace (old new s : string) : string := replace_from old new 0 s.

(** *** The pattern of the label *)

(** The longest run of decimal digits at the head of the characters [l],
    and the characters that follow it. *)
Fixpoint digits (l : list string) : string * list string :=
  match l with
  | [] => ("", [])
  | ch :: l' =>
      if isdigit ch then let '(d, r) := digits l' in (ch +:+ d, r)
      else ("", l)
  end.

(** One group [(L\d+)] at the head of the characters [l]: the text of the
    group and the characters after it. The digits are taken greedily; since
    the next thing the pattern asks for is never a digit, no shorter run
    can match where the longest one does not. *)
Definition group (letter : ascii) (l : list string) : option (string * list string) :=
  match l with
  | [] => None
  | ch :: l' =>
      if bool_decide (ch = String letter "") then
        match digits l' with
        | ("", _) => None
        | (d, r) => Some (String letter d, r)
        end
      else None
  end.

(** [re.match('(B\d+)(K\d+)(V\d+)', s)]: anchored at the start, anything
    may follow. The result is [match.groups()]. *)
Definition re_match (s : string) : option (string * string * string) :=
  '(b, r1) ← group "B"%char (chars s);
  '(k, r2) ← group "K"%char r1;
  '(v, _) ← group "V"%char r2;
  Some (b, k, v).

End Str.

(** ** The element tree *)

Definition xml_ns : string := "http://www.w3.org/XML/1998/namespace".
Definition tei_ns : string := "http://www.tei-c.org/ns/1.0".

(** The tag of an element of the TEI namespace, as lxml shows it. *)
Definition tei (local : string) : string := "{" +:+ tei_ns +:+ "}" +:+ local.

Unset Elimination Schemes.
Inductive element : Type :=
  Element {
    tag : string;
    attrib : gmap string string;
    text : option string;
    children : list element;
    tail : option string
  }.
Set Elimination Schemes.

(** [et.Element(name, nsmap={None: tei_ns, 'xml': xml_ns})]. The [nsmap]
    declares prefixes on the new node and does not put it in a namespace:
    its tag is the bare [name]. It has no attribute, text, tail or child. *)
Definition et_Element (name : string) : element := Element name ∅ None [] None.

Definition set_attrib (e : element) (a : gmap string string) : element :=
  Element (tag e) a (text e) (children e) (tail e).
Definition set_text (e : element) (x : option string) : element :=
  Element (tag e) (attrib e) x (children e) (tail e).
Definition set_children (e : element) (ks : list element) : element :=
  Element (tag e) (attrib e) (text e) ks (tail e).

(** [e.get(k)], [e.set(k, v)], [e.append(c)], [e.insert(0, c)] *)
Definition get (e : element) (k : string) : option string := attrib e !! k.
Definition set (e : element) (k v : string) : element :=
  set_attrib e (<[k := v]> (attrib e)).
Definition append (e c : element) : element := set_children e (children e ++ [c]).
Definition insert0 (e c : element) : element := set_children e (c :: children e).

(** [e.attrib.pop(k)], with no default: a [KeyError] when [k] is absent. *)
Definition pop (e : element) (k : string) : element * res unit :=
  match attrib e !! k with
  | Some _ => (set_attrib e (delete k (attrib e)), Ret tt)
  | None => (e, Raise (KeyError k))
  end.

Definition has_tag (name : string) (e : element) : bool := bool_decide (tag e = name).
Definition is_app : element -> bool := has_tag (tei "app").
Definition is_rdg : element -> bool := has_tag (tei "rdg").
Definition is_lem : element -> bool := has_tag (tei "lem").
Definition is_wit : element -> bool := has_tag (tei "wit").
Definition is_TEI : element -> bool := has_tag (tei "TEI").

(** The elements of a tree in document order, the root first: what [//*]
    ranges over. *)
Fixpoint iter (e : element) : list element :=
  match e with
  | Element _ _ _ kids _ => e :: flat_map iter kids
  end.

(** [xml.xpath('//tei:name[...]')]: the selected elements in document order. *)
Definition xpath (sel : element -> bool) (xml : element) : list element :=
  filter (fun e => sel e) (iter xml).

(** [e.xpath('tei:name')]: the selected children. *)
Definition xpath_children (sel : element -> bool) (e : element) : list element :=
  filter (fun k => sel k) (children e).

(** The element reached from [e] by descending through the given child
    positions. A path names a node of the tree the way an lxml proxy does
    for as long as no sibling to its left is removed. *)
Fixpoint at_path (p : list nat) (e : element) : option element :=
  match p with
  | [] => Some e
  | i :: p' =>
      match children e !! i with
      | Some k => at_path p' k
      | None => None
      end
  end.

(** ** Loops over an XPath result

    Every pass has the shape [for x in xml.xpath(...): body(x)]. The XPath
    result is fixed before the first iteration and lists the selected nodes
    in document order; the body reaches the tree only through [x]. Three
    kinds of body occur. *)

Section First.
Context {A : Type} (f : A -> option A).

(** Rewrite the first element of the list on which [f] succeeds. *)
Fixpoint first_list (l : list A) : option (list A) :=
  match l with
  | [] => None
  | k :: l' =>
      match f k with
      | Some k' => Some (k' :: l')
      | None => cons k <$> first_list l'
      end
  end.
End First.

Section Loop.
Variable sel : element -> bool.

(** *** The body changes the selected node itself

    The body may change the attributes and the text of [x] and append
    children to it. No node changes its place, so a path names the same
    node from the moment the XPath result is made to the end of the loop:
    the result is the list of the paths of the selected nodes, and a turn of
    the loop runs the body on the node that is at the path now. *)

(** The paths of the selected nodes, in document order: a node comes before
    its descendants, and these before its next sibling. *)
Fixpoint paths_from (e : element) : list (list nat) :=
  match e with
  | Element _ _ _ kids _ =>
      ((if sel e then [[]] else []) ++
       (fix below (i : nat) (l : list element) : list (list nat) :=
          match l with
          | [] => []
          | k :: l' => (cons i <$> paths_from k) ++ below (S i) l'
          end) 0 kids)%list
  end.

Variable body : element -> element * res unit.

(** The body on the node at path [p] of the tree [t]. The tree keeps what
    the body did before it raised. *)
Fixpoint at_node (p : list nat) (t : element) : element * res unit :=
  match p with
  | [] => body t
  | i :: p' =>
      match children t !! i with
      | Some k =>
          let '(k', r) := at_node p' k in
          (set_children t (<[i := k']> (children t)), r)
      | None => (t, Ret tt)
      end
  end.

(** One turn, unless an earlier one has raised. *)
Definition next_turn (st : element * res unit) (p : list nat) : element * res unit :=
  match st with
  | (t, Ret _) => at_node p t
  | (t, Raise x) => (t, Raise x)
  end.

(** [for x in xml.xpath(...): body(x)] *)
Definition loop (xml : element) : element * res unit :=
  foldl next_turn (xml, Ret tt) (paths_from xml).

(** *** The body removes the selected node from its parent

    [x.getparent().remove(x)]. Here the nodes do not keep their places, and
    lxml follows them by identity; the loop is given by the traversal that
    has its effect. The root has no parent: [getparent()] is [None] and the
    attribute access raises. It is the first node of the list, so nothing
    has been removed by then. Every other selected node leaves the child
    list of its parent; one that lies inside a removed node does so in a
    subtree that is no longer part of the document. *)
Fixpoint prune (e : element) : element :=
  match e with
  | Element t a x kids tl =>
      Element t a x (omap (fun k => if sel k then None else Some (prune k)) kids) tl
  end.

Definition remove_each (xml : element) : element * res unit :=
  if sel xml then (xml, Raise AttributeError) else (prune xml, Ret tt).

(** *** The body replaces the selected node in its parent

    [x.getparent().replace(x, new)] when [make x] builds a [new] node, and
    nothing otherwise. The new node takes the position of [x]; [x] leaves
    with its subtree and its tail, and the turns of the nodes inside it
    no longer reach the document. *)
Variable make : element -> option element.

Definition replacement (e : element) : option element :=
  if sel e then make e else None.

Fixpoint substitute (e : element) : element :=
  match e with
  | Element t a x kids tl =>
      Element t a x
        (map (fun k => match replacement k with
                       | Some new => new
                       | None => substitute k
                       end) kids) tl
  end.

Definition replace_each (xml : element) : element * res unit :=
  match replacement xml with
  | Some _ => (xml, Raise AttributeError)
  | None => (substitute xml, Ret tt)
  end.

(** *** One insertion at the first selected node

    [xml.xpath(...)[0].insert(0, new)] *)
Variable new : element.

Fixpoint insert_first (e : element) : option element :=
  match e with
  | Element t a x kids tl =>
      if sel e then Some (insert0 e new)
      else (fun kids' => Element t a x kids' tl) <$> first_list insert_first kids
  end.
End Loop.

(** Passes run one after the other on the same tree; an exception ends
    the run. *)
Definition pass : Type := element -> element * res unit.

Definition and_then (p q : pass) : pass :=
  fun xml =>
    match p xml with
    | (xml', Ret _) => q xml'
    | (xml', Raise x) => (xml', Raise x)
    end.

Declare Scope pass_scope.
Delimit Scope pass_scope with pass.
Bind Scope pass_scope with pass.
Notation "p ;; q" := (and_then p q)
  (at level 100, q at level 200, right associativity) : pass_scope.

(** ** The passes *)

(** Book index to SBL book abbreviation. *)
Definition books_by_n : gmap string string :=
  list_to_map [
    ("B01", "Matt"); ("B02", "Mark"); ("B03", "Luke"); ("B04", "John");
    ("B05", "Acts"); ("B06", "Rom"); ("B07", "1 Cor"); ("B08", "2 Cor");
    ("B09", "Gal"); ("B10", "Eph"); ("B11", "Phil"); ("B12", "Col");
    ("B13", "1 Thess"); ("B14", "2 Thess"); ("B15", "1 Tim"); ("B16", "2 Tim");
    ("B17", "Titus"); ("B18", "Phlm"); ("B19", "Heb"); ("B20", "Jas");
    ("B21", "1 Pet"); ("B22", "2 Pet"); ("B23", "1 John"); ("B24", "2 John");
    ("B25", "3 John"); ("B26", "Jude"); ("B27", "Rev")
  ].

(** [//tei:app[not(@from) and not(@to)]] *)
Definition unitless_app (e : element) : bool :=
  is_app e && bool_decide (get e "from" = None) && bool_decide (get e "to" = None).

Definition strip_unitless_apps : pass := remove_each unitless_app.

Definition strip_wit_subelements : pass := remove_each is_wit.

(** [//tei:lem|//tei:rdg] *)
Definition lem_or_rdg (e : element) : bool := is_lem e || is_rdg e.

Definition underdot_code : string := "&#803;".
(** U+0323, COMBINING DOT BELOW, in UTF-8. *)
Definition underdot : string := String (ascii_of_nat 204) (String (ascii_of_nat 163) "").

Definition unescape (rdg : element) : element * res unit :=
  match text rdg with
  | Some t =>
      if Str.contains underdot_code t
      then (set_text rdg (Some (Str.replace underdot_code underdot t)), Ret tt)
      else (rdg, Ret tt)
  | None => (rdg, Ret tt)
  end.

Definition unescape_underdots : pass := loop lem_or_rdg unescape.

(** [//tei:lem[@type="om"]|//tei:rdg[@type="om"]] *)
Definition om_reading (e : element) : bool :=
  lem_or_rdg e && bool_decide (get e "type" = Some "om").

Definition strip_om_text : pass :=
  loop om_reading (fun rdg => (set_text rdg None, Ret tt)).

(** The [seg] built for an apparatus with exactly one reading. *)
Definition seg_for (app : element) : option element :=
  match xpath_children is_rdg app with
  | [rdg] => Some (set_text (et_Element "seg") (text rdg))
  | _ => None
  end.

Definition sub_segs_for_apps : pass := replace_each is_app seg_for.

(** The label of an apparatus, when one can be built: [None] stands for the
    branch that adds no label. The regular expression is applied to
    [app_n] as it is, and [re.match] raises on [None]; the book table is
    indexed without a default. *)
Definition label_for (app_n app_from app_to : option string) : res (option element) :=
  match app_n with
  | None => Raise TypeError
  | Some n =>
      match Str.re_match n with
      | None => Ret None
      | Some (book_n, chapter_n, verse_n) =>
          match books_by_n !! book_n with
          | None => Raise (KeyError book_n)
          | Some book =>
              let label_text :=
                book +:+ " " +:+ Str.drop_first chapter_n +:+ ":" +:+ Str.drop_first verse_n in
              let label_text :=
                match app_from with
                | Some f => label_text +:+ "/" +:+ f
                | None => label_text
                end in
              let label_text :=
                match app_to with
                | Some t =>
                    if bool_decide (app_to ≠ app_from) then label_text +:+ "-" +:+ t
                    else label_text
                | None => label_text
                end in
              Ret (Some (set_text (et_Element "label") (Some label_text)))
          end
      end
  end.

(** The feature structure with the default connectivity. *)
Definition connectivity_fs : element :=
  let numeric := set (et_Element "numeric") "value" "10" in
  let f := append (set (et_Element "f") "name" "connectivity") numeric in
  append (et_Element "fs") f.

(** The local stemma: one node for each reading number, no edge. *)
Definition stemma (rdg_ids : list string) : element :=
  set_children (set (et_Element "graph") "type" "directed")
    (map (fun rdg_id => set (et_Element "node") "n" rdg_id) rdg_ids).

(** The reading numbers of an apparatus: the [n] of each reading child that
    has one. *)
Definition rdg_ids (app : element) : list string :=
  omap (fun rdg => get rdg "n") (xpath_children is_rdg app).

(** The note as it stands when the body ends: the label if there is one,
    the feature structure, the graph. *)
Definition note_for (label : option element) (ids : list string) : element :=
  set_children (et_Element "note") (option_list label ++ [connectivity_fs; stemma ids]).

(** The body of the loop of [add_app_notes]. The empty note is appended to
    the apparatus before anything is put into it, so an exception raised
    while the label is built leaves the empty note in the tree. *)
Definition add_app_note (app : element) : element * res unit :=
  let app_n := get app "n" in
  let app_from := get app "from" in
  let app_to := get app "to" in
  let note := et_Element "note" in
  match label_for app_n app_from app_to with
  | Raise x => (append app note, Raise x)
  | Ret label => (append app (note_for label (rdg_ids app)), Ret tt)
  end.

Definition add_app_notes : pass := loop is_app add_app_note.

(** The last three statements of the body of [update_app_n]: store the new
    identifier, then remove [from] and [to]. *)
Definition store_n (new_app_n : string) : pass :=
  ((fun app => (set app "n" new_app_n, Ret tt)) ;;
   (fun app => pop app "from") ;;
   (fun app => pop app "to"))%pass.

(** The body of the loop of [update_app_n]. Python's [+] on strings raises
    on [None]. *)
Definition update_n (app : element) : element * res unit :=
  let app_n := get app "n" in
  let app_from := get app "from" in
  let app_to := get app "to" in
  match app_n, app_from with
  | Some n, Some f =>
      let new_app_n := n +:+ "U" +:+ f in
      if bool_decide (app_to ≠ app_from) then
        match app_to with
        | Some t => store_n (new_app_n +:+ "-" +:+ t) app
        | None => (app, Raise TypeError)
        end
      else store_n new_app_n app
  | _, _ => (app, Raise TypeError)
  end.

Definition update_app_n : pass := loop is_app update_n.

(** Strip any trailing asterisk or "V" (for et videtur). *)
Definition strip_marker (wit : string) : string :=
  if Str.endswith wit "*" || Str.endswith wit "V" then Str.drop_last wit else wit.

(** One turn of the inner loop of [get_wits], on the pair of the list
    [wits] and the set [distinct_wits]. *)
Definition note_wit (st : list string * gset string) (wit : string)
  : list string * gset string :=
  let '(wits, distinct_wits) := st in
  let wit_str := strip_marker wit in
  if decide (wit_str ∈ distinct_wits) then st
  else ((wits ++ [wit_str])%list, {[wit_str]} ∪ distinct_wits).

(** The outer loop: [rdg.get('wit').split()] raises when the attribute is
    absent. *)
Fixpoint get_wits_loop (rdgs : list element) (st : list string * gset string)
  : res (list string * gset string) :=
  match rdgs with
  | [] => Ret st
  | rdg :: rdgs' =>
      match get rdg "wit" with
      | None => Raise AttributeError
      | Some w => get_wits_loop rdgs' (foldl note_wit st (Str.split w))
      end
  end.

Definition get_wits (xml : element) : res (list string) :=
  match get_wits_loop (xpath is_rdg xml) ([], ∅) with
  | Ret (wits, _) => Ret wits
  | Raise x => Raise x
  end.

Definition teiHeader_for (wits : list string) : element :=
  let listWit :=
    set_children (et_Element "listWit")
      (map (fun wit => set (et_Element "witness") "n" wit) wits) in
  let sourceDesc := append (et_Element "sourceDesc") listWit in
  append (et_Element "teiHeader") sourceDesc.

Definition add_tei_header : pass :=
  fun xml =>
    match get_wits xml with
    | Raise x => (xml, Raise x)
    | Ret wits =>
        match insert_first is_TEI (teiHeader_for wits) xml with
        | None => (xml, Raise IndexError)
        | Some xml' => (xml', Ret tt)
        end
    end.

(** The passes of [main], in its order, on the parsed tree. *)
Definition main : pass :=
  (strip_unitless_apps ;;
   strip_wit_subelements ;;
   unescape_underdots ;;
   strip_om_text ;;
   sub_segs_for_apps ;;
   add_app_notes ;;
   update_app_n ;;
   add_tei_header)%pass.

(** The address the tree is written to: the value of [-o] when it is given,
    and otherwise [input_addr.replace('.xml', '_opencbgm.xml')]. *)
Definition output_addr (o : option string) (input_addr : string) : string :=
  match o with
  | Some a => a
  | None => Str.replace ".xml" "_opencbgm.xml" input_addr
  end.

(** * Vocabulary of the properties *)

(** ** The in-place loop as a traversal of the tree *)

(** What the loop leaves of a node [a] whose turn gave [b] and whose
    children, those it had when the XPath result was made, were rewritten
    to [kids']: the node as the turn left it, with the rewritten children in
    the place of the old ones and, after them, the children the turn
    appended. *)
Definition rebuilt (a b : element) (kids' : list element) : element :=
  set_children b (kids' ++ drop (List.length (children a)) (children b)).

Section Loops.
Context {A : Type} (f : A -> A * res unit).

(** Run [f] over a list from the left; stop at the first exception and
    leave what follows as it is. *)
Fixpoint walk_list (l : list A) : list A * res unit :=
  match l with
  | [] => ([], Ret tt)
  | k :: l' =>
      match f k with
      | (k', Raise x) => (k' :: l', Raise x)
      | (k', Ret _) => let '(l'', r) := walk_list l' in (k' :: l'', r)
      end
  end.
End Loops.

Section ForEach.
Variable sel : element -> bool.
Variable body : element -> element * res unit.

(** One turn of the loop on a node of the tree: the body when the node is
    selected, nothing otherwise. *)
Definition turn (a : element) : element * res unit :=
  if sel a then body a else (a, Ret tt).

(** The node first, then its children from the left, up to the first
    exception. *)
Fixpoint for_each (e : element) : element * res unit :=
  match e with
  | Element _ _ _ kids _ =>
      match turn e with
      | (b, Raise x) => (b, Raise x)
      | (b, Ret _) =>
          let '(kids', r) := walk_list for_each kids in
          (rebuilt e b kids', r)
      end
  end.

(** The paths of the nodes below the children [l], the first of which is
    child [i]. *)
Fixpoint paths_below (i : nat) (l : list element) : list (list nat) :=
  match l with
  | [] => []
  | k :: l' => ((cons i <$> paths_from sel k) ++ paths_below (S i) l')%list
  end.
End ForEach.

(** The identifier the body of [update_app_n] computes. *)
Definition unit_n (n f t : string) : string :=
  if bool_decide (t = f) then n +:+ "U" +:+ f else (n +:+ "U" +:+ f) +:+ "-" +:+ t.

(** No node on the path from [e], below [e] itself, is [bad]. *)
Fixpoint clear_path (bad : element -> bool) (p : list nat) (e : element) : bool :=
  match p with
  | [] => true
  | i :: p' =>
      match children e !! i with
      | Some k => negb (bad k) && clear_path bad p' k
      | None => false
      end
  end.

(** An apparatus with exactly one reading child. *)
Definition single_rdg_app (e : element) : bool :=
  is_app e && bool_decide (List.length (xpath_children is_rdg e) = 1).

(** Two elements that agree on all but their children. *)
Definition same_node (k k' : element) : Prop :=
  tag k' = tag k /\ attrib k' = attrib k /\ text k' = text k /\ tail k' = tail k.

(** No apparatus of the tree lacks both [from] and [to]. *)
Definition no_unitless (xml : element) : Prop :=
  forall a, a ∈ iter xml -> unitless_app a = false.

Definition one_of_from_to (app : element) : Prop :=
  (is_Some (get app "from") /\ get app "to" = None) \/
  (get app "from" = None /\ is_Some (get app "to")).

(** The specification's witness list: each identifier once, at the place of
    its first occurrence. *)
Fixpoint dedup_first (l : list string) : list string :=
  match l with
  | [] => []
  | w :: l' => w :: filter (fun v => v ≠ w) (dedup_first l')
  end.

(** The canonical identifiers of the tokens of one [wit] value. *)
Definition wit_ids (w : string) : list string := strip_marker <$> Str.split w.

(** ** Strings *)

(** The byte [c] is in [s]. *)
Fixpoint occurs (c : ascii) (s : string) : bool :=
  match s with
  | "" => false
  | String a s' => bool_decide (a = c) || occurs c s'
  end.

(** The characters [l] are decimal digits. *)
Definition all_digits (l : list string) : bool := forallb Str.isdigit l.

Definition starts_with_digit (l : list string) : bool :=
  match l with
  | [] => false
  | ch :: _ => Str.isdigit ch
  end.

(** One or more decimal digits: what [\d+] stands for. *)
Definition digit_run (d : list string) : Prop := d <> [] /\ all_digits d = true.

(** No character of [l] is white space. *)
Definition no_space (l : list string) : bool :=
  forallb (fun ch => negb (Str.isspace ch)) l.

(** A character that has all its bytes. *)
Definition full (ch : string) : bool :=
  match ch with
  | "" => false
  | String c t => (String.length t =? Str.trail c)%nat
  end.

(** A string that does not end inside a character. *)
Definition whole (s : string) : bool := forallb full (Str.chars s).

(** ** Passes that change texts only *)

(** The tree with the text of every node [a] set to [f a]. *)
Fixpoint retext (f : element -> option string) (e : element) : element :=
  match e with
  | Element t a _ kids tl => Element t a (f e) (map (retext f) kids) tl
  end.

(** The text [unescape_underdots] leaves in a node. *)
Definition unescaped (a : element) : option string :=
  if lem_or_rdg a then Str.replace underdot_code underdot <$> text a else text a.

(** The text [strip_om_text] leaves in a node. *)
Definition without_om (a : element) : option string :=
  if om_reading a then None else text a.

(** ** The elements the passes create *)

(** An apparatus for which the label can be built or left out: it has an
    [n], and when the pattern matches, the book code is in the table. *)
Definition labelable (app : element) : Prop :=
  exists s, get app "n" = Some s /\
    (Str.re_match s = None \/
     exists b c v, Str.re_match s = Some (b, c, v) /\ is_Some (books_by_n !! b)).

(** The names given to [et.Element] in the script. *)
Definition created_tags : list string :=
  ["seg"; "note"; "label"; "fs"; "f"; "numeric"; "graph"; "node";
   "teiHeader"; "sourceDesc"; "listWit"; "witness"].

Ltac created := unfold created_tags; repeat constructor.

(** Every element of [out] has a created tag or the tag of an element of
    [xml]. *)
Definition tags_from (xml out : element) : Prop :=
  forall a', a' ∈ iter out ->
    tag a' ∈ created_tags \/ exists a, a ∈ iter xml /\ tag a' = tag a.

(** The same, with the attributes of that element. *)
Definition nodes_from (xml out : element) : Prop :=
  forall a', a' ∈ iter out ->
    tag a' ∈ created_tags \/
    exists a, a ∈ iter xml /\ tag a' = tag a /\ attrib a' = attrib a.

(** ** Example documents *)

Definition rdg_elem (n wit txt : string) : element :=
  Element (tei "rdg") {["n" := n; "wit" := wit]} (Some txt) [] None.

(** A document around one node: [TEI/text/body/ab/node]. *)
Definition tei_doc (node : element) : element :=
  Element (tei "TEI") ∅ None
    [Element (tei "text") ∅ None
       [Element (tei "body") ∅ None
          [Element (tei "ab") {["n" := "B01K02V03"]} None [node] None] None] None] None.

Definition matt_app : element :=
  Element (tei "app") {["n" := "B01K02V03"; "from" := "4"; "to" := "4"]} None
    [rdg_elem "1" "A B1*" "x"; rdg_elem "2" "C2V A" "y"] None.

Definition matt_doc : element := tei_doc matt_app.

(** A reading without [wit] before one with. *)
Definition no_wit_doc : element :=
  tei_doc
    (Element (tei "app") {["n" := "B01K02V03"; "from" := "4"; "to" := "4"]} None
       [Element (tei "rdg") {["n" := "1"]} (Some "x") [] None;
        rdg_elem "2" "A" "y"] None).

(** A book code outside the table. *)
Definition unknown_book_app : element :=
  Element (tei "app") {["n" := "B28K1V1"; "from" := "2"; "to" := "2"]} None
    [rdg_elem "1" "A" "x"; rdg_elem "2" "B" "y"] None.

(** An apparatus without readings. *)
Definition no_rdg_app : element :=
  Element (tei "app") {["n" := "B01K1V1"; "from" := "2"; "to" := "2"]} None [] None.

(** An apparatus without [n]. *)
Definition no_n_app : element :=
  Element (tei "app") {["from" := "2"; "to" := "2"]} None
    [rdg_elem "1" "A" "x"; rdg_elem "2" "B" "y"] None.

(** An apparatus with [from] and without [to], and only one reading. *)
Definition from_only_app : element :=
  Element (tei "app") {["n" := "B01K1V1"; "from" := "2"]} None
    [rdg_elem "1" "A" "x"] None.

(** The same kind of apparatus with two readings, inside the reading of a
    unit-less apparatus. *)
Definition nested_doc : element :=
  tei_doc
    (Element (tei "app") {["n" := "B01K1V1"]} None
       [Element (tei "rdg") {["n" := "1"; "wit" := "A"]} None
          [Element (tei "app") {["n" := "B01K1V1"; "from" := "2"]} None
             [rdg_elem "1" "A" "x"; rdg_elem "2" "B" "y"] None] None] None).

(** An apparatus with one reading, between two words. *)
Definition single_rdg_doc : element :=
  Element (tei "TEI") ∅ None
    [Element (tei "ab") ∅ None
       [Element (tei "w") ∅ (Some "en") [] None;
        Element (tei "app") {["n" := "B01K1V1"; "from" := "2"; "to" := "2"]} None
          [rdg_elem "1" "A B" "arche"] None;
        Element (tei "app") {["n" := "B01K1V1"; "from" := "4"; "to" := "6"]} None
          [rdg_elem "1" "A" "x"; rdg_elem "2" "B" "y"] None] None] None.

(** An apparatus whose [n] does not follow the pattern. *)
Definition odd_n_app : element :=
  Element (tei "app") {["n" := "incipit"; "from" := "2"; "to" := "2"]} None
    [rdg_elem "1" "A" "x"; rdg_elem "2" "B" "y"] None.

(** An apparatus with [from] and without [to], and two readings. *)
Definition from_only_two_app : element :=
  Element (tei "app") {["n" := "B01K1V1"; "from" := "2"]} None
    [rdg_elem "1" "A" "x"; rdg_elem "2" "B" "y"] None.

(** A document with an escaped underdot in a sole reading, an omission
    that still has its text, and a [wit] element. *)
Definition escaped_doc : element :=
  Element (tei "TEI") ∅ None
    [Element (tei "ab") ∅ None
       [Element (tei "app") {["n" := "B01K1V1"; "from" := "2"; "to" := "2"]} None
          [Element (tei "rdg") {["n" := "1"; "wit" := "A"]} (Some "a&#803;b") [] None]
          None;
        Element (tei "app") {["n" := "B01K1V1"; "from" := "4"; "to" := "4"]} None
          [Element (tei "rdg") {["n" := "1"; "wit" := "B"]} (Some "c&#803;")
             [Element (tei "wit") ∅ (Some "B") [] None] None;
           Element (tei "rdg") {["n" := "2"; "type" := "om"; "wit" := "C"]} (Some "om.")
             [] None] None] None] None.




(** U+00A0, NO-BREAK SPACE, and the ARABIC-INDIC DIGITs U+0660 to U+0669,
    in UTF-8. *)
Definition no_break_space : string :=
  String (ascii_of_nat 194) (String (ascii_of_nat 160) "").

Definition arabic_indic (n : nat) : string :=
  String (ascii_of_nat 217) (String (ascii_of_nat (160 + n)) "").

(** An apparatus whose book code is written with the digits U+0660 and
    U+0661. *)
Definition arabic_book_app : element :=
  Element (tei "app")
    {["n" := "B" +:+ arabic_indic 0 +:+ arabic_indic 1 +:+ "K1V1";
      "from" := "2"; "to" := "2"]} None
    [rdg_elem "1" "A" "x"; rdg_elem "2" "B" "y"] None.

(** An apparatus whose book code has one digit. *)
Definition short_book_app : element :=
  Element (tei "app") {["n" := "B1K1V1"; "from" := "2"; "to" := "2"]} None
    [rdg_elem "1" "A" "x"; rdg_elem "2" "B" "y"] None.

(** ** Induction on the element tree *)

Section ElementInd.
Variable P : element -> Prop.
Hypothesis step :
  forall t a x kids tl, Forall P kids -> P (Element t a x kids tl).

Fixpoint element_ind (e : element) : P e :=
  match e with
  | Element t a x kids tl =>
      step t a x kids tl
        ((fix all (l : list element) : Forall P l :=
            match l with
            | [] => Forall_nil_2 P
            | k :: l' => Forall_cons_2 P k l' (element_ind k) (all l')
            end) kids)
  end.
End ElementInd.

(** * Properties *)

(** ** The string operations on small inputs *)

Example split_blanks : Str.split "  A B1*   C2V " = ["A"; "B1*"; "C2V"].
Proof. reflexivity. Qed.

Example split_tab_newline :
  Str.split (String (ascii_of_nat 9) "A" +:+ String (ascii_of_nat 10) "B") = ["A"; "B"].
Proof. reflexivity. Qed.

Example split_empty : Str.split "   " = [].
Proof. reflexivity. Qed.

Example strip_marker_once :
  strip_marker <$> ["A"; "B1*"; "C2V"; "D**"; "V"] = ["A"; "B1"; "C2"; "D*"; ""].
Proof. reflexivity. Qed.

Example re_match_groups : Str.re_match "B01K02V03" = Some ("B01", "K02", "V03").
Proof. reflexivity. Qed.

Example re_match_prefix : Str.re_match "B4K1V12-13" = Some ("B4", "K1", "V12").
Proof. reflexivity. Qed.

Example re_match_no_digit : Str.re_match "B01K02V" = None.
Proof. reflexivity. Qed.

Example re_match_not_at_start : Str.re_match "xB01K02V03" = None.
Proof. reflexivity. Qed.

Example split_no_break_space :
  Str.split ("A" +:+ no_break_space +:+ "B* A") = ["A"; "B*"; "A"].
Proof. vm_compute. reflexivity. Qed.

Example re_match_arabic_indic_book :
  Str.re_match ("B" +:+ arabic_indic 0 +:+ arabic_indic 1 +:+ "K1V1") =
    Some ("B" +:+ arabic_indic 0 +:+ arabic_indic 1, "K1", "V1").
Proof. vm_compute. reflexivity. Qed.

Example re_match_arabic_indic_verse :
  Str.re_match ("B01K1V1" +:+ arabic_indic 3) =
    Some ("B01", "K1", "V1" +:+ arabic_indic 3).
Proof. vm_compute. reflexivity. Qed.

(** The pattern takes the digits of every script: the book code of
    [arabic_book_app] is read, and is no key of the table. *)
Example arabic_book_raises :
  add_app_note arabic_book_app =
    (append arabic_book_app (et_Element "note"),
     Raise (KeyError ("B" +:+ arabic_indic 0 +:+ arabic_indic 1))).
Proof. vm_compute. reflexivity. Qed.

(** A no-break space parts two witnesses. *)
Example get_wits_no_break_space :
  get_wits (tei_doc (rdg_elem "1" ("A" +:+ no_break_space +:+ "B* A") "x")) =
    Ret ["A"; "B"].
Proof. vm_compute. reflexivity. Qed.

Example replace_twice :
  Str.replace underdot_code "." "a&#803;b&#803;&#80" = "a.b.&#80".
Proof. reflexivity. Qed.

Example books_by_n_size : size books_by_n = 27.
Proof. by vm_compute. Qed.

Lemma iter_unfold e : iter e = e :: flat_map iter (children e).
Proof. by destruct e. Qed.

Lemma elem_of_iter_self e : e ∈ iter e.
Proof. rewrite iter_unfold. left. Qed.

Lemma elem_of_iter_child e k a : k ∈ children e -> a ∈ iter k -> a ∈ iter e.
Proof.
  intros Hk Ha. rewrite iter_unfold. right.
  apply list_elem_of_In, in_flat_map. exists k.
  split; by apply list_elem_of_In.
Qed.

Lemma elem_of_iter_inv e a :
  a ∈ iter e -> a = e \/ exists k, k ∈ children e /\ a ∈ iter k.
Proof.
  rewrite iter_unfold. intros [->|Ha]%elem_of_cons; [by left|right].
  apply list_elem_of_In, in_flat_map in Ha as (k & Hk & Ha).
  exists k. split; by apply list_elem_of_In.
Qed.

(** A node is in the tree exactly when a path leads to it. *)
Lemma at_path_iter p : forall e a, at_path p e = Some a -> a ∈ iter e.
Proof.
  induction p as [|i p IH]; intros e a; simpl.
  - intros [= ->]. apply elem_of_iter_self.
  - destruct (children e !! i) as [k|] eqn:Hk; [|done].
    intros Ha. eapply elem_of_iter_child; [|by apply IH].
    by eapply list_elem_of_lookup_2.
Qed.

Lemma iter_at_path e : forall a, a ∈ iter e -> exists p, at_path p e = Some a.
Proof.
  induction e as [t at_ x kids tl IH] using element_ind. intros a Ha.
  apply elem_of_iter_inv in Ha as [->|(k & Hk & Ha)]; [by exists []|].
  simpl in Hk. rewrite Forall_forall in IH.
  destruct (IH k Hk a Ha) as [p Hp].
  apply list_elem_of_lookup in Hk as [i Hi].
  exists (i :: p). simpl. by rewrite Hi.
Qed.

(** ** Loops that change the selected node *)

Section WalkFacts.
Context {A : Type} (f : A -> A * res unit).

Lemma walk_list_ret l l' :
  walk_list f l = (l', Ret tt) <-> Forall2 (fun k k' => f k = (k', Ret tt)) l l'.
Proof.
  revert l'. induction l as [|k l IH]; intros l'; simpl.
  - split; [intros [= <-]; constructor | by intros ->%Forall2_nil_inv_l].
  - destruct (f k) as [k' [[]|x]] eqn:Hk.
    + destruct (walk_list f l) as [l'' r] eqn:Hl. split.
      * intros [= <- ->]. constructor; [done|]. by apply IH.
      * intros (k2 & l2 & Hk2 & Hl2 & ->)%Forall2_cons_inv_l.
        apply IH in Hl2. simplify_eq. congruence.
    + split; [done|].
      intros (k2 & l2 & Hk2 & _ & ->)%Forall2_cons_inv_l. congruence.
Qed.

Lemma walk_list_raised l :
  raised (walk_list f l).2 = true <-> Exists (fun k => raised (f k).2 = true) l.
Proof.
  induction l as [|k l IH]; simpl.
  - split; [done|]. by intros ?%Exists_nil.
  - rewrite Exists_cons. destruct (f k) as [k' [[]|x]] eqn:Hk; simpl.
    + destruct (walk_list f l) as [l'' r]; simpl in *. rewrite IH.
      split; [by right|]. by intros [?|?].
    + split; [by left|done].
Qed.
End WalkFacts.

Section ForEachFacts.
Variable sel : element -> bool.
Variable body : element -> element * res unit.

Lemma for_each_unfold e :
  for_each sel body e =
    match turn sel body e with
    | (b, Raise x) => (b, Raise x)
    | (b, Ret _) =>
        let '(kids', r) := walk_list (for_each sel body) (children e) in
        (rebuilt e b kids', r)
    end.
Proof. by destruct e. Qed.

Lemma for_each_ret e e' :
  for_each sel body e = (e', Ret tt) <->
  exists b kids',
    turn sel body e = (b, Ret tt) /\
    walk_list (for_each sel body) (children e) = (kids', Ret tt) /\
    e' = rebuilt e b kids'.
Proof.
  rewrite for_each_unfold.
  destruct (turn sel body e) as [b [[]|x]];
    [destruct (walk_list _ _) as [kids' [[]|y]]|]; split;
    try (intros (?&?&?&?&?)); intros; simplify_eq; eauto.
Qed.

(** The node at a path is still at that path after the loop: it carries
    what its turn made of it, its old children rewritten in place, and
    after them the children its turn appended. *)
Lemma for_each_at_path p : forall e e' a,
  for_each sel body e = (e', Ret tt) ->
  at_path p e = Some a ->
  exists b kids',
    turn sel body a = (b, Ret tt) /\
    walk_list (for_each sel body) (children a) = (kids', Ret tt) /\
    at_path p e' = Some (rebuilt a b kids').
Proof.
  induction p as [|i p IH]; intros e e' a He Ha; simpl in Ha.
  - simplify_eq. apply for_each_ret in He as (b & kids' & ? & ? & ->).
    by exists b, kids'.
  - destruct (children e !! i) as [k|] eqn:Hk; [|done].
    apply for_each_ret in He as (b & kids' & Hb & Hkids & ->).
    apply walk_list_ret in Hkids.
    destruct (Forall2_lookup_l _ _ _ _ _ Hkids Hk) as (k' & Hk' & Hfk).
    destruct (IH _ _ _ Hfk Ha) as (b' & kids'' & ? & ? & Hp).
    exists b', kids''. split_and!; [done..|].
    simpl. by rewrite (lookup_app_l_Some _ _ _ _ Hk').
Qed.

(** The loop raises exactly when the turn of some node of the tree does. *)
Lemma for_each_raised e :
  raised (for_each sel body e).2 = true <->
  exists a, a ∈ iter e /\ raised (turn sel body a).2 = true.
Proof.
  induction e as [t at_ x kids tl IH] using element_ind.
  rewrite Forall_forall in IH.
  rewrite for_each_unfold.
  pose proof (walk_list_raised (for_each sel body) kids) as Hw.
  change (children (Element t at_ x kids tl)) with kids.
  generalize (elem_of_iter_self (Element t at_ x kids tl)).
  generalize (elem_of_iter_inv (Element t at_ x kids tl)).
  generalize (elem_of_iter_child (Element t at_ x kids tl)).
  change (children (Element t at_ x kids tl)) with kids.
  generalize (Element t at_ x kids tl). intros e Hchild Hinv Hself.
  destruct (turn sel body e) as [b [[]|y]] eqn:Hb.
  - destruct (walk_list _ kids) as [kids' r] eqn:Hkids.
    cbn [snd] in *. rewrite Hw, Exists_exists. split.
    + intros (k & Hk & Hr).
      apply IH in Hr as (a & Ha & Hr); [|done].
      exists a. split; [|done]. by eapply Hchild.
    + intros (a & Ha & Hr).
      apply Hinv in Ha as [->|(k & Hk & Ha)].
      * rewrite Hb in Hr. done.
      * exists k. split; [done|].
        apply IH; [done|]. by exists a.
  - split; [|done]. intros _. exists e. split; [done|].
    by rewrite Hb.
Qed.

Lemma not_raised {A} (r : res A) : raised r = false -> exists a, r = Ret a.
Proof. destruct r; naive_solver. Qed.

(** So the loop ends normally when every turn does. *)
Lemma for_each_total e :
  (forall a, a ∈ iter e -> raised (turn sel body a).2 = false) ->
  exists e', for_each sel body e = (e', Ret tt).
Proof.
  intros Hall.
  destruct (for_each sel body e) as [e' r] eqn:He. exists e'.
  destruct r as [[]|y]; [done|].
  assert (raised (for_each sel body e).2 = true) as Hr by by rewrite He.
  apply for_each_raised in Hr as (a & Ha & Hr).
  rewrite Hall in Hr; done.
Qed.
End ForEachFacts.

(** ** The traversal is the loop *)

Section LoopFacts.
Variable sel : element -> bool.
Variable body : element -> element * res unit.

Lemma paths_from_unfold e :
  paths_from sel e =
    ((if sel e then [[]] else []) ++ paths_below sel 0 (children e))%list.
Proof.
  destruct e as [t a x kids tl]. reflexivity.
Qed.

Lemma foldl_next_turn_raise t x ps :
  foldl (next_turn body) (t, Raise x) ps = (t, Raise x).
Proof. induction ps; simpl; auto. Qed.

Lemma set_children_id t : set_children t (children t) = t.
Proof. by destruct t. Qed.

(** The turns of the nodes below child [i] change that child only. *)
Lemma foldl_below_child i qs : forall t k,
  children t !! i = Some k ->
  foldl (next_turn body) (t, Ret tt) (cons i <$> qs) =
    let '(k', r) := foldl (next_turn body) (k, Ret tt) qs in
    (set_children t (<[i := k']> (children t)), r).
Proof.
  induction qs as [|q qs IH]; intros t k Hk; simpl.
  - by rewrite list_insert_id, set_children_id.
  - rewrite Hk. destruct (at_node body q k) as [k1 [[]|x]] eqn:Hq.
    + rewrite (IH _ k1).
      2:{ simpl. apply list_lookup_insert_eq. by eapply lookup_lt_Some. }
      destruct (foldl (next_turn body) (k1, Ret ()) qs) as [k2 r]. simpl.
      by rewrite list_insert_insert_eq.
    + by rewrite !foldl_next_turn_raise.
Qed.

(** The turns below the children [todo], taken from the left, rewrite them
    one after the other. *)
Lemma foldl_below todo : forall pre post t,
  children t = (pre ++ todo ++ post)%list ->
  (forall k, k ∈ todo ->
     foldl (next_turn body) (k, Ret tt) (paths_from sel k) = for_each sel body k) ->
  foldl (next_turn body) (t, Ret tt) (paths_below sel (List.length pre) todo) =
    let '(todo', r) := walk_list (for_each sel body) todo in
    (set_children t (pre ++ todo' ++ post), r).
Proof.
  induction todo as [|k todo IH]; intros pre post t Ht Hk; simpl.
  - simpl in Ht. by rewrite <- Ht, set_children_id.
  - rewrite foldl_app, (foldl_below_child _ _ t k).
    2:{ rewrite Ht. simpl. by apply list_lookup_middle. }
    rewrite Hk by left.
    destruct (for_each sel body k) as [k' [[]|x]] eqn:Hfk.
    + specialize (IH (pre ++ [k'])%list post
                    (set_children t (<[List.length pre := k']> (children t)))).
      rewrite length_app in IH. simpl in IH.
      replace (List.length pre + 1) with (S (List.length pre)) in IH by lia.
      rewrite IH.
      * destruct (walk_list (for_each sel body) todo) as [todo' r].
        simpl. by rewrite <- app_assoc.
      * rewrite Ht. rewrite insert_app_r_alt by done.
        rewrite Nat.sub_diag. simpl. by rewrite <- app_assoc.
      * intros k0 Hk0. apply Hk. by right.
    + rewrite foldl_next_turn_raise. f_equal.
      rewrite Ht. rewrite insert_app_r_alt by done.
      by rewrite Nat.sub_diag.
Qed.

(** For a body that leaves the children of its node in place and at most
    appends new ones, the loop over the paths is the traversal. *)
Lemma loop_for_each e :
  (forall a b, body a = (b, Ret tt) ->
     exists extra, children b = (children a ++ extra)%list) ->
  loop sel body e = for_each sel body e.
Proof.
  intros Happend. unfold loop.
  induction e as [t at_ x kids tl IH] using element_ind.
  rewrite Forall_forall in IH.
  rewrite paths_from_unfold, for_each_unfold, foldl_app. unfold turn.
  change (children (Element t at_ x kids tl)) with kids.
  generalize (Element t at_ x kids tl)
             (eq_refl : children (Element t at_ x kids tl) = kids).
  intros e He.
  destruct (sel e); simpl.
  - destruct (body e) as [b [[]|y]] eqn:Hb; [|by rewrite foldl_next_turn_raise].
    destruct (Happend e b Hb) as [extra Hextra]. rewrite He in Hextra.
    pose proof (foldl_below kids [] extra b Hextra IH) as Hfold.
    simpl in Hfold. rewrite Hfold.
    destruct (walk_list _ kids) as [kids' r]. unfold rebuilt.
    by rewrite He, Hextra, drop_app_length.
  - assert (children e = ([] ++ kids ++ [])%list) as He'
      by (by rewrite app_nil_r).
    pose proof (foldl_below kids [] [] e He' IH) as Hfold.
    simpl in Hfold. rewrite Hfold.
    destruct (walk_list _ kids) as [kids' r]. unfold rebuilt.
    by rewrite He, drop_all.
Qed.
End LoopFacts.

(** ** Renumbering *)

Lemma store_n_ret new app f t :
  get app "from" = Some f -> get app "to" = Some t ->
  store_n new app =
    (set_attrib app (delete "to" (delete "from" (<["n" := new]> (attrib app)))), Ret tt).
Proof.
  unfold store_n, and_then, pop, get, set. intros Hf Ht.
  cbn [attrib set_attrib].
  rewrite lookup_insert_ne, Hf by done. cbn [attrib set_attrib].
  by rewrite lookup_delete_ne, lookup_insert_ne, Ht by done.
Qed.

Lemma update_n_ret app app' :
  update_n app = (app', Ret tt) <->
  exists n f t,
    get app "n" = Some n /\ get app "from" = Some f /\ get app "to" = Some t /\
    app' = set_attrib app
             (delete "to" (delete "from" (<["n" := unit_n n f t]> (attrib app)))).
Proof.
  unfold update_n, unit_n.
  destruct (get app "n") as [n|] eqn:Hn;
    [|split; [done|by intros (?&?&?&?&_)]].
  destruct (get app "from") as [f|] eqn:Hf;
    [|split; [done|by intros (?&?&?&_&?&_)]].
  destruct (get app "to") as [t|] eqn:Ht.
  - rewrite !(store_n_ret _ app f t) by done.
    case_bool_decide as Hne.
    + split.
      * intros [= <-]. exists n, f, t.
        by rewrite (bool_decide_eq_false_2 (t = f)) by congruence.
      * intros (?&?&?&?&?&?&->). simplify_eq.
        by rewrite (bool_decide_eq_false_2 _) by congruence.
    + assert (t = f) as -> by congruence.
      split.
      * intros [= <-]. exists n, f, f. by rewrite bool_decide_eq_true_2.
      * intros (?&?&?&?&?&?&->). simplify_eq. by rewrite bool_decide_eq_true_2.
  - rewrite bool_decide_eq_true_2 by done.
    split; [done|]. by intros (?&?&?&_&_&?&_).
Qed.

(** The body raises exactly when one of the three attributes is absent, and
    then it has changed nothing. *)
Lemma update_n_raise app app' x :
  update_n app = (app', Raise x) <->
  (get app "n" = None \/ get app "from" = None \/ get app "to" = None) /\
  app' = app /\ x = TypeError.
Proof.
  unfold update_n.
  destruct (get app "n") as [n|] eqn:Hn; [|naive_solver].
  destruct (get app "from") as [f|] eqn:Hf; [|naive_solver].
  destruct (get app "to") as [t|] eqn:Ht.
  - rewrite !(store_n_ret _ app f t) by done.
    case_bool_decide; naive_solver.
  - rewrite bool_decide_eq_true_2 by done. naive_solver.
Qed.

Lemma update_app_n_eq xml : update_app_n xml = for_each is_app update_n xml.
Proof.
  apply loop_for_each. intros a b (n & f & t & _ & _ & _ & ->)%update_n_ret.
  exists []. by rewrite app_nil_r.
Qed.

Lemma get_rebuilt a b kids' k : get (rebuilt a b kids') k = get b k.
Proof. done. Qed.

Lemma tag_rebuilt a b kids' : tag (rebuilt a b kids') = tag b.
Proof. done. Qed.

(** C6. The body of the loop, run on an apparatus that has [n], [from] and
    [to], ends normally and leaves it without [from] and [to] and with the
    new [n]. When the renumbering pass runs to its end, every apparatus of
    the tree that carried [from] and [to] is still at its place, has lost
    both attributes, is still an apparatus, and its [n] is the old [n], then
    "U" and the [from] value, then "-" and the [to] value exactly when [to]
    differs from [from]; its other attributes are as they were. The pass
    does run to its end when every apparatus has [n], [from] and [to]. *)
Theorem update_app_n_renumbers xml :
  (forall app n f t,
     get app "n" = Some n -> get app "from" = Some f -> get app "to" = Some t ->
     update_n app =
       (set_attrib app
          (delete "to" (delete "from"
             (<["n" := if bool_decide (t = f) then n +:+ "U" +:+ f
                       else (n +:+ "U" +:+ f) +:+ "-" +:+ t]> (attrib app)))),
        Ret tt)) /\
  ((forall a, a ∈ iter xml -> is_app a = true ->
      is_Some (get a "n") /\ is_Some (get a "from") /\ is_Some (get a "to")) ->
   exists xml', update_app_n xml = (xml', Ret tt)) /\
  (forall xml' p app f t,
     update_app_n xml = (xml', Ret tt) ->
     at_path p xml = Some app ->
     is_app app = true ->
     get app "from" = Some f ->
     get app "to" = Some t ->
     exists n app',
       get app "n" = Some n /\
       at_path p xml' = Some app' /\
       is_app app' = true /\
       get app' "from" = None /\
       get app' "to" = None /\
       get app' "n" =
         Some (if bool_decide (t = f) then n +:+ "U" +:+ f
               else (n +:+ "U" +:+ f) +:+ "-" +:+ t) /\
       (forall k, k ≠ "n" -> k ≠ "from" -> k ≠ "to" -> get app' k = get app k)).
Proof.
  split_and!.
  - intros app n f t Hn Hf Ht. apply update_n_ret. by exists n, f, t.
  - intros Hall. rewrite update_app_n_eq.
    apply for_each_total. intros a Ha. unfold turn.
    destruct (is_app a) eqn:Happ; [|done].
    destruct (Hall a Ha Happ) as ([n Hn] & [f Hf] & [t Ht]).
    destruct (update_n a) as [a' [[]|x]] eqn:Hu; [done|].
    apply update_n_raise in Hu as [[?|[?|?]] _]; congruence.
  - intros xml' p app f t Hrun Hp Happ Hf Ht. rewrite update_app_n_eq in Hrun.
    destruct (for_each_at_path _ _ _ _ _ _ Hrun Hp) as (b & kids' & Hb & _ & Hp').
    unfold turn in Hb. rewrite Happ in Hb.
    apply update_n_ret in Hb as (n & f' & t' & Hn & Hf' & Ht' & ->).
    assert (f' = f) as -> by congruence. assert (t' = t) as -> by congruence.
    exists n, (rebuilt app
                 (set_attrib app
                    (delete "to" (delete "from" (<["n" := unit_n n f t]> (attrib app)))))
                 kids').
    split_and!; try done.
    + unfold get, rebuilt, set_children, set_attrib; simpl.
      by rewrite lookup_delete_ne, lookup_delete_eq.
    + unfold get, rebuilt, set_children, set_attrib; simpl.
      by rewrite lookup_delete_eq.
    + unfold get, rebuilt, set_children, set_attrib; simpl.
      by rewrite !lookup_delete_ne, lookup_insert_eq.
    + intros k ? ? ?. unfold get, rebuilt, set_children, set_attrib; simpl.
      by rewrite !lookup_delete_ne, lookup_insert_ne.
Qed.

(** ** Collapsing single-reading apparatuses *)

Section SubstituteFacts.
Variable sel : element -> bool.
Variable make : element -> option element.

Lemma substitute_unfold e :
  substitute sel make e =
    Element (tag e) (attrib e) (text e)
      (map (fun k => match replacement sel make k with
                     | Some new => new
                     | None => substitute sel make k
                     end) (children e))
      (tail e).
Proof. by destruct e. Qed.

(** A node that is not below a replaced one is still at its path. *)
Lemma substitute_at_path p : forall e a,
  at_path p e = Some a ->
  clear_path (fun k => bool_decide (is_Some (replacement sel make k))) p e = true ->
  at_path p (substitute sel make e) = Some (substitute sel make a).
Proof.
  induction p as [|i p IH]; intros e a Ha Hclear; simpl in *.
  - by simplify_eq.
  - rewrite substitute_unfold. simpl. rewrite list_lookup_fmap.
    destruct (children e !! i) as [k|]; [simpl|done].
    apply andb_true_iff in Hclear as [Hk Hclear].
    apply negb_true_iff, bool_decide_eq_false in Hk.
    destruct (replacement sel make k); [by destruct Hk|]. by apply IH.
Qed.

(** Where nothing is to be replaced, nothing changes. *)
Lemma substitute_id e :
  (forall a, a ∈ iter e -> replacement sel make a = None) ->
  substitute sel make e = e.
Proof.
  induction e as [t at_ x kids tl IH] using element_ind. intros Hnone.
  rewrite substitute_unfold. simpl. f_equal.
  rewrite Forall_forall in IH.
  rewrite <- (map_id kids) at 2. apply map_ext_in. intros k Hk%list_elem_of_In.
  assert (forall a, a ∈ iter k -> replacement sel make a = None) as Hk'.
  { intros a Ha. apply Hnone. by eapply elem_of_iter_child. }
  rewrite (Hk' k (elem_of_iter_self k)). by apply IH.
Qed.
End SubstituteFacts.

Lemma seg_for_Some app seg :
  seg_for app = Some seg <->
  exists rdg, xpath_children is_rdg app = [rdg] /\ seg = Element "seg" ∅ (text rdg) [] None.
Proof.
  unfold seg_for. destruct (xpath_children is_rdg app) as [|rdg [|??]]; naive_solver.
Qed.

Lemma replacement_seg_None e :
  replacement is_app seg_for e = None <-> single_rdg_app e = false.
Proof.
  unfold replacement, single_rdg_app, seg_for.
  destruct (is_app e); [|done]. simpl.
  destruct (xpath_children is_rdg e) as [|rdg [|??]]; simpl; try done.
Qed.

Lemma replacement_seg_Some e :
  is_Some (replacement is_app seg_for e) <-> single_rdg_app e = true.
Proof.
  rewrite <- not_eq_None_Some, replacement_seg_None. by destruct (single_rdg_app e).
Qed.

(** The pass fails only on a root that is itself a single-reading apparatus. *)
Lemma sub_segs_for_apps_ret xml xml' :
  sub_segs_for_apps xml = (xml', Ret tt) <->
  single_rdg_app xml = false /\ xml' = substitute is_app seg_for xml.
Proof.
  unfold sub_segs_for_apps, replace_each. rewrite <- replacement_seg_None.
  destruct (replacement is_app seg_for xml); naive_solver.
Qed.


(** ** Annotation *)

Lemma add_app_note_ret app b :
  add_app_note app = (b, Ret tt) <->
  exists label,
    label_for (get app "n") (get app "from") (get app "to") = Ret label /\
    b = append app (note_for label (rdg_ids app)).
Proof.
  unfold add_app_note. destruct (label_for _ _ _); naive_solver.
Qed.

Lemma add_app_note_raise app b x :
  add_app_note app = (b, Raise x) <->
  label_for (get app "n") (get app "from") (get app "to") = Raise x /\
  b = append app (et_Element "note").
Proof.
  unfold add_app_note. destruct (label_for _ _ _); naive_solver.
Qed.

Lemma add_app_notes_eq xml : add_app_notes xml = for_each is_app add_app_note xml.
Proof.
  apply loop_for_each. intros a b (label & _ & ->)%add_app_note_ret.
  by eexists.
Qed.

(** A label, when there is one, is a bare [label] element with a text. *)
Lemma label_for_Some n f t l :
  label_for n f t = Ret (Some l) ->
  exists label_text, l = Element "label" ∅ (Some label_text) [] None.
Proof.
  unfold label_for. destruct n as [n|]; [|done].
  destruct (Str.re_match n) as [[[b c] v]|]; [|done].
  destruct (books_by_n !! b); [|done].
  intros [= <-]. eauto.
Qed.

(** The label is left out exactly when [n] is there and does not match. *)
Lemma label_for_None n f t :
  label_for n f t = Ret None <-> exists s, n = Some s /\ Str.re_match s = None.
Proof.
  unfold label_for. destruct n as [n|]; [|split; [done|by intros (?&?&?)]].
  destruct (Str.re_match n) as [[[b c] v]|] eqn:Hm.
  - split; [by destruct (books_by_n !! b)|].
    intros (?&?&?). simplify_eq; congruence.
  - split; [by exists n|done].
Qed.

Lemma label_for_raise n f t x :
  label_for n f t = Raise x <->
  (n = None /\ x = TypeError) \/
  (exists s b c v,
     n = Some s /\ Str.re_match s = Some (b, c, v) /\
     books_by_n !! b = None /\ x = KeyError b).
Proof.
  unfold label_for. destruct n as [n|].
  2:{ split; [intros [= <-]; by left|]. by intros [[_ ->]|(?&?&?&?&?&_)]. }
  destruct (Str.re_match n) as [[[b c] v]|] eqn:Hm.
  2:{ split; [done|]. intros [[? _]|(?&?&?&?&?&?&_)]; [done|]. simplify_eq; congruence. }
  destruct (books_by_n !! b) eqn:Hb.
  - split; [done|]. intros [[? _]|(?&?&?&?&?&?&?&_)]; [done|]. simplify_eq; congruence.
  - split; [intros [= <-]; right; by exists n, b, c, v|].
    intros [[? _]|(?&?&?&?&?&?&?&->)]; [done|]. simplify_eq; congruence.
Qed.

(** Where the loop selects nothing, it changes nothing. *)
Lemma for_each_no_sel sel body e :
  (forall a, a ∈ iter e -> sel a = false) ->
  for_each sel body e = (e, Ret tt).
Proof.
  induction e as [t at_ x kids tl IH] using element_ind. intros Hnone.
  apply for_each_ret. exists (Element t at_ x kids tl), kids. split_and!.
  - unfold turn. by rewrite (Hnone _ (elem_of_iter_self _)).
  - apply walk_list_ret. simpl. rewrite Forall_forall in IH.
    apply Forall2_same_length_lookup. split; [done|].
    intros i k k' Hk Hk'. assert (k' = k) as -> by congruence.
    apply list_elem_of_lookup_2 in Hk.
    apply IH; [done|]. intros a Ha. apply Hnone. by eapply elem_of_iter_child.
  - unfold rebuilt, set_children. simpl. by rewrite drop_all, app_nil_r.
Qed.

(** Nothing in a note is an apparatus. *)
Lemma note_for_no_app label ids a :
  (forall l, label = Some l -> exists txt, l = Element "label" ∅ (Some txt) [] None) ->
  a ∈ iter (note_for label ids) -> is_app a = false.
Proof.
  intros Hlabel Ha.
  apply elem_of_iter_inv in Ha as [->|(k & Hk & Ha)]; [done|].
  simpl in Hk. apply elem_of_app in Hk as [Hk|Hk].
  - destruct label as [l|]; [|by apply elem_of_nil in Hk].
    apply list_elem_of_singleton in Hk as ->.
    destruct (Hlabel l eq_refl) as [txt ->].
    by apply list_elem_of_singleton in Ha as ->.
  - apply elem_of_cons in Hk as [->|Hk].
    + unfold connectivity_fs in Ha. simpl in Ha.
      repeat (apply elem_of_cons in Ha as [->|Ha]; [done|]).
      by apply elem_of_nil in Ha.
    + apply list_elem_of_singleton in Hk as ->.
      apply elem_of_iter_inv in Ha as [->|(k & Hk & Ha)]; [done|].
      simpl in Hk. apply list_elem_of_In, in_map_iff in Hk as (id & <- & _).
      by apply list_elem_of_singleton in Ha as ->.
Qed.

Lemma add_app_notes_same_node k k' :
  for_each is_app add_app_note k = (k', Ret tt) -> same_node k k'.
Proof.
  intros (b & kids' & Hb & _ & ->)%for_each_ret.
  unfold turn in Hb. destruct (is_app k).
  - by apply add_app_note_ret in Hb as (label & _ & ->).
  - by simplify_eq.
Qed.

(** What the annotation pass makes of an apparatus: the same node, its old
    children in their places, and one note after them. *)
Lemma add_app_notes_at_path xml xml' p app :
  add_app_notes xml = (xml', Ret tt) ->
  at_path p xml = Some app ->
  is_app app = true ->
  exists app' kids label,
    label_for (get app "n") (get app "from") (get app "to") = Ret label /\
    at_path p xml' = Some app' /\
    same_node app app' /\
    children app' = (kids ++ [note_for label (rdg_ids app)])%list /\
    Forall2 same_node (children app) kids /\
    Forall2 (fun k k' => for_each is_app add_app_note k = (k', Ret tt)) (children app) kids.
Proof.
  intros Hrun Hp Happ. rewrite add_app_notes_eq in Hrun.
  destruct (for_each_at_path _ _ _ _ _ _ Hrun Hp) as (b & kids & Hb & Hkids & Hp').
  unfold turn in Hb. rewrite Happ in Hb.
  apply add_app_note_ret in Hb as (label & Hlabel & ->).
  apply walk_list_ret in Hkids.
  eexists _, kids, label. split_and!; [done|exact Hp'|done| | |done].
  - unfold rebuilt, append, set_children. simpl.
    by rewrite drop_app_length.
  - eapply Forall2_impl; [exact Hkids|]. intros k k'. apply add_app_notes_same_node.
Qed.

Lemma filter_length_map_eq {A} (P : A -> bool) (g : A -> A) (l : list A) :
  (forall k, k ∈ l -> P (g k) = P k) ->
  List.length (filter (fun k => P k) (map g l)) = List.length (filter (fun k => P k) l).
Proof.
  induction l as [|k l IH]; intros Hg; [done|]. simpl.
  rewrite !filter_cons, Hg by left.
  destruct (decide (P k)); simpl; rewrite IH; try done;
    intros ??; apply Hg; by right.
Qed.

Lemma is_app_not_rdg e : is_app e = true -> is_rdg e = false.
Proof.
  unfold is_app, is_rdg, has_tag. intros ->%bool_decide_eq_true. done.
Qed.

Lemma rdg_children_substitute e :
  List.length (xpath_children is_rdg (substitute is_app seg_for e)) =
  List.length (xpath_children is_rdg e).
Proof.
  rewrite substitute_unfold. unfold xpath_children. simpl.
  apply filter_length_map_eq. intros k _.
  destruct (replacement is_app seg_for k) as [seg|] eqn:Hrep.
  - unfold replacement in Hrep. destruct (is_app k) eqn:Hk; [|done].
    apply seg_for_Some in Hrep as (rdg & _ & ->).
    by rewrite (is_app_not_rdg k).
  - by rewrite substitute_unfold.
Qed.

(** After the collapse no single-reading apparatus is left. *)
Lemma substitute_no_single e :
  single_rdg_app e = false ->
  forall a, a ∈ iter (substitute is_app seg_for e) -> single_rdg_app a = false.
Proof.
  induction e as [t at_ x kids tl IH] using element_ind. intros He a Ha.
  rewrite Forall_forall in IH.
  apply elem_of_iter_inv in Ha as [->|(k' & Hk' & Ha)].
  - unfold single_rdg_app in *. rewrite rdg_children_substitute.
    by rewrite substitute_unfold in *.
  - rewrite substitute_unfold in Hk'. simpl in Hk'.
    apply list_elem_of_In, in_map_iff in Hk' as (k & <- & Hk%list_elem_of_In).
    destruct (replacement is_app seg_for k) as [seg|] eqn:Hrep.
    + unfold replacement in Hrep. destruct (is_app k); [|done].
      apply seg_for_Some in Hrep as (rdg & _ & ->).
      by apply list_elem_of_singleton in Ha as ->.
    + apply (IH k); [done| |done]. by apply replacement_seg_None.
Qed.

(** C4, amended. After the collapse pass and the annotation pass have both
    run to their end, every apparatus that was in the tree between the two
    has a number of readings other than one (none, or two and more), is
    still at its path with the same tag, attributes, text and tail, keeps
    its children in their order and places, and carries after them exactly
    one new child, the note; an apparatus without readings gets its note
    like the others. *)
Theorem add_app_notes_annotates x4 x5 x6 p app :
  sub_segs_for_apps x4 = (x5, Ret tt) ->
  add_app_notes x5 = (x6, Ret tt) ->
  at_path p x5 = Some app ->
  is_app app = true ->
  List.length (xpath_children is_rdg app) ≠ 1 /\
  exists app' kids label,
    at_path p x6 = Some app' /\
    same_node app app' /\
    children app' = (kids ++ [note_for label (rdg_ids app)])%list /\
    Forall2 same_node (children app) kids.
Proof.
  intros [Hroot ->]%sub_segs_for_apps_ret Hnotes Hp Happ. split.
  - pose proof (substitute_no_single _ Hroot app (at_path_iter _ _ _ Hp)) as Hone.
    unfold single_rdg_app in Hone. rewrite Happ in Hone.
    by apply bool_decide_eq_false in Hone.
  - destruct (add_app_notes_at_path _ _ _ _ Hnotes Hp Happ)
      as (app' & kids & label & _ & ? & ? & ? & ? & _).
    by exists app', kids, label.
Qed.

(** C5, amended. An apparatus whose [n] attribute is there and does not
    match the pattern does not make the annotation fail: the body of the loop
    ends normally on it and appends a note without label, holding the
    connectivity feature and the graph; and when the pass has run to its
    end, that note is the last child of the apparatus. *)
Theorem add_app_notes_unmatched_n app s :
  is_app app = true ->
  get app "n" = Some s ->
  Str.re_match s = None ->
  add_app_note app =
    (append app (Element "note" ∅ None [connectivity_fs; stemma (rdg_ids app)] None),
     Ret tt) /\
  (forall xml xml' p,
     add_app_notes xml = (xml', Ret tt) ->
     at_path p xml = Some app ->
     exists app' kids,
       at_path p xml' = Some app' /\
       same_node app app' /\
       children app' =
         (kids ++ [Element "note" ∅ None [connectivity_fs; stemma (rdg_ids app)] None])%list /\
       Forall2 same_node (children app) kids).
Proof.
  intros Happ Hn Hmatch.
  assert (label_for (get app "n") (get app "from") (get app "to") = Ret None) as Hlabel.
  { apply label_for_None. by exists s. }
  split.
  - apply add_app_note_ret. by exists None.
  - intros xml xml' p Hrun Hp.
    destruct (add_app_notes_at_path _ _ _ _ Hrun Hp Happ)
      as (app' & kids & label & Hl & ? & ? & ? & ? & _).
    rewrite Hlabel in Hl. injection Hl as <-.
    by exists app', kids.
Qed.

(** C3, amended. An apparatus whose [n] matches the pattern with a book
    code that is not in the table makes the annotation raise: the body of
    the loop raises [KeyError] on the book code and leaves the apparatus with
    one more child, the empty note appended before the lookup; a tree that
    holds such an apparatus makes the whole pass raise, and no pass that
    follows it runs. *)
Theorem add_app_notes_unknown_book app s b c v :
  is_app app = true ->
  get app "n" = Some s ->
  Str.re_match s = Some (b, c, v) ->
  books_by_n !! b = None ->
  add_app_note app = (append app (Element "note" ∅ None [] None), Raise (KeyError b)) /\
  (forall xml,
     app ∈ iter xml ->
     raised (add_app_notes xml).2 = true /\
     forall q : pass, (add_app_notes ;; q)%pass xml = add_app_notes xml).
Proof.
  intros Happ Hn Hmatch Hbook.
  assert (add_app_note app = (append app (Element "note" ∅ None [] None), Raise (KeyError b)))
    as Hbody.
  { apply add_app_note_raise. split; [|done].
    apply label_for_raise. right. by exists s, b, c, v. }
  split; [done|]. intros xml Hin.
  assert (raised (add_app_notes xml).2 = true) as Hr.
  { rewrite add_app_notes_eq. apply for_each_raised. exists app. split; [done|].
    unfold turn. by rewrite Happ, Hbody. }
  split; [done|]. intros q. unfold and_then.
  destruct (add_app_notes xml) as [xml' [[]|x]]; [done|done].
Qed.

Lemma walk_list_snoc {A} (f : A -> A * res unit) l k l' :
  walk_list f (l ++ [k])%list = (l', Ret tt) ->
  exists l0 k', l' = (l0 ++ [k'])%list /\
    List.length l0 = List.length l /\ f k = (k', Ret tt).
Proof.
  intros H%walk_list_ret. apply Forall2_app_inv_l in H as (l0 & l1 & H0 & H1 & ->).
  apply Forall2_cons_inv_l in H1 as (k' & l2 & Hk & ->%Forall2_nil_inv_l & ->).
  exists l0, k'. split_and!; [done| |done]. symmetry. by eapply Forall2_length.
Qed.

(** C1, amended. An apparatus with [n="B01K02V03"], [from="4"], [to="4"]
    and exactly two reading children, numbered "1" and "2". The body of the
    annotation loop ends normally on it and appends a note holding the label
    "Matt 02:03/4" (the digits of the chapter and of the verse are copied as
    they stand, leading zeros included), the connectivity feature, and a
    directed graph whose only children are the nodes "1" and "2". The body
    of the renumbering loop then ends normally and sets
    [n="B01K02V03U4"]. And once the two passes have run over a tree that
    holds the apparatus, it is at the same place with that [n], and that
    note is its last child. *)
Theorem matt_2_3_example app r1 r2 :
  is_app app = true ->
  get app "n" = Some "B01K02V03" ->
  get app "from" = Some "4" ->
  get app "to" = Some "4" ->
  xpath_children is_rdg app = [r1; r2] ->
  get r1 "n" = Some "1" ->
  get r2 "n" = Some "2" ->
  let note :=
    Element "note" ∅ None
      [Element "label" ∅ (Some "Matt 02:03/4") [] None;
       connectivity_fs;
       Element "graph" {["type" := "directed"]} None
         [Element "node" {["n" := "1"]} None [] None;
          Element "node" {["n" := "2"]} None [] None] None]
      None in
  add_app_note app = (append app note, Ret tt) /\
  (exists app', update_n (append app note) = (app', Ret tt) /\
                get app' "n" = Some "B01K02V03U4" /\
                children app' = (children app ++ [note])%list) /\
  (forall x5 x6 x7 p,
     add_app_notes x5 = (x6, Ret tt) ->
     update_app_n x6 = (x7, Ret tt) ->
     at_path p x5 = Some app ->
     exists app' kids,
       at_path p x7 = Some app' /\
       is_app app' = true /\
       get app' "n" = Some "B01K02V03U4" /\
       List.length kids = List.length (children app) /\
       children app' = (kids ++ [note])%list).
Proof.
  intros Happ Hn Hf Ht Hrdgs Hr1 Hr2 note.
  assert (label_for (get app "n") (get app "from") (get app "to") =
          Ret (Some (Element "label" ∅ (Some "Matt 02:03/4") [] None))) as Hlabel.
  { rewrite Hn, Hf, Ht. vm_compute. reflexivity. }
  assert (rdg_ids app = ["1"; "2"]) as Hids.
  { unfold rdg_ids. rewrite Hrdgs. simpl. by rewrite Hr1, Hr2. }
  assert (note_for (Some (Element "label" ∅ (Some "Matt 02:03/4") [] None))
            (rdg_ids app) = note) as Hnote by by rewrite Hids.
  assert (forall a, a ∈ iter note -> is_app a = false) as Hnoapp.
  { intros a Ha.
    apply (note_for_no_app
             (Some (Element "label" ∅ (Some "Matt 02:03/4") [] None)) ["1"; "2"]);
      [|exact Ha].
    intros l [= <-]. eauto. }
  split_and!.
  - apply add_app_note_ret. eexists. split; [exact Hlabel|]. by rewrite Hnote.
  - exists (set_attrib (append app note)
              (delete "to" (delete "from"
                 (<["n" := unit_n "B01K02V03" "4" "4"]> (attrib app))))).
    split_and!.
    + apply update_n_ret. exists "B01K02V03", "4", "4".
      split_and!; [exact Hn|exact Hf|exact Ht|done].
    + unfold get, set_attrib. simpl.
      by rewrite !lookup_delete_ne, lookup_insert_eq.
    + done.
  - intros x5 x6 x7 p Hnotes Hrenum Hp.
    destruct (add_app_notes_at_path _ _ _ _ Hnotes Hp Happ)
      as (app6 & kids6 & label & Hlabel' & Hp6 & (Htag & Hattr & _) & Hkids6 & Hsame & _).
    assert (label = Some (Element "label" ∅ (Some "Matt 02:03/4") [] None)) as ->
      by congruence.
    rewrite Hnote in Hkids6.
    assert (is_app app6 = true) as Happ6.
    { unfold is_app, has_tag in *. by rewrite Htag. }
    rewrite update_app_n_eq in Hrenum.
    destruct (for_each_at_path _ _ _ _ _ _ Hrenum Hp6)
      as (b & kids7 & Hb & Hkids7 & Hp7).
    unfold turn in Hb. rewrite Happ6 in Hb.
    apply update_n_ret in Hb as (n & f & t & Hn6 & Hf6 & Ht6 & ->).
    unfold get in *. rewrite Hattr in Hn6, Hf6, Ht6.
    assert (n = "B01K02V03") as -> by congruence.
    assert (f = "4") as -> by congruence.
    assert (t = "4") as -> by congruence.
    rewrite Hkids6 in Hkids7.
    apply walk_list_snoc in Hkids7 as (kids & note' & -> & Hlen & Hnote').
    rewrite for_each_no_sel in Hnote' by done.
    injection Hnote' as <-.
    eexists _, kids. split_and!; [exact Hp7|done| | |].
    + unfold rebuilt, set_children, set_attrib. simpl.
      by rewrite !lookup_delete_ne, lookup_insert_eq.
    + rewrite Hlen. symmetry. by eapply Forall2_length.
    + unfold rebuilt, set_children, set_attrib. simpl.
      rewrite drop_all, app_nil_r. done.
Qed.

(** ** The nodes of a tree after a pass *)

Lemma and_then_ret (p q : pass) xml out :
  (p ;; q)%pass xml = (out, Ret tt) <->
  exists mid, p xml = (mid, Ret tt) /\ q mid = (out, Ret tt).
Proof.
  unfold and_then. destruct (p xml) as [mid [[]|x]].
  - split; [by exists mid|]. by intros (? & [= <-] & ?).
  - split; [done|]. by intros (? & [=] & _).
Qed.

Section PruneFacts.
Variable sel : element -> bool.

Lemma prune_unfold e :
  prune sel e =
    Element (tag e) (attrib e) (text e)
      (omap (fun k => if sel k then None else Some (prune sel k)) (children e))
      (tail e).
Proof. by destruct e. Qed.

(** Every node left by the pruning is the pruning of a node that was there
    and was not selected, the root apart. *)
Lemma iter_prune e a' :
  a' ∈ iter (prune sel e) ->
  a' = prune sel e \/ exists a, a ∈ iter e /\ sel a = false /\ a' = prune sel a.
Proof.
  induction e as [t at_ x kids tl IH] using element_ind. intros Ha.
  rewrite Forall_forall in IH.
  apply elem_of_iter_inv in Ha as [->|(k' & Hk' & Ha)]; [by left|right].
  rewrite prune_unfold in Hk'. simpl in Hk'.
  apply list_elem_of_omap in Hk' as (k & Hk & Hsel).
  destruct (sel k) eqn:Hselk; [done|]. injection Hsel as <-.
  destruct (IH k Hk Ha) as [->|(a & Hin & Hs & ->)].
  - exists k. split_and!; [|done..]. eapply elem_of_iter_child; [done|].
    apply elem_of_iter_self.
  - exists a. split_and!; [|done..]. by eapply elem_of_iter_child.
Qed.
End PruneFacts.

Section SubstituteNodes.
Variable sel : element -> bool.
Variable make : element -> option element.

(** Every node left by the replacement is a node that was there, with its
    children rewritten, or lies in one of the new nodes. *)
Lemma iter_substitute e a' :
  a' ∈ iter (substitute sel make e) ->
  (exists a, a ∈ iter e /\ a' = substitute sel make a) \/
  (exists a new, a ∈ iter e /\ replacement sel make a = Some new /\ a' ∈ iter new).
Proof.
  induction e as [t at_ x kids tl IH] using element_ind. intros Ha.
  rewrite Forall_forall in IH.
  apply elem_of_iter_inv in Ha as [->|(k' & Hk' & Ha)].
  { left. eexists. split; [apply elem_of_iter_self|done]. }
  rewrite substitute_unfold in Hk'. simpl in Hk'.
  apply list_elem_of_In, in_map_iff in Hk' as (k & <- & Hk%list_elem_of_In).
  assert (k ∈ iter (Element t at_ x kids tl)) as Hkin.
  { eapply elem_of_iter_child; [done|]. apply elem_of_iter_self. }
  destruct (replacement sel make k) as [new|] eqn:Hrep.
  - right. by exists k, new.
  - destruct (IH k Hk Ha) as [(a & Hin & ->)|(a & new & Hin & Hr & Hnew)].
    + left. exists a. split; [|done]. by eapply elem_of_iter_child.
    + right. exists a, new. split_and!; [|done..]. by eapply elem_of_iter_child.
Qed.
End SubstituteNodes.

Section ForEachNodes.
Variable sel : element -> bool.
Variable body : element -> element * res unit.

(** Every node left by a loop that ran to its end is a node that was
    there, as its turn and the loop left it, or lies in a child that some
    turn appended. *)
Lemma iter_for_each e e' a' :
  for_each sel body e = (e', Ret tt) ->
  a' ∈ iter e' ->
  (exists a b kids', a ∈ iter e /\ turn sel body a = (b, Ret tt) /\ a' = rebuilt a b kids') \/
  (exists a b c, a ∈ iter e /\ turn sel body a = (b, Ret tt) /\
                 c ∈ drop (List.length (children a)) (children b) /\ a' ∈ iter c).
Proof.
  revert e' a'. induction e as [t at_ x kids tl IH] using element_ind.
  intros e' a' (b & kids' & Hb & Hkids & ->)%for_each_ret Ha.
  rewrite Forall_forall in IH. apply walk_list_ret in Hkids.
  set (e := Element t at_ x kids tl) in *.
  apply elem_of_iter_inv in Ha as [->|(k' & Hk' & Ha)].
  { left. exists e, b, kids'. split; [apply elem_of_iter_self|done]. }
  unfold rebuilt in Hk'. simpl in Hk'. apply elem_of_app in Hk' as [Hk'|Hk'].
  - apply list_elem_of_lookup in Hk' as [i Hi].
    destruct (Forall2_lookup_r _ _ _ _ _ Hkids Hi) as (k & Hk & Hfk).
    apply list_elem_of_lookup_2 in Hk.
    destruct (IH k Hk _ _ Hfk Ha)
      as [(a & b' & ks & Hin & ? & ?)|(a & b' & c & Hin & ? & ? & ?)].
    + left. exists a, b', ks. split; [|done]. by eapply (elem_of_iter_child e).
    + right. exists a, b', c. split; [|done]. by eapply (elem_of_iter_child e).
  - right. exists e, b, k'. split; [apply elem_of_iter_self|done].
Qed.
End ForEachNodes.

Section InsertFacts.
Variable sel : element -> bool.
Variable new : element.

Lemma first_list_Some {A} (f : A -> option A) l l' :
  first_list f l = Some l' ->
  exists i k k', l !! i = Some k /\ f k = Some k' /\ l' = <[i := k']> l /\
                 forall j kj, j < i -> l !! j = Some kj -> f kj = None.
Proof.
  revert l'. induction l as [|k l IH]; intros l'; simpl; [done|].
  destruct (f k) as [k'|] eqn:Hk.
  - intros [= <-]. exists 0, k, k'. split_and!; [done..|]. intros; lia.
  - destruct (first_list f l) as [l0|]; [|done]. intros [= <-].
    destruct (IH l0 eq_refl) as (i & k0 & k' & Hi & Hf & -> & Hbefore).
    exists (S i), k0, k'. split_and!; [done..|].
    intros [|j] kj Hj Hkj; simpl in Hkj; [by simplify_eq|].
    apply (Hbefore j); [lia|done].
Qed.

(** The insertion adds the new node as the first child of one selected
    node and touches nothing else. *)
Lemma insert_first_Some e e' :
  insert_first sel new e = Some e' ->
  exists p a,
    at_path p e = Some a /\ sel a = true /\ at_path p e' = Some (insert0 a new) /\
    forall a', a' ∈ iter e' ->
      a' ∈ iter new \/ exists a0, a0 ∈ iter e /\ tag a' = tag a0 /\ attrib a' = attrib a0.
Proof.
  revert e'. induction e as [t at_ x kids tl IH] using element_ind. intros e'.
  rewrite Forall_forall in IH.
  set (e := Element t at_ x kids tl) in *.
  change (insert_first sel new e) with
    (if sel e then Some (insert0 e new)
     else (fun kids' => Element t at_ x kids' tl) <$> first_list (insert_first sel new) kids).
  destruct (sel e) eqn:Hsel.
  - intros [= <-]. exists [], e. split_and!; [done..|].
    intros a' [->|(k & Hk & Ha)]%elem_of_iter_inv.
    + right. exists e. split; [apply elem_of_iter_self|done].
    + simpl in Hk. apply elem_of_cons in Hk as [->|Hk]; [by left|].
      right. exists a'. split; [|done]. by eapply (elem_of_iter_child e).
  - destruct (first_list _ kids) as [kids'|] eqn:Hfirst; [|done].
    intros [= <-].
    apply first_list_Some in Hfirst as (i & k & k' & Hi & Hk & -> & _).
    assert (k ∈ kids) as Hkin by by eapply list_elem_of_lookup_2.
    destruct (IH k Hkin k' Hk) as (p & a & Hp & Ha & Hp' & Hnodes).
    exists (i :: p), a. split_and!; [|done| |].
    + simpl. by rewrite Hi.
    + simpl. rewrite list_lookup_insert_eq; [done|]. by eapply lookup_lt_Some.
    + intros a' [->|(k0 & Hk0 & Ha')]%elem_of_iter_inv.
      * right. exists e. split; [apply elem_of_iter_self|done].
      * simpl in Hk0. apply list_elem_of_lookup in Hk0 as [j Hj].
        destruct (decide (j = i)) as [->|Hne].
        -- rewrite list_lookup_insert_eq in Hj by by eapply lookup_lt_Some.
           injection Hj as <-.
           destruct (Hnodes a' Ha') as [?|(a0 & Hin & ?)]; [by left|].
           right. exists a0. split; [|done]. by eapply (elem_of_iter_child e).
        -- rewrite list_lookup_insert_ne in Hj by done.
           right. exists a'. split; [|done].
           eapply (elem_of_iter_child e); [|done]. by eapply list_elem_of_lookup_2.
Qed.
End InsertFacts.

(** ** Unit-less apparatuses *)

Lemma unitless_app_shallow a a' :
  tag a' = tag a -> attrib a' = attrib a -> unitless_app a' = unitless_app a.
Proof. unfold unitless_app, is_app, has_tag, get. by intros -> ->. Qed.

Lemma unitless_app_bare t a x kids tl :
  t ≠ tei "app" -> unitless_app (Element t a x kids tl) = false.
Proof.
  intros Ht. unfold unitless_app, is_app, has_tag. simpl.
  by rewrite bool_decide_eq_false_2.
Qed.

Lemma strip_unitless_apps_clean xml x1 :
  strip_unitless_apps xml = (x1, Ret tt) -> no_unitless x1.
Proof.
  unfold strip_unitless_apps, remove_each.
  destruct (unitless_app xml) eqn:Hroot; [done|]. intros [= <-] a' Ha.
  apply iter_prune in Ha as [->|(a & _ & Hsel & ->)].
  - rewrite <- Hroot. apply unitless_app_shallow; by rewrite prune_unfold.
  - rewrite <- Hsel. apply unitless_app_shallow; by rewrite prune_unfold.
Qed.

Lemma strip_wit_subelements_keeps xml x2 :
  strip_wit_subelements xml = (x2, Ret tt) -> no_unitless xml -> no_unitless x2.
Proof.
  unfold strip_wit_subelements, remove_each.
  destruct (is_wit xml); [done|]. intros [= <-] Hall a' Ha.
  apply iter_prune in Ha as [->|(a & Hin & _ & ->)].
  - rewrite <- (Hall xml (elem_of_iter_self _)).
    apply unitless_app_shallow; by rewrite prune_unfold.
  - rewrite <- (Hall a Hin). apply unitless_app_shallow; by rewrite prune_unfold.
Qed.

(** A loop whose body keeps the tag and the attributes of the node and
    appends only subtrees without unit-less apparatus adds none to the tree. *)
Lemma for_each_keeps sel body xml xml' :
  (forall a b, body a = (b, Ret tt) ->
     tag b = tag a /\ attrib b = attrib a /\
     forall c, c ∈ drop (List.length (children a)) (children b) -> no_unitless c) ->
  for_each sel body xml = (xml', Ret tt) ->
  no_unitless xml -> no_unitless xml'.
Proof.
  intros Hbody Hrun Hall a' Ha.
  assert (forall a b, turn sel body a = (b, Ret tt) ->
            tag b = tag a /\ attrib b = attrib a /\
            forall c, c ∈ drop (List.length (children a)) (children b) -> no_unitless c)
    as Hturn.
  { intros a b. unfold turn. destruct (sel a); [apply Hbody|].
    intros [= <-]. split_and!; [done..|]. intros c. rewrite drop_all.
    by intros ?%elem_of_nil. }
  destruct (iter_for_each _ _ _ _ _ Hrun Ha)
    as [(a & b & ks & Hin & Hb & ->)|(a & b & c & Hin & Hb & Hc & Hac)].
  - destruct (Hturn a b Hb) as (Htag & Hattr & _).
    rewrite <- (Hall a Hin). by apply unitless_app_shallow.
  - destruct (Hturn a b Hb) as (_ & _ & Hnew). by apply (Hnew c).
Qed.

Lemma unescape_same_children a b r : unescape a = (b, r) -> children b = children a.
Proof.
  unfold unescape. destruct (text a) as [s|]; [destruct (Str.contains _ _)|];
    by intros [= <- _].
Qed.

Lemma unescape_underdots_eq xml :
  unescape_underdots xml = for_each lem_or_rdg unescape xml.
Proof.
  apply loop_for_each. intros a b ->%unescape_same_children.
  exists []. by rewrite app_nil_r.
Qed.

Lemma strip_om_text_eq xml :
  strip_om_text xml = for_each om_reading (fun rdg => (set_text rdg None, Ret tt)) xml.
Proof.
  apply loop_for_each. intros a b [= <-]. exists []. by rewrite app_nil_r.
Qed.

Lemma unescape_underdots_keeps xml x3 :
  unescape_underdots xml = (x3, Ret tt) -> no_unitless xml -> no_unitless x3.
Proof.
  rewrite unescape_underdots_eq.
  apply for_each_keeps. intros a b Hb. rewrite (unescape_same_children _ _ _ Hb).
  unfold unescape in Hb.
  destruct (text a) as [s|]; [destruct (Str.contains _ _)|];
    injection Hb as <-; (split_and!; [done..|]); intros c;
    rewrite drop_all; by intros ?%elem_of_nil.
Qed.

Lemma strip_om_text_keeps xml x4 :
  strip_om_text xml = (x4, Ret tt) -> no_unitless xml -> no_unitless x4.
Proof.
  rewrite strip_om_text_eq.
  apply for_each_keeps. intros a b [= <-]. split_and!; [done..|].
  intros c. simpl. rewrite drop_all. by intros ?%elem_of_nil.
Qed.

Lemma sub_segs_for_apps_keeps xml x5 :
  sub_segs_for_apps xml = (x5, Ret tt) -> no_unitless xml -> no_unitless x5.
Proof.
  intros [_ ->]%sub_segs_for_apps_ret Hall a' Ha.
  apply iter_substitute in Ha as [(a & Hin & ->)|(a & new & Hin & Hrep & Hnew)].
  - rewrite <- (Hall a Hin). apply unitless_app_shallow; by rewrite substitute_unfold.
  - unfold replacement in Hrep. destruct (is_app a); [|done].
    apply seg_for_Some in Hrep as (rdg & _ & ->).
    by apply list_elem_of_singleton in Hnew as ->.
Qed.

Lemma add_app_notes_keeps xml x6 :
  add_app_notes xml = (x6, Ret tt) -> no_unitless xml -> no_unitless x6.
Proof.
  rewrite add_app_notes_eq. apply for_each_keeps.
  intros a b (label & Hlabel & ->)%add_app_note_ret. split_and!; [done..|].
  intros c. simpl. rewrite drop_app_length. intros ->%list_elem_of_singleton d Hd.
  assert (is_app d = false) as Hnot.
  { eapply note_for_no_app; [|exact Hd]. intros l ->.
    by eapply label_for_Some. }
  unfold unitless_app. by rewrite Hnot.
Qed.

(** The renumbering leaves every apparatus without [from] and [to]. *)
Lemma update_app_n_strips xml x7 a :
  update_app_n xml = (x7, Ret tt) ->
  a ∈ iter x7 -> is_app a = true -> unitless_app a = true.
Proof.
  intros Hrun Ha Happ. rewrite update_app_n_eq in Hrun.
  destruct (iter_for_each _ _ _ _ _ Hrun Ha)
    as [(a0 & b & ks & Hin & Hb & ->)|(a0 & b & c & Hin & Hb & Hc & Hac)].
  - unfold turn in Hb. destruct (is_app a0) eqn:Happ0.
    + apply update_n_ret in Hb as (n & f & t & _ & _ & _ & ->).
      unfold unitless_app, get. rewrite Happ. simpl.
      rewrite lookup_delete_ne, !lookup_delete_eq by done. done.
    + injection Hb as <-. unfold is_app, has_tag in *. simpl in Happ. congruence.
  - unfold turn in Hb. destruct (is_app a0).
    + apply update_n_ret in Hb as (n & f & t & _ & _ & _ & ->).
      simpl in Hc. rewrite drop_all in Hc. by apply elem_of_nil in Hc.
    + injection Hb as <-. rewrite drop_all in Hc. by apply elem_of_nil in Hc.
Qed.

Lemma teiHeader_for_no_app wits a : a ∈ iter (teiHeader_for wits) -> is_app a = false.
Proof.
  unfold teiHeader_for.
  intros [->|(k1 & Hk1 & Ha)]%elem_of_iter_inv; [done|].
  simpl in Hk1. apply list_elem_of_singleton in Hk1 as ->.
  apply elem_of_iter_inv in Ha as [->|(k2 & Hk2 & Ha)]; [done|].
  simpl in Hk2. apply list_elem_of_singleton in Hk2 as ->.
  apply elem_of_iter_inv in Ha as [->|(k3 & Hk3 & Ha)]; [done|].
  simpl in Hk3. apply list_elem_of_In, in_map_iff in Hk3 as (w & <- & _).
  by apply list_elem_of_singleton in Ha as ->.
Qed.

Lemma add_tei_header_ret xml out :
  add_tei_header xml = (out, Ret tt) <->
  exists wits, get_wits xml = Ret wits /\
               insert_first is_TEI (teiHeader_for wits) xml = Some out.
Proof.
  unfold add_tei_header. destruct (get_wits xml) as [wits|x].
  - destruct (insert_first _ _ xml) as [out'|] eqn:Hins.
    + split; [intros [= <-]; by exists wits|]. intros (? & [= <-] & ?). congruence.
    + split; [done|]. intros (? & [= <-] & ?). congruence.
  - split; [done|]. by intros (? & ? & _).
Qed.

(** C9, amended. When the pruning pass has run, no apparatus of the tree
    lacks both [from] and [to], and that is still so after each of the five
    passes that follow, up to the start of the renumbering. The renumbering
    then removes [from] and [to] from every apparatus: in the tree that
    [main] returns, every apparatus lacks both. *)
Theorem unitless_apps_gone_until_renumbering xml :
  (forall x1, strip_unitless_apps xml = (x1, Ret tt) -> no_unitless x1) /\
  (forall x6,
     (strip_unitless_apps ;; strip_wit_subelements ;; unescape_underdots ;;
      strip_om_text ;; sub_segs_for_apps ;; add_app_notes)%pass xml = (x6, Ret tt) ->
     no_unitless x6) /\
  (forall out,
     main xml = (out, Ret tt) ->
     forall a, a ∈ iter out -> is_app a = true -> unitless_app a = true).
Proof.
  split_and!.
  - apply strip_unitless_apps_clean.
  - intros x6 (x1 & H1 & (x2 & H2 & (x3 & H3 & (x4 & H4 & (x5 & H5 & H6)
        %and_then_ret)%and_then_ret)%and_then_ret)%and_then_ret)%and_then_ret.
    eapply add_app_notes_keeps, sub_segs_for_apps_keeps, strip_om_text_keeps,
      unescape_underdots_keeps, strip_wit_subelements_keeps,
      strip_unitless_apps_clean; eauto.
  - unfold main.
    intros out (x1 & H1 & (x2 & H2 & (x3 & H3 & (x4 & H4 & (x5 & H5 & (x6 & H6 &
        (x7 & H7 & H8)%and_then_ret)%and_then_ret)%and_then_ret)%and_then_ret)
        %and_then_ret)%and_then_ret)%and_then_ret a Ha Happ.
    apply add_tei_header_ret in H8 as (wits & _ & Hins).
    apply insert_first_Some in Hins as (p & T & _ & _ & _ & Hnodes).
    destruct (Hnodes a Ha) as [Hnew|(a0 & Hin & Htag & Hattr)].
    + apply teiHeader_for_no_app in Hnew. congruence.
    + rewrite (unitless_app_shallow a0 a Htag Hattr).
      eapply update_app_n_strips; [done..|].
      unfold is_app, has_tag in *. by rewrite <- Htag.
Qed.

(** ** Apparatuses with only one of [from] and [to] *)

Lemma one_of_from_to_kept app : one_of_from_to app -> unitless_app app = false.
Proof.
  unfold unitless_app. intros [[[f Hf] Ht]|[Hf [t Ht]]].
  - rewrite Hf. rewrite (bool_decide_eq_false_2 (Some f = None)) by done.
    by rewrite andb_false_r.
  - rewrite Ht. rewrite (bool_decide_eq_false_2 (Some t = None)) by done.
    by rewrite andb_false_r.
Qed.

(** A node that is neither selected nor below a selected node is still in
    the tree after the pruning. *)
Lemma prune_keeps sel p : forall e a,
  at_path p e = Some a ->
  clear_path sel p e = true ->
  prune sel a ∈ iter (prune sel e).
Proof.
  induction p as [|i p IH]; intros e a Ha Hclear; simpl in *.
  - simplify_eq. apply elem_of_iter_self.
  - destruct (children e !! i) as [k|] eqn:Hk; [|done].
    apply andb_true_iff in Hclear as [Hsel Hclear]. apply negb_true_iff in Hsel.
    eapply elem_of_iter_child; [|by apply IH].
    rewrite (prune_unfold sel e). simpl. apply list_elem_of_omap. exists k.
    split; [by eapply list_elem_of_lookup_2|]. by rewrite Hsel.
Qed.

Lemma walk_list_raise_inv {A} (f : A -> A * res unit) l l' x :
  walk_list f l = (l', Raise x) -> exists k k', k ∈ l /\ f k = (k', Raise x).
Proof.
  revert l'. induction l as [|k l IH]; intros l'; simpl; [done|].
  destruct (f k) as [k' [[]|y]] eqn:Hk.
  - destruct (walk_list f l) as [l'' r]. intros [= <- ->].
    destruct (IH _ eq_refl) as (k0 & k0' & ? & ?). exists k0, k0'. split; [by right|done].
  - intros [= <- <-]. exists k, k'. split; [by left|done].
Qed.

(** The exception of a loop is the exception of the turn of some node. *)
Lemma for_each_raise_inv sel body e e' x :
  for_each sel body e = (e', Raise x) ->
  exists a b, a ∈ iter e /\ turn sel body a = (b, Raise x).
Proof.
  revert e'. induction e as [t at_ y kids tl IH] using element_ind. intros e'.
  rewrite Forall_forall in IH. rewrite for_each_unfold.
  set (e := Element t at_ y kids tl) in *.
  destruct (turn sel body e) as [b [[]|z]] eqn:Hb.
  - change (children e) with kids.
    destruct (walk_list _ kids) as [kids' r] eqn:Hkids. intros [= <- ->].
    apply walk_list_raise_inv in Hkids as (k & k' & Hk & Hfk).
    destruct (IH k Hk _ Hfk) as (a & b' & Hin & Hturn).
    exists a, b'. split; [|done]. by eapply (elem_of_iter_child e).
  - intros [= <- <-]. exists e, b. split; [apply elem_of_iter_self|done].
Qed.

Lemma update_app_n_raises xml app :
  app ∈ iter xml -> is_app app = true ->
  get app "n" = None \/ get app "from" = None \/ get app "to" = None ->
  exists xml', update_app_n xml = (xml', Raise TypeError).
Proof.
  intros Hin Happ Hmiss. rewrite update_app_n_eq.
  destruct (for_each is_app update_n xml) as [xml' r] eqn:Hrun. exists xml'.
  assert (raised (for_each is_app update_n xml).2 = true) as Hr.
  { apply for_each_raised. exists app. split; [done|].
    unfold turn. rewrite Happ.
    destruct (update_n app) as [b [[]|x]] eqn:Hb; [|done].
    apply update_n_ret in Hb as (n & f & t & ? & ? & ? & _).
    destruct Hmiss as [?|[?|?]]; congruence. }
  rewrite Hrun in Hr. destruct r as [[]|x]; [done|].
  apply for_each_raise_inv in Hrun as (a & b & _ & Hturn).
  unfold turn in Hturn. destruct (is_app a); [|done].
  by apply update_n_raise in Hturn as (_ & _ & ->).
Qed.

Lemma clear_path_replacement p : forall e,
  clear_path single_rdg_app p e = true ->
  clear_path (fun k => bool_decide (is_Some (replacement is_app seg_for k))) p e = true.
Proof.
  induction p as [|j p IH]; intros e; simpl; [done|].
  destruct (children e !! j) as [k|]; [|done].
  intros [Hk Hrest]%andb_true_iff. apply andb_true_iff. split; [|by apply IH].
  apply negb_true_iff in Hk. apply negb_true_iff, bool_decide_eq_false.
  rewrite replacement_seg_Some. by rewrite Hk.
Qed.

(** C10, amended. The pruning pass selects an apparatus only when both
    [from] and [to] are absent: an apparatus with exactly one of them that
    does not lie inside a unit-less apparatus is still in the tree after the
    pass, with the same attributes. The renumbering pass raises a
    [TypeError] on every tree that holds an apparatus with exactly one of
    the two. So [main] runs to its end only if every apparatus that is still
    in the tree when the renumbering starts carries both. An apparatus with
    one reading is never among these, whatever its [from] and [to]: as the
    root of the tree it makes the collapse pass raise [AttributeError]; and
    when the collapse pass returns, no apparatus with one reading is left,
    and one that lay inside no other has a [seg], which is no apparatus, in
    its place. *)
Theorem one_of_from_to_stops_renumbering xml :
  (forall x1 p app,
     strip_unitless_apps xml = (x1, Ret tt) ->
     at_path p xml = Some app ->
     clear_path unitless_app p xml = true ->
     one_of_from_to app ->
     exists app',
       app' ∈ iter x1 /\ tag app' = tag app /\ attrib app' = attrib app /\
       one_of_from_to app') /\
  (forall app,
     app ∈ iter xml -> is_app app = true -> one_of_from_to app ->
     exists xml', update_app_n xml = (xml', Raise TypeError)) /\
  (forall out,
     main xml = (out, Ret tt) ->
     exists x6,
       (strip_unitless_apps ;; strip_wit_subelements ;; unescape_underdots ;;
        strip_om_text ;; sub_segs_for_apps ;; add_app_notes)%pass xml = (x6, Ret tt) /\
       forall app, app ∈ iter x6 -> is_app app = true ->
         is_Some (get app "from") /\ is_Some (get app "to")) /\
  (forall x4,
     single_rdg_app x4 = true ->
     sub_segs_for_apps x4 = (x4, Raise AttributeError)) /\
  (forall x4 x5,
     sub_segs_for_apps x4 = (x5, Ret tt) ->
     (forall a, a ∈ iter x5 -> is_app a = true ->
        List.length (xpath_children is_rdg a) <> 1) /\
     (forall p parent i app,
        at_path p x4 = Some parent ->
        clear_path single_rdg_app p x4 = true ->
        children parent !! i = Some app ->
        single_rdg_app app = true ->
        exists parent' seg,
          at_path p x5 = Some parent' /\
          children parent' !! i = Some seg /\
          tag seg = "seg" /\ is_app seg = false)).
Proof.
  split_and!.
  - intros x1 p app Hrun Hp Hclear Hone.
    unfold strip_unitless_apps, remove_each in Hrun.
    destruct (unitless_app xml); [done|]. injection Hrun as <-.
    exists (prune unitless_app app). split_and!.
    + by apply (prune_keeps _ p).
    + by rewrite prune_unfold.
    + by rewrite prune_unfold.
    + unfold one_of_from_to, get in *. by rewrite prune_unfold.
  - intros app Hin Happ Hone. apply (update_app_n_raises xml app); [done..|].
    destruct Hone as [[_ ?]|[? _]]; auto.
  - unfold main.
    intros out (x1 & H1 & (x2 & H2 & (x3 & H3 & (x4 & H4 & (x5 & H5 & (x6 & H6 &
        (x7 & H7 & H8)%and_then_ret)%and_then_ret)%and_then_ret)%and_then_ret)
        %and_then_ret)%and_then_ret)%and_then_ret.
    exists x6. split.
    + repeat (apply (proj2 (and_then_ret _ _ _ _)); eexists; split; [eassumption|]).
      done.
    + intros app Hin Happ.
      destruct (get app "from") as [f|] eqn:Hf, (get app "to") as [t|] eqn:Ht;
        [by split| | |];
        destruct (update_app_n_raises x6 app Hin Happ) as [x7' Hraise]; auto;
        congruence.
  - intros x4 Hroot%replacement_seg_Some. unfold sub_segs_for_apps, replace_each.
    by destruct Hroot as [seg ->].
  - intros x4 x5 [Hroot ->]%sub_segs_for_apps_ret. split.
    + intros a Ha Happ Hone.
      pose proof (substitute_no_single x4 Hroot a Ha) as Hno.
      unfold single_rdg_app in Hno. rewrite Happ in Hno. simpl in Hno.
      by apply bool_decide_eq_false in Hno.
    + intros p parent i app Hp Hclear Hi Hsingle.
      apply replacement_seg_Some in Hsingle as [seg Hseg].
      exists (substitute is_app seg_for parent), seg. split_and!.
      * apply substitute_at_path; [done|]. by apply clear_path_replacement.
      * rewrite substitute_unfold. simpl children.
        rewrite list_lookup_fmap, Hi. simpl. by rewrite Hseg.
      * unfold replacement in Hseg. destruct (is_app app); [|done].
        by apply seg_for_Some in Hseg as (rdg & _ & ->).
      * unfold replacement in Hseg. destruct (is_app app); [|done].
        by apply seg_for_Some in Hseg as (rdg & _ & ->).
Qed.

(** ** The witness list *)

Lemma elem_of_dedup_first l w : w ∈ dedup_first l <-> w ∈ l.
Proof.
  induction l as [|v l IH]; simpl; [done|].
  rewrite !elem_of_cons, list_elem_of_filter, IH.
  destruct (decide (w = v)); naive_solver.
Qed.

Lemma NoDup_dedup_first l : NoDup (dedup_first l).
Proof.
  induction l as [|v l IH]; simpl; [constructor|].
  constructor; [|by apply NoDup_filter].
  rewrite list_elem_of_filter. naive_solver.
Qed.

(** The inner loop, started with a list and the set of its members, appends
    the new identifiers in the order of their first occurrence. *)
Lemma foldl_note_wit toks : forall wits (D : gset string),
  (forall w, w ∈ D <-> w ∈ wits) ->
  exists D',
    foldl note_wit (wits, D) toks =
      ((wits ++ filter (fun w => w ∉ wits) (dedup_first (strip_marker <$> toks)))%list, D') /\
    (forall w, w ∈ D' <->
       w ∈ (wits ++ filter (fun w => w ∉ wits) (dedup_first (strip_marker <$> toks)))%list).
Proof.
  induction toks as [|tok toks IH]; intros wits D HD.
  - exists D. simpl. rewrite app_nil_r. done.
  - rewrite fmap_cons. cbn [foldl dedup_first].
    set (v := strip_marker tok). set (l := dedup_first (strip_marker <$> toks)).
    change (note_wit (wits, D) tok) with
      (if decide (v ∈ D) then (wits, D) else ((wits ++ [v])%list, {[v]} ∪ D)).
    destruct (decide (v ∈ D)) as [Hin|Hout].
    + destruct (IH wits D HD) as (D' & -> & HD'). exists D'. fold l in HD' |- *.
      apply HD in Hin.
      assert (filter (fun w => w ∉ wits) (v :: filter (fun u => u ≠ v) l) =
              filter (fun w => w ∉ wits) l) as ->; [|done].
      rewrite filter_cons_False by (intros Hn; by apply Hn).
      apply list_filter_filter_l. intros x Hx ->. by apply Hx.
    + assert (v ∉ wits) as Hout' by by rewrite <- HD.
      destruct (IH (wits ++ [v])%list ({[v]} ∪ D)) as (D' & -> & HD').
      { intros w. rewrite elem_of_union, elem_of_singleton, elem_of_app,
          list_elem_of_singleton, HD. tauto. }
      exists D'. fold l in HD' |- *.
      assert ((wits ++ [v]) ++ filter (fun w => w ∉ (wits ++ [v])%list) l =
              wits ++ filter (fun w => w ∉ wits) (v :: filter (fun u => u ≠ v) l))%list
        as <-; [|done].
      rewrite filter_cons_True by done. rewrite <- app_assoc. simpl.
      do 2 f_equal. rewrite list_filter_filter. apply list_filter_iff.
      intros x. rewrite elem_of_app, list_elem_of_singleton. tauto.
Qed.

(** The outer loop runs the inner one over the tokens of all readings. *)
Lemma get_wits_loop_ret rdgs ws : forall st,
  Forall2 (fun rdg w => get rdg "wit" = Some w) rdgs ws ->
  get_wits_loop rdgs st = Ret (foldl note_wit st (flat_map Str.split ws)).
Proof.
  intros st H. revert st. induction H as [|rdg w rdgs ws Hw _ IH]; intros st; simpl.
  - done.
  - by rewrite Hw, IH, foldl_app.
Qed.

Lemma get_wits_loop_raise rdgs rdg : forall st,
  rdg ∈ rdgs -> get rdg "wit" = None ->
  get_wits_loop rdgs st = Raise AttributeError.
Proof.
  induction rdgs as [|r rdgs IH]; intros st Hin Hnone; [by apply elem_of_nil in Hin|].
  simpl. destruct (get r "wit") as [w|] eqn:Hw; [|done].
  apply elem_of_cons in Hin as [->|Hin]; [congruence|]. by apply IH.
Qed.

Lemma fmap_flat_map {A B C} (f : B -> C) (g : A -> list B) (l : list A) :
  f <$> flat_map g l = flat_map (fun a => f <$> g a) l.
Proof. induction l as [|a l IH]; simpl; [done|]. by rewrite fmap_app, IH. Qed.

Lemma filter_all {A} (P : A -> Prop) `{!forall x, Decision (P x)} (l : list A) :
  (forall x, P x) -> filter P l = l.
Proof.
  intros HP. induction l as [|x l IH]; [done|].
  by rewrite filter_cons_True, IH.
Qed.

Lemma get_wits_ret xml ws :
  Forall2 (fun rdg w => get rdg "wit" = Some w) (xpath is_rdg xml) ws ->
  get_wits xml = Ret (dedup_first (flat_map wit_ids ws)).
Proof.
  intros H. unfold get_wits. rewrite (get_wits_loop_ret _ ws) by done.
  destruct (foldl_note_wit (flat_map Str.split ws) [] ∅) as (D' & -> & _).
  { intros w. rewrite elem_of_empty. split; [done|]. by intros ?%elem_of_nil. }
  simpl. rewrite fmap_flat_map, filter_all; [done|].
  intros w. by intros ?%elem_of_nil.
Qed.

Lemma xpath_root sel e :
  xpath sel e =
    if sel e then e :: filter (fun a => sel a) (flat_map iter (children e))
    else filter (fun a => sel a) (flat_map iter (children e)).
Proof.
  unfold xpath. rewrite iter_unfold, filter_cons.
  destruct (sel e) eqn:Hsel; case_decide as H; done.
Qed.

Lemma xpath_flat_map_nil sel (l : list element) :
  (forall k, k ∈ l -> xpath sel k = []) ->
  filter (fun a => sel a) (flat_map iter l) = [].
Proof.
  induction l as [|k l IH]; intros Hnone; [done|]. simpl.
  rewrite filter_app.
  change (filter (fun a => sel a) (iter k)) with (xpath sel k).
  rewrite Hnone by by left. simpl. apply IH. intros k0 Hk0. apply Hnone. by right.
Qed.

Section InsertFirst.
Variable sel : element -> bool.
Variable new : element.

Lemma first_list_None {A} (f : A -> option A) l :
  first_list f l = None -> forall k, k ∈ l -> f k = None.
Proof.
  induction l as [|k l IH]; simpl; [by intros _ ? ?%elem_of_nil|].
  destruct (f k) eqn:Hk; [done|].
  destruct (first_list f l); [done|]. intros _ k' [->|?]%elem_of_cons; auto.
Qed.

Lemma insert_first_None e :
  insert_first sel new e = None -> xpath sel e = [].
Proof.
  induction e as [t at_ x kids tl IH] using element_ind.
  rewrite Forall_forall in IH.
  set (e := Element t at_ x kids tl) in *.
  change (insert_first sel new e) with
    (if sel e then Some (insert0 e new)
     else (fun kids' => Element t at_ x kids' tl) <$> first_list (insert_first sel new) kids).
  destruct (sel e) eqn:Hsel; [done|].
  destruct (first_list _ kids) as [?|] eqn:Hfirst; [done|]. intros _.
  pose proof (first_list_None _ _ Hfirst) as Hnone.
  rewrite xpath_root, Hsel.
  change (children e) with kids.
  apply xpath_flat_map_nil. intros k Hk. apply IH; [done|]. by apply Hnone.
Qed.

(** The insertion is made at the first selected node of the document. *)
Lemma insert_first_head e e' :
  insert_first sel new e = Some e' ->
  exists p a,
    at_path p e = Some a /\ head (xpath sel e) = Some a /\
    at_path p e' = Some (insert0 a new).
Proof.
  revert e'. induction e as [t at_ x kids tl IH] using element_ind. intros e'.
  rewrite Forall_forall in IH.
  set (e := Element t at_ x kids tl) in *.
  change (insert_first sel new e) with
    (if sel e then Some (insert0 e new)
     else (fun kids' => Element t at_ x kids' tl) <$> first_list (insert_first sel new) kids).
  destruct (sel e) eqn:Hsel.
  - intros [= <-]. exists [], e. split_and!; [done| |done].
    by rewrite xpath_root, Hsel.
  - destruct (first_list _ kids) as [kids'|] eqn:Hfirst; [|done].
    intros [= <-].
    apply first_list_Some in Hfirst as (i & k & k' & Hi & Hk & -> & Hbefore).
    assert (k ∈ kids) as Hkin by by eapply list_elem_of_lookup_2.
    destruct (IH k Hkin k' Hk) as (p & a & Hp & Hhead & Hp').
    exists (i :: p), a. split_and!.
    + simpl. by rewrite Hi.
    + rewrite xpath_root, Hsel.
      change (children e) with kids.
      rewrite <- (take_drop_middle kids i k Hi), flat_map_app, filter_app.
      rewrite xpath_flat_map_nil.
      2:{ intros kj [j Hj]%list_elem_of_lookup.
          apply lookup_take_Some in Hj as [Hj Hlt].
          apply insert_first_None. by eapply Hbefore. }
      simpl. rewrite filter_app.
      change (filter (fun a0 => sel a0) (iter k)) with (xpath sel k).
      destruct (xpath sel k) as [|a0 l]; [done|]. simpl in *. done.
    + simpl. rewrite list_lookup_insert_eq; [done|]. by eapply lookup_lt_Some.
Qed.
End InsertFirst.

(** C7. When every reading has a [wit] attribute, [get_wits] returns the
    identifiers obtained by splitting the [wit] values on white space, in
    document order, and stripping one trailing "*" or "V" from each token:
    every such identifier is in the list, nothing else is, none twice, and
    each stands where it first occurred. When the tree has a [TEI] element
    as well, [add_tei_header] returns, and the first [TEI] element of the
    tree, otherwise as it was, has a new first child before its old
    children: the header, which holds, under [sourceDesc] and [listWit], one
    [witness] for each identifier of that list, in its order. The tokens
    "A B1* C2V" give "A", "B1", "C2". *)
Theorem header_lists_witnesses xml ws :
  Forall2 (fun rdg w => get rdg "wit" = Some w) (xpath is_rdg xml) ws ->
  let wits := dedup_first (flat_map wit_ids ws) in
  get_wits xml = Ret wits /\
  NoDup wits /\
  (forall id, id ∈ wits <->
     exists w tok, w ∈ ws /\ tok ∈ Str.split w /\ id = strip_marker tok) /\
  (xpath is_TEI xml <> [] ->
   exists out p TEI,
     add_tei_header xml = (out, Ret tt) /\
     at_path p xml = Some TEI /\
     head (xpath is_TEI xml) = Some TEI /\
     at_path p out =
       Some (Element (tag TEI) (attrib TEI) (text TEI)
               (Element "teiHeader" ∅ None
                  [Element "sourceDesc" ∅ None
                     [Element "listWit" ∅ None
                        (map (fun id => Element "witness" {["n" := id]} None [] None) wits)
                        None]
                     None]
                  None :: children TEI)
               (tail TEI))) /\
  (ws = ["A B1* C2V"] -> wits = ["A"; "B1"; "C2"]).
Proof.
  intros Hws wits. pose proof (get_wits_ret xml ws Hws) as Hget.
  fold wits in Hget. split_and!.
  - done.
  - apply NoDup_dedup_first.
  - intros id. unfold wits. rewrite elem_of_dedup_first.
    rewrite list_elem_of_In, in_flat_map. unfold wit_ids. split.
    + intros (w & Hw%list_elem_of_In & Hid%list_elem_of_In).
      apply list_elem_of_fmap in Hid as (tok & -> & Htok). by exists w, tok.
    + intros (w & tok & Hw & Htok & ->). exists w.
      split; [by apply list_elem_of_In|].
      apply list_elem_of_In, list_elem_of_fmap. by exists tok.
  - intros HTEI.
    destruct (insert_first is_TEI (teiHeader_for wits) xml) as [out|] eqn:Hins;
      [|by apply insert_first_None in Hins].
    exists out.
    assert (add_tei_header xml = (out, Ret tt)) as Hrun.
    { apply add_tei_header_ret. by exists wits. }
    apply insert_first_head in Hins as (p & TEI & Hp & Hhead & Hp').
    by exists p, TEI.
  - intros ->. by vm_compute.
Qed.

(** C2, amended. A reading without [wit] attribute makes the witness
    derivation fail: [get_wits] raises [AttributeError] on any tree that
    holds one. It ends normally when every reading carries the attribute,
    and then a reading whose [wit] value holds no token contributes
    nothing. *)
Theorem get_wits_needs_wit xml :
  (forall rdg, rdg ∈ xpath is_rdg xml -> get rdg "wit" = None ->
     get_wits xml = Raise AttributeError) /\
  ((forall rdg, rdg ∈ xpath is_rdg xml -> is_Some (get rdg "wit")) ->
     exists wits, get_wits xml = Ret wits) /\
  (forall rdg rdgs w st,
     get rdg "wit" = Some w -> Str.split w = [] ->
     get_wits_loop (rdg :: rdgs) st = get_wits_loop rdgs st).
Proof.
  split_and!.
  - intros rdg Hin Hnone. unfold get_wits.
    by rewrite (get_wits_loop_raise _ rdg).
  - intros Hall.
    assert (exists ws, Forall2 (fun rdg w => get rdg "wit" = Some w) (xpath is_rdg xml) ws)
      as [ws Hws].
    { induction (xpath is_rdg xml) as [|rdg rdgs IH]; [by exists []|].
      destruct (Hall rdg) as [w Hw]; [by left|].
      destruct IH as [ws Hws]; [intros; apply Hall; by right|].
      exists (w :: ws). by constructor. }
    eexists. by apply get_wits_ret.
  - intros rdg rdgs w st Hw Hsplit. simpl. by rewrite Hw, Hsplit.
Qed.

(** ** The claims on the example documents *)

(** On the document of the example the label reads "Matt 02:03/4". *)
Lemma matt_2_3_label_counterexample :
  exists out app note label,
    main matt_doc = (out, Ret tt) /\
    at_path [1; 0; 0; 0] out = Some app /\
    last (children app) = Some note /\
    children note !! 0 = Some label /\
    tag label = "label" /\
    text label = Some "Matt 02:03/4" /\
    text label <> Some "Matt 2:3/4".
Proof.
  do 4 eexists. split_and!; [vm_compute; reflexivity..|done].
Qed.

Lemma matt_2_3_example_witness :
  exists app' kids,
    at_path [0; 0; 0; 0] (update_app_n (add_app_notes matt_doc).1).1 = Some app' /\
    is_app app' = true /\
    get app' "n" = Some "B01K02V03U4" /\
    List.length kids = List.length (children matt_app) /\
    children app' =
      (kids ++
       [Element "note" ∅ None
          [Element "label" ∅ (Some "Matt 02:03/4") [] None;
           connectivity_fs;
           Element "graph" {["type" := "directed"]} None
             [Element "node" {["n" := "1"]} None [] None;
              Element "node" {["n" := "2"]} None [] None] None]
          None])%list.
Proof.
  destruct (matt_2_3_example matt_app
              (rdg_elem "1" "A B1*" "x") (rdg_elem "2" "C2V A" "y"))
    as (_ & _ & Hpasses); [vm_compute; reflexivity..|].
  apply (Hpasses matt_doc (add_app_notes matt_doc).1
           (update_app_n (add_app_notes matt_doc).1).1 [0; 0; 0; 0]);
    vm_compute; reflexivity.
Defined.

(** The reading without [wit] stops the derivation; the witness of the
    other reading is not returned. *)
Lemma get_wits_no_wit_counterexample :
  xpath is_rdg no_wit_doc =
    [Element (tei "rdg") {["n" := "1"]} (Some "x") [] None; rdg_elem "2" "A" "y"] /\
  get_wits no_wit_doc = Raise AttributeError /\
  get_wits no_wit_doc <> Ret ["A"].
Proof. split_and!; [vm_compute; reflexivity..|done]. Qed.

Lemma get_wits_needs_wit_witness : get_wits no_wit_doc = Raise AttributeError.
Proof.
  apply (proj1 (get_wits_needs_wit no_wit_doc)
           (Element (tei "rdg") {["n" := "1"]} (Some "x") [] None)).
  - assert (xpath is_rdg no_wit_doc =
              [Element (tei "rdg") {["n" := "1"]} (Some "x") [] None;
               rdg_elem "2" "A" "y"]) as -> by (vm_compute; reflexivity).
    left.
  - vm_compute; reflexivity.
Defined.

(** The pass raises, and the apparatus is left with an empty note after
    its two readings. *)
Lemma unknown_book_counterexample :
  exists left_ app',
    add_app_notes (tei_doc unknown_book_app) = (left_, Raise (KeyError "B28")) /\
    at_path [0; 0; 0; 0] (tei_doc unknown_book_app) = Some unknown_book_app /\
    at_path [0; 0; 0; 0] left_ = Some app' /\
    children unknown_book_app = [rdg_elem "1" "A" "x"; rdg_elem "2" "B" "y"] /\
    children app' =
      [rdg_elem "1" "A" "x"; rdg_elem "2" "B" "y"; Element "note" ∅ None [] None].
Proof. do 2 eexists. split_and!; vm_compute; reflexivity. Qed.

Lemma add_app_notes_unknown_book_witness :
  add_app_note unknown_book_app =
    (append unknown_book_app (Element "note" ∅ None [] None), Raise (KeyError "B28")) /\
  raised (add_app_notes (tei_doc unknown_book_app)).2 = true.
Proof.
  destruct (add_app_notes_unknown_book unknown_book_app "B28K1V1" "B28" "K1" "V1")
    as [Hbody Hpass]; [vm_compute; reflexivity..|].
  split; [exact Hbody|].
  apply (Hpass (tei_doc unknown_book_app)).
  apply (at_path_iter [0; 0; 0; 0]). vm_compute; reflexivity.
Defined.

(** The apparatus without readings gets a note. *)
Lemma no_rdg_app_counterexample :
  exists x6 app',
    sub_segs_for_apps (tei_doc no_rdg_app) = (tei_doc no_rdg_app, Ret tt) /\
    add_app_notes (tei_doc no_rdg_app) = (x6, Ret tt) /\
    at_path [0; 0; 0; 0] (tei_doc no_rdg_app) = Some no_rdg_app /\
    xpath_children is_rdg no_rdg_app = [] /\
    children no_rdg_app = [] /\
    at_path [0; 0; 0; 0] x6 = Some app' /\
    children app' =
      [Element "note" ∅ None
         [Element "label" ∅ (Some "Matt 1:1/2") [] None; connectivity_fs;
          Element "graph" {["type" := "directed"]} None [] None] None].
Proof. do 2 eexists. split_and!; vm_compute; reflexivity. Qed.

Lemma add_app_notes_annotates_witness :
  List.length (xpath_children is_rdg no_rdg_app) ≠ 1 /\
  exists app' kids label,
    at_path [0; 0; 0; 0] (add_app_notes (tei_doc no_rdg_app)).1 = Some app' /\
    same_node no_rdg_app app' /\
    children app' = (kids ++ [note_for label (rdg_ids no_rdg_app)])%list /\
    Forall2 same_node (children no_rdg_app) kids.
Proof.
  apply (add_app_notes_annotates (tei_doc no_rdg_app) (tei_doc no_rdg_app)
           (add_app_notes (tei_doc no_rdg_app)).1 [0; 0; 0; 0] no_rdg_app);
    vm_compute; reflexivity.
Defined.

(** The apparatus without [n] stops the pass. *)
Lemma no_n_app_counterexample :
  exists left_,
    get no_n_app "n" = None /\
    at_path [0; 0; 0; 0] (tei_doc no_n_app) = Some no_n_app /\
    add_app_notes (tei_doc no_n_app) = (left_, Raise TypeError).
Proof. eexists. split_and!; vm_compute; reflexivity. Qed.

Lemma add_app_notes_unmatched_n_witness :
  add_app_note odd_n_app =
    (append odd_n_app
       (Element "note" ∅ None [connectivity_fs; stemma (rdg_ids odd_n_app)] None),
     Ret tt).
Proof.
  apply (add_app_notes_unmatched_n odd_n_app "incipit"); vm_compute; reflexivity.
Defined.

Lemma update_app_n_renumbers_witness :
  exists n app',
    get (Element (tei "app") {["n" := "B01K1V1"; "from" := "4"; "to" := "6"]} None
           [rdg_elem "1" "A" "x"; rdg_elem "2" "B" "y"] None) "n" = Some n /\
    at_path [0; 2] (update_app_n single_rdg_doc).1 = Some app' /\
    is_app app' = true /\
    get app' "from" = None /\
    get app' "to" = None /\
    get app' "n" = Some "B01K1V1U4-6".
Proof.
  destruct (proj2 (proj2 (update_app_n_renumbers single_rdg_doc))
              (update_app_n single_rdg_doc).1 [0; 2]
              (Element (tei "app") {["n" := "B01K1V1"; "from" := "4"; "to" := "6"]} None
                 [rdg_elem "1" "A" "x"; rdg_elem "2" "B" "y"] None) "4" "6")
    as (n & app' & Hn & Hp & Happ & Hf & Ht & Hn' & _);
    [vm_compute; reflexivity..|].
  exists n, app'. split_and!; try assumption.
  rewrite Hn'. f_equal.
  assert (n = "B01K1V1") as -> by (vm_compute in Hn; congruence).
  reflexivity.
Defined.

Lemma header_lists_witnesses_witness :
  get_wits matt_doc = Ret ["A"; "B1"; "C2"] /\
  exists out p TEI,
    add_tei_header matt_doc = (out, Ret tt) /\
    at_path p matt_doc = Some TEI /\
    head (xpath is_TEI matt_doc) = Some TEI /\
    at_path p out =
      Some (Element (tag TEI) (attrib TEI) (text TEI)
              (Element "teiHeader" ∅ None
                 [Element "sourceDesc" ∅ None
                    [Element "listWit" ∅ None
                       [Element "witness" {["n" := "A"]} None [] None;
                        Element "witness" {["n" := "B1"]} None [] None;
                        Element "witness" {["n" := "C2"]} None [] None]
                       None]
                    None]
                 None :: children TEI)
              (tail TEI)).
Proof.
  destruct (header_lists_witnesses matt_doc ["A B1*"; "C2V A"])
    as (Hget & _ & _ & Hheader & _).
  - assert (xpath is_rdg matt_doc =
              [rdg_elem "1" "A B1*" "x"; rdg_elem "2" "C2V A" "y"]) as ->
      by (vm_compute; reflexivity).
    repeat constructor.
  - split; [exact Hget|]. apply Hheader. vm_compute. discriminate.
Defined.



(** In the output for the document of the example the one apparatus has
    neither [from] nor [to]. *)
Lemma unitless_app_in_output_counterexample :
  exists out a,
    main matt_doc = (out, Ret tt) /\
    at_path [1; 0; 0; 0] out = Some a /\
    is_app a = true /\
    get a "from" = None /\ get a "to" = None /\
    unitless_app a = true.
Proof. do 2 eexists. split_and!; vm_compute; reflexivity. Qed.

Lemma unitless_apps_gone_until_renumbering_witness :
  no_unitless (strip_unitless_apps nested_doc).1.
Proof.
  apply (proj1 (unitless_apps_gone_until_renumbering nested_doc)).
  vm_compute; reflexivity.
Defined.

(** An apparatus with [from] alone and one reading is kept by the pruning
    and collapsed before the renumbering, which then has nothing to stop on;
    one inside a unit-less apparatus leaves the tree with it. In both cases
    [main] runs to its end. *)
Lemma from_only_counterexample :
  (one_of_from_to from_only_app /\
   at_path [0; 0; 0; 0] (tei_doc from_only_app) = Some from_only_app /\
   strip_unitless_apps (tei_doc from_only_app) = (tei_doc from_only_app, Ret tt) /\
   exists out, main (tei_doc from_only_app) = (out, Ret tt)) /\
  (one_of_from_to from_only_two_app /\
   at_path [0; 0; 0; 0; 0; 0] nested_doc = Some from_only_two_app /\
   exists x1 out,
     strip_unitless_apps nested_doc = (x1, Ret tt) /\
     xpath is_app x1 = [] /\
     update_app_n x1 = (x1, Ret tt) /\
     main nested_doc = (out, Ret tt)).
Proof.
  split; split_and!.
  - left. split; [by eexists|vm_compute; reflexivity].
  - vm_compute; reflexivity.
  - vm_compute; reflexivity.
  - eexists. vm_compute; reflexivity.
  - left. split; [by eexists|vm_compute; reflexivity].
  - vm_compute; reflexivity.
  - do 2 eexists. split_and!; vm_compute; reflexivity.
Qed.

Lemma one_of_from_to_stops_renumbering_witness :
  exists xml', update_app_n (tei_doc from_only_two_app) = (xml', Raise TypeError).
Proof.
  apply (proj1 (proj2 (one_of_from_to_stops_renumbering (tei_doc from_only_two_app)))
           from_only_two_app).
  - apply (at_path_iter [0; 0; 0; 0]). vm_compute; reflexivity.
  - vm_compute; reflexivity.
  - left. split; [exists "2"|]; vm_compute; reflexivity.
Defined.

(** * Further properties of the passes *)

(** ** String replacement *)

Lemma prefix_cons a s b t :
  String.prefix (String a s) (String b t) = bool_decide (a = b) && String.prefix s t.
Proof.
  cbn [String.prefix]. destruct (ascii_dec a b); case_bool_decide; try done.
  all: by destruct s.
Qed.

Lemma append_cons a s t : String a s +:+ t = String a (s +:+ t).
Proof. reflexivity. Qed.

Lemma replace_absent old new s :
  Str.contains old s = false -> Str.replace old new s = s.
Proof.
  unfold Str.replace. induction s as [|c s IH]; [done|].
  cbn [Str.contains Str.replace_from]. intros [Hp Hc]%orb_false_iff.
  rewrite Hp. by rewrite IH.
Qed.

Lemma replace_from_nil old new k : Str.replace_from old new k "" = "".
Proof. by destruct k. Qed.

Lemma prefix_replaced old new n0 n' p : forall s,
  new = String n0 n' -> occurs n0 p = false ->
  String.prefix p (Str.replace_from old new 0 s) = true -> String.prefix p s = true.
Proof.
  induction p as [|a p IH]; intros s -> Ho; [by destruct s|].
  cbn [occurs] in Ho. apply orb_false_iff in Ho as [Ha Ho].
  destruct s as [|c s]; [done|].
  cbn [Str.replace_from]. destruct (String.prefix old (String c s)).
  - rewrite append_cons, prefix_cons, Ha. done.
  - rewrite !prefix_cons. intros [Hac Hp]%andb_true_iff. rewrite Hac.
    by rewrite (IH s eq_refl Ho Hp).
Qed.

Lemma contains_cons old c s :
  Str.contains old (String c s) = String.prefix old (String c s) || Str.contains old s.
Proof. reflexivity. Qed.

Lemma contains_app_fresh o0 old' m : forall X,
  (forall c, occurs c m = true -> c <> o0) ->
  Str.contains (String o0 old') (m +:+ X) = Str.contains (String o0 old') X.
Proof.
  induction m as [|c m IH]; intros X Hm; [done|].
  rewrite append_cons, contains_cons, prefix_cons.
  rewrite bool_decide_eq_false_2.
  2:{ intros <-. apply (Hm o0); [|done]. cbn [occurs]. by rewrite bool_decide_eq_true_2. }
  cbn [andb orb]. apply IH. intros c' Hc'. apply Hm. cbn [occurs]. by rewrite Hc', orb_true_r.
Qed.

Lemma replace_from_clean o0 old' n0 n' :
  occurs n0 (String o0 old') = false ->
  (forall c, occurs c (String n0 n') = true -> c <> o0) ->
  forall s k,
    Str.contains (String o0 old')
      (Str.replace_from (String o0 old') (String n0 n') k s) = false.
Proof.
  intros Hn0 Hnew. induction s as [|c s IH]; intros k.
  - by rewrite replace_from_nil.
  - destruct k as [|k]; cbn [Str.replace_from]; [|apply IH].
    destruct (String.prefix (String o0 old') (String c s)) eqn:Hp.
    + rewrite contains_app_fresh by done. apply IH.
    + rewrite contains_cons, IH, orb_false_r.
      destruct (String.prefix (String o0 old')
                  (String c (Str.replace_from (String o0 old') (String n0 n') 0 s))) eqn:Hq;
        [|done].
      assert (String.prefix (String o0 old') (String c s) = true); [|congruence].
      apply (prefix_replaced (String o0 old') (String n0 n') n0 n' _ _ eq_refl Hn0).
      cbn [Str.replace_from]. by rewrite Hp.
Qed.

Lemma replace_underdot_clean t :
  Str.contains underdot_code (Str.replace underdot_code underdot t) = false.
Proof.
  apply replace_from_clean; [done|].
  intros c. cbn [occurs]. repeat case_bool_decide; subst; done.
Qed.

Lemma retext_unfold f e :
  retext f e = Element (tag e) (attrib e) (f e) (map (retext f) (children e)) (tail e).
Proof. by destruct e. Qed.

Lemma at_path_retext f p : forall e,
  at_path p (retext f e) = retext f <$> at_path p e.
Proof.
  induction p as [|i p IH]; intros e; [done|].
  rewrite retext_unfold. cbn [at_path children].
  change (map (retext f) (children e)) with (retext f <$> children e).
  rewrite list_lookup_fmap. destruct (children e !! i); cbn; [apply IH|done].
Qed.

Lemma iter_retext f e : iter (retext f e) = map (retext f) (iter e).
Proof.
  induction e as [t a x kids tl IH] using element_ind.
  cbn [retext iter map]. f_equal.
  induction IH as [|k l Hk _ IHl]; [done|].
  cbn [map flat_map]. rewrite map_app. by rewrite Hk, IHl.
Qed.

Lemma retext_ext f g e : (forall a, f a = g a) -> retext f e = retext g e.
Proof.
  intros Hfg. induction e as [t a x kids tl IH] using element_ind.
  cbn [retext]. rewrite Hfg. f_equal.
  induction IH as [|k l Hk _ IHl]; [done|]. cbn [map]. by rewrite Hk, IHl.
Qed.

Lemma retext_retext f g e :
  (forall a b, tag a = tag b -> attrib a = attrib b -> text a = text b -> f a = f b) ->
  retext f (retext g e) = retext (fun a => f (set_text a (g a))) e.
Proof.
  intros Hf. induction e as [t a x kids tl IH] using element_ind.
  cbn [retext]. f_equal; [by apply Hf|].
  rewrite map_map. induction IH as [|k l Hk _ IHl]; [done|]. cbn [map]. by rewrite Hk, IHl.
Qed.

Section Retext.
Variable sel : element -> bool.
Variable g : element -> option string.
Variable body : element -> element * res unit.
Hypothesis body_text : forall a, sel a = true -> body a = (set_text a (g a), Ret tt).

Lemma for_each_retext e :
  for_each sel body e = (retext (fun a => if sel a then g a else text a) e, Ret tt).
Proof.
  induction e as [t a x kids tl IH] using element_ind.
  rewrite for_each_unfold. cbn [children].
  assert (walk_list (for_each sel body) kids =
          (map (retext (fun a => if sel a then g a else text a)) kids, Ret tt)) as ->.
  { apply walk_list_ret. induction IH as [|k l Hk _ IHl]; constructor; done. }
  unfold turn. destruct (sel (Element t a x kids tl)) eqn:Hsel.
  - rewrite body_text by done. unfold rebuilt. cbn [set_text children].
    rewrite drop_all, app_nil_r. cbn [retext set_children tag attrib text tail].
    by rewrite Hsel.
  - unfold rebuilt. cbn [children]. rewrite drop_all, app_nil_r.
    cbn [retext set_children tag attrib text tail]. by rewrite Hsel.
Qed.
End Retext.

Lemma unescape_underdots_retext xml :
  unescape_underdots xml = (retext unescaped xml, Ret tt).
Proof.
  rewrite unescape_underdots_eq.
  apply (for_each_retext lem_or_rdg (fun a => Str.replace underdot_code underdot <$> text a)).
  intros [t a x kids tl] _. unfold unescape. cbn [text].
  destruct x as [s|]; [|done].
  destruct (Str.contains underdot_code s) eqn:Hs; [done|].
  cbn. by rewrite replace_absent.
Qed.

Lemma strip_om_text_retext xml :
  strip_om_text xml = (retext without_om xml, Ret tt).
Proof.
  rewrite strip_om_text_eq.
  by apply (for_each_retext om_reading (fun _ => None)).
Qed.

Lemma tag_retext f e : tag (retext f e) = tag e.
Proof. by destruct e. Qed.
Lemma attrib_retext f e : attrib (retext f e) = attrib e.
Proof. by destruct e. Qed.
Lemma text_retext f e : text (retext f e) = f e.
Proof. by destruct e. Qed.
Lemma tail_retext f e : tail (retext f e) = tail e.
Proof. by destruct e. Qed.
Lemma children_retext f e : children (retext f e) = map (retext f) (children e).
Proof. by destruct e. Qed.

Lemma filter_map_comm {A} (P : A -> bool) (h : A -> A) (l : list A) :
  (forall k, P (h k) = P k) ->
  filter (fun k => P k) (map h l) = map h (filter (fun k => P k) l).
Proof.
  intros HP. induction l as [|k l IH]; [done|].
  cbn [map]. rewrite !filter_cons, HP. destruct (P k); cbn; by rewrite IH.
Qed.

Lemma xpath_children_retext f name e :
  xpath_children (has_tag name) (retext f e) =
  map (retext f) (xpath_children (has_tag name) e).
Proof.
  unfold xpath_children. rewrite children_retext.
  apply filter_map_comm. intros k. unfold has_tag. by rewrite tag_retext.
Qed.

Lemma single_rdg_app_retext f e : single_rdg_app (retext f e) = single_rdg_app e.
Proof.
  unfold single_rdg_app, is_app, is_rdg. rewrite xpath_children_retext, List.length_map.
  unfold has_tag. by rewrite tag_retext.
Qed.

Lemma clear_path_retext f p : forall e,
  clear_path single_rdg_app p (retext f e) = clear_path single_rdg_app p e.
Proof.
  induction p as [|i p IH]; intros e; [done|].
  cbn [clear_path]. rewrite children_retext.
  change (map (retext f) (children e)) with (retext f <$> children e).
  rewrite list_lookup_fmap. destruct (children e !! i); cbn; [|done].
  by rewrite single_rdg_app_retext, IH.
Qed.

(** What a text-only pass leaves at each place of the tree. *)
Lemma retext_nodes f xml :
  (forall p, at_path p xml = None -> at_path p (retext f xml) = None) /\
  (forall p a, at_path p xml = Some a ->
     exists a',
       at_path p (retext f xml) = Some a' /\
       tag a' = tag a /\ attrib a' = attrib a /\ tail a' = tail a /\
       List.length (children a') = List.length (children a) /\
       text a' = f a).
Proof.
  split.
  - intros p Hp. by rewrite at_path_retext, Hp.
  - intros p a Hp. exists (retext f a). rewrite at_path_retext, Hp.
    rewrite tag_retext, attrib_retext, tail_retext, text_retext, children_retext.
    by rewrite List.length_map.
Qed.

(** X1. [unescape_underdots] never raises and changes texts only: the tree
    keeps its shape, and every node its tag, attributes, tail and number of
    children. The text of a [lem] or [rdg] becomes that text with every
    "&#803;" replaced by U+0323; every other text, and a text without the
    sequence, stays as it is. When the pass has run, no text of a [lem] or
    [rdg] contains "&#803;". *)
Theorem unescape_underdots_texts xml :
  exists xml',
    unescape_underdots xml = (xml', Ret tt) /\
    (forall p, at_path p xml = None -> at_path p xml' = None) /\
    (forall p a, at_path p xml = Some a ->
       exists a',
         at_path p xml' = Some a' /\
         tag a' = tag a /\ attrib a' = attrib a /\ tail a' = tail a /\
         List.length (children a') = List.length (children a) /\
         text a' = (if lem_or_rdg a
                    then Str.replace underdot_code underdot <$> text a
                    else text a) /\
         (forall t, text a = Some t -> Str.contains underdot_code t = false ->
                    text a' = Some t)) /\
    (forall a' t, a' ∈ iter xml' -> lem_or_rdg a' = true -> text a' = Some t ->
       Str.contains underdot_code t = false).
Proof.
  exists (retext unescaped xml). split; [apply unescape_underdots_retext|].
  destruct (retext_nodes unescaped xml) as [Hnone Hsome].
  split; [done|]. split.
  - intros p a Hp. destruct (Hsome p a Hp) as (a' & ? & ? & ? & ? & ? & Htext).
    exists a'. split_and!; try done.
    intros t Ht Hc. rewrite Htext. unfold unescaped. rewrite Ht.
    destruct (lem_or_rdg a); [|done]. cbn. by rewrite replace_absent.
  - intros a' t. rewrite iter_retext. intros (a & -> & _)%list_elem_of_fmap.
    unfold lem_or_rdg, is_lem, is_rdg, has_tag. rewrite tag_retext, text_retext.
    intros Hsel. unfold unescaped, lem_or_rdg, is_lem, is_rdg, has_tag. rewrite Hsel.
    destruct (text a) as [s|]; [|done]. cbn. intros [= <-].
    apply replace_underdot_clean.
Qed.

(** X2. [strip_om_text] never raises and changes texts only: the tree keeps
    its shape, and every node its tag, attributes, tail and number of
    children, those of an omitted reading included. The text of a [lem] or
    [rdg] with [type="om"] becomes [None]; every other text stays as it is.
    When the pass has run, every [lem] or [rdg] with [type="om"] is without
    text. *)
Theorem strip_om_text_texts xml :
  exists xml',
    strip_om_text xml = (xml', Ret tt) /\
    (forall p, at_path p xml = None -> at_path p xml' = None) /\
    (forall p a, at_path p xml = Some a ->
       exists a',
         at_path p xml' = Some a' /\
         tag a' = tag a /\ attrib a' = attrib a /\ tail a' = tail a /\
         List.length (children a') = List.length (children a) /\
         text a' = (if om_reading a then None else text a)) /\
    (forall a', a' ∈ iter xml' -> om_reading a' = true -> text a' = None).
Proof.
  exists (retext without_om xml). split; [apply strip_om_text_retext|].
  destruct (retext_nodes without_om xml) as [Hnone Hsome].
  split; [done|]. split; [done|].
  intros a'. rewrite iter_retext. intros (a & -> & _)%list_elem_of_fmap.
  unfold om_reading at 1, lem_or_rdg, is_lem, is_rdg, has_tag, get.
  rewrite tag_retext, attrib_retext, text_retext.
  intros Hsel. unfold without_om, om_reading, lem_or_rdg, is_lem, is_rdg, has_tag, get.
  by rewrite Hsel.
Qed.

(** X3. [unescape_underdots] and [strip_om_text] commute: in either order
    they leave the same tree. *)
Theorem unescape_strip_om_commute xml :
  (unescape_underdots ;; strip_om_text)%pass xml =
  (strip_om_text ;; unescape_underdots)%pass xml.
Proof.
  unfold and_then.
  rewrite (unescape_underdots_retext xml), (strip_om_text_retext xml). cbv beta iota.
  rewrite unescape_underdots_retext, strip_om_text_retext.
  f_equal. rewrite !retext_retext.
  - apply retext_ext. intros [t a x kids tl].
    unfold without_om, unescaped, om_reading, lem_or_rdg, is_lem, is_rdg, has_tag, get.
    cbn [set_text tag attrib text].
    destruct (bool_decide (t = tei "lem") || bool_decide (t = tei "rdg")); [|done].
    cbn [andb]. by destruct (bool_decide (a !! "type" = Some "om")).
  - intros a b Ht Ha Hx. unfold unescaped, lem_or_rdg, is_lem, is_rdg, has_tag.
    by rewrite Ht, Hx.
  - intros a b Ht Ha Hx.
    unfold without_om, om_reading, lem_or_rdg, is_lem, is_rdg, has_tag, get.
    by rewrite Ht, Ha, Hx.
Qed.

(** X4. The [seg] put in the place of an apparatus with one reading
    carries the normalised text of that reading. On a tree whose root is not
    such an apparatus, [unescape_underdots], [strip_om_text] and
    [sub_segs_for_apps], in the order of [main], run to their end, and an
    apparatus with the one reading [rdg], below no other single-reading
    apparatus, is replaced at its position by a bare [seg] without attribute
    or child: its text is [None] when [rdg] has [type="om"], and the text of
    [rdg] with the escaped underdots replaced otherwise. *)
Theorem seg_carries_normalised_text xml p parent i app rdg :
  single_rdg_app xml = false ->
  at_path p xml = Some parent ->
  clear_path single_rdg_app p xml = true ->
  children parent !! i = Some app ->
  is_app app = true ->
  xpath_children is_rdg app = [rdg] ->
  exists x5 parent',
    (unescape_underdots ;; strip_om_text ;; sub_segs_for_apps)%pass xml = (x5, Ret tt) /\
    at_path p x5 = Some parent' /\
    children parent' !! i =
      Some (Element "seg" ∅
              (if bool_decide (get rdg "type" = Some "om") then None
               else Str.replace underdot_code underdot <$> text rdg) [] None).
Proof.
  intros Hroot Hp Hclear Hi Happ Hrdg.
  set (h := fun a => without_om (set_text a (unescaped a))).
  assert (forall e, retext without_om (retext unescaped e) = retext h e) as Hh.
  { intros e. apply retext_retext. intros a b Ht Ha Hx.
    unfold without_om, om_reading, lem_or_rdg, is_lem, is_rdg, has_tag, get.
    by rewrite Ht, Ha, Hx. }
  exists (substitute is_app seg_for (retext h xml)),
         (substitute is_app seg_for (retext h parent)).
  split; [|split].
  - unfold and_then. rewrite unescape_underdots_retext. cbv beta iota.
    rewrite strip_om_text_retext, Hh. cbv beta iota.
    apply (proj2 (sub_segs_for_apps_ret _ _)). by rewrite single_rdg_app_retext.
  - apply substitute_at_path; [by rewrite at_path_retext, Hp|].
    rewrite <- Hclear, <- (clear_path_retext h p xml).
    generalize (retext h xml). clear. induction p as [|i p IH]; intros e; [done|].
    cbn [clear_path]. destruct (children e !! i) as [k|]; [|done].
    rewrite IH. f_equal. f_equal.
    destruct (single_rdg_app k) eqn:Hk.
    + apply bool_decide_eq_true_2. by apply replacement_seg_Some.
    + apply bool_decide_eq_false_2. intros Hs%replacement_seg_Some. congruence.
  - rewrite substitute_unfold. cbn [children]. rewrite children_retext.
    change (map ?f (map ?g ?l)) with (f <$> (g <$> l)).
    rewrite !list_lookup_fmap, Hi. cbn.
    assert (xpath_children is_rdg (retext h app) = [retext h rdg]) as Hr.
    { unfold is_rdg. rewrite xpath_children_retext. fold is_rdg. by rewrite Hrdg. }
    unfold replacement. unfold is_app, has_tag. rewrite tag_retext.
    fold (has_tag (tei "app") app). fold (is_app app). rewrite Happ.
    unfold seg_for. rewrite Hr. rewrite text_retext. f_equal.
    assert (is_rdg rdg = true) as Hisr.
    { assert (rdg ∈ xpath_children is_rdg app) as Hin by (rewrite Hrdg; set_solver).
      unfold xpath_children in Hin. apply list_elem_of_filter in Hin as [Hin _].
      by destruct (is_rdg rdg). }
    clear Hrdg Hr. destruct rdg as [t a x kids tl].
    unfold is_rdg, has_tag in Hisr. cbn [tag] in Hisr.
    unfold h, without_om, unescaped, om_reading, lem_or_rdg, is_lem, is_rdg, has_tag,
      get, set_text, et_Element.
    cbn [tag attrib text children tail]. by rewrite Hisr, orb_true_r.
Qed.

(** ** The passes that remove and replace, once more *)

Lemma filter_none {A} (P : A -> bool) (l : list A) :
  filter (fun a => P a) l = [] <-> forall a, a ∈ l -> P a = false.
Proof.
  induction l as [|k l IH].
  - split; [|done]. intros _ a Ha. by apply elem_of_nil in Ha.
  - rewrite filter_cons. destruct (P k) eqn:Hk; cbn.
    + split; [done|]. intros H. specialize (H k). rewrite Hk in H.
      by discriminate H; left.
    + rewrite IH. split.
      * intros H a [->|Ha]%elem_of_cons; auto.
      * intros H a Ha. apply H. by right.
Qed.

Section PruneShallow.
Variable sel : element -> bool.
Hypothesis sel_shallow :
  forall a b, tag a = tag b -> attrib a = attrib b -> sel a = sel b.

Lemma sel_prune a : sel (prune sel a) = sel a.
Proof. apply sel_shallow; by destruct a. Qed.

Lemma prune_clean e a' : sel e = false -> a' ∈ iter (prune sel e) -> sel a' = false.
Proof. intros He [->|(a & _ & Ha & ->)]%iter_prune; by rewrite sel_prune. Qed.

Lemma prune_id e : (forall a, a ∈ iter e -> sel a = false) -> prune sel e = e.
Proof.
  induction e as [t a x kids tl IH] using element_ind. intros Hall.
  cbn [prune]. f_equal.
  assert (forall k, k ∈ kids -> forall b, b ∈ iter k -> sel b = false) as Hkids.
  { intros k Hk b Hb. apply Hall. by eapply elem_of_iter_child. }
  clear Hall. induction IH as [|k l Hk _ IHl]; [done|].
  cbn [omap list_omap]. rewrite (Hkids k) by (left || apply elem_of_iter_self).
  rewrite Hk by (apply Hkids; left). f_equal.
  apply IHl. intros k' Hk'. apply Hkids. by right.
Qed.

Lemma remove_each_idem xml x :
  remove_each sel xml = (x, Ret tt) ->
  xpath sel x = [] /\ remove_each sel x = (x, Ret tt).
Proof.
  unfold remove_each. destruct (sel xml) eqn:Hsel; [done|]. intros [= <-].
  assert (forall a, a ∈ iter (prune sel xml) -> sel a = false) as Hclean.
  { intros a. by apply prune_clean. }
  split; [by apply filter_none|].
  rewrite (Hclean _ (elem_of_iter_self _)). by rewrite prune_id.
Qed.
End PruneShallow.

Lemma is_wit_shallow a b : tag a = tag b -> attrib a = attrib b -> is_wit a = is_wit b.
Proof. unfold is_wit, has_tag. by intros -> _. Qed.

Lemma get_wits_loop_attrib l : forall l' st,
  map attrib l = map attrib l' -> get_wits_loop l st = get_wits_loop l' st.
Proof.
  induction l as [|k l IH]; intros [|k' l'] st; try done.
  cbn [map get_wits_loop]. intros [= Hk Hl]. unfold get. rewrite Hk.
  destruct (attrib k' !! "wit"); [|done]. by apply IH.
Qed.

Lemma attrib_rdg_prune e :
  (forall w, w ∈ iter e -> is_wit w = true -> xpath is_rdg w = []) ->
  map attrib (xpath is_rdg (prune is_wit e)) = map attrib (xpath is_rdg e).
Proof.
  induction e as [t a x kids tl IH] using element_ind. intros Hw.
  rewrite !xpath_root. rewrite (prune_unfold is_wit (Element t a x kids tl)).
  cbn [children tag attrib text tail].
  assert (map attrib
            (filter (fun a0 => is_rdg a0)
               (flat_map iter
                  (omap (fun k => if is_wit k then None else Some (prune is_wit k)) kids))) =
          map attrib (filter (fun a0 => is_rdg a0) (flat_map iter kids))) as Hkids.
  { assert (forall k, k ∈ kids ->
              forall w, w ∈ iter k -> is_wit w = true -> xpath is_rdg w = []) as Hk.
    { intros k Hk w Hin. apply Hw. by eapply elem_of_iter_child. }
    clear Hw. induction IH as [|k l Hk' _ IHl]; [done|].
    cbn [omap list_omap flat_map]. rewrite filter_app, map_app.
    destruct (is_wit k) eqn:Hwk.
    - fold (xpath is_rdg k).
      rewrite (Hk k (list_elem_of_here _ _) k (elem_of_iter_self _) Hwk). cbn [map app].
      apply IHl. intros k0 Hk0. apply Hk. by right.
    - cbn [flat_map]. rewrite filter_app, map_app. f_equal.
      + apply Hk'. apply Hk. by left.
      + apply IHl. intros k0 Hk0. apply Hk. by right. }
  assert (forall ks, is_rdg (Element t a x ks tl) = bool_decide (t = tei "rdg")) as Hr
    by done.
  rewrite !Hr.
  destruct (bool_decide (t = tei "rdg")); cbn [map]; by rewrite Hkids.
Qed.

(** X5. [strip_wit_subelements] raises [AttributeError] and leaves the tree
    as it is when the root is a [wit]. On every other tree it returns, and
    then no [wit] element is left; every node left is a node of the input
    that is not a [wit], with its tag, attributes, text and tail; every node
    of the input that is neither a [wit] nor inside one is still there; and
    when no reading lies inside a [wit], [get_wits] gives the same before and
    after the pass. *)
Theorem strip_wit_subelements_removes xml :
  (is_wit xml = true -> strip_wit_subelements xml = (xml, Raise AttributeError)) /\
  (is_wit xml = false ->
   exists x2,
     strip_wit_subelements xml = (x2, Ret tt) /\
     xpath is_wit x2 = [] /\
     (forall a', a' ∈ iter x2 ->
        exists a, a ∈ iter xml /\ is_wit a = false /\ same_node a a') /\
     (forall p a, at_path p xml = Some a -> clear_path is_wit p xml = true ->
        exists a', a' ∈ iter x2 /\ same_node a a') /\
     ((forall w, w ∈ iter xml -> is_wit w = true -> xpath is_rdg w = []) ->
      get_wits x2 = get_wits xml)).
Proof.
  unfold strip_wit_subelements, remove_each. split; intros Hroot; rewrite Hroot; [done|].
  exists (prune is_wit xml). split; [done|]. split_and!.
  - apply filter_none. intros a. by apply (prune_clean is_wit is_wit_shallow).
  - intros a' [->|(a & Ha & Hw & ->)]%iter_prune.
    + exists xml. split; [apply elem_of_iter_self|]. split; [done|].
      by rewrite (prune_unfold is_wit xml).
    + exists a. split; [done|]. split; [done|]. by rewrite (prune_unfold is_wit a).
  - intros p a Hp Hclear. exists (prune is_wit a). split; [by eapply prune_keeps|].
    by rewrite (prune_unfold is_wit a).
  - intros Hw. unfold get_wits.
    by rewrite (get_wits_loop_attrib _ _ _ (attrib_rdg_prune xml Hw)).
Qed.

(** X6. The three passes that take nodes out of the tree are idempotent:
    run on its own result, each of [strip_unitless_apps],
    [strip_wit_subelements] and [sub_segs_for_apps] returns and changes
    nothing. *)
Theorem removing_passes_idempotent xml x :
  (strip_unitless_apps xml = (x, Ret tt) -> strip_unitless_apps x = (x, Ret tt)) /\
  (strip_wit_subelements xml = (x, Ret tt) -> strip_wit_subelements x = (x, Ret tt)) /\
  (sub_segs_for_apps xml = (x, Ret tt) -> sub_segs_for_apps x = (x, Ret tt)).
Proof.
  split_and!.
  - intros H. by apply (remove_each_idem unitless_app (fun a b => unitless_app_shallow b a) xml).
  - intros H. by apply (remove_each_idem is_wit is_wit_shallow xml).
  - intros [Hroot ->]%sub_segs_for_apps_ret.
    pose proof (substitute_no_single xml Hroot) as Hno.
    apply (proj2 (sub_segs_for_apps_ret _ _)).
    split; [apply Hno, elem_of_iter_self|].
    symmetry. apply substitute_id. intros a Ha. by apply replacement_seg_None, Hno.
Qed.

(** ** Running a pass, or all of them, a second time *)

Lemma main_ret xml out :
  main xml = (out, Ret tt) <->
  exists x1 x2 x3 x4 x5 x6 x7,
    strip_unitless_apps xml = (x1, Ret tt) /\
    strip_wit_subelements x1 = (x2, Ret tt) /\
    unescape_underdots x2 = (x3, Ret tt) /\
    strip_om_text x3 = (x4, Ret tt) /\
    sub_segs_for_apps x4 = (x5, Ret tt) /\
    add_app_notes x5 = (x6, Ret tt) /\
    update_app_n x6 = (x7, Ret tt) /\
    add_tei_header x7 = (out, Ret tt).
Proof.
  unfold main. split.
  - intros (x1 & H1 & (x2 & H2 & (x3 & H3 & (x4 & H4 & (x5 & H5 & (x6 & H6 &
        (x7 & H7 & H8)%and_then_ret)%and_then_ret)%and_then_ret)%and_then_ret)
        %and_then_ret)%and_then_ret)%and_then_ret.
    by exists x1, x2, x3, x4, x5, x6, x7.
  - intros (x1 & x2 & x3 & x4 & x5 & x6 & x7 & H1 & H2 & H3 & H4 & H5 & H6 & H7 & H8).
    repeat (apply (proj2 (and_then_ret _ _ _ _)); eexists; split; [eassumption|]).
    done.
Qed.

Lemma main_output_unitless xml out a :
  main xml = (out, Ret tt) -> a ∈ iter out -> is_app a = true -> unitless_app a = true.
Proof.
  intros (x1 & x2 & x3 & x4 & x5 & x6 & x7 & _ & _ & _ & _ & _ & _ & H7 & H8)%main_ret
    Ha Happ.
  apply add_tei_header_ret in H8 as (wits & _ & Hins).
  apply insert_first_Some in Hins as (p & T & _ & _ & _ & Hnodes).
  destruct (Hnodes a Ha) as [Hnew|(a0 & Hin & Htag & Hattr)].
  - apply teiHeader_for_no_app in Hnew. congruence.
  - rewrite (unitless_app_shallow a0 a Htag Hattr).
    eapply update_app_n_strips; [done..|].
    unfold is_app, has_tag in *. by rewrite <- Htag.
Qed.

Lemma walk_list_first_raise {A} (f : A -> A * res unit) l x :
  (forall k, k ∈ l -> f k = (k, Ret tt) \/ f k = (k, Raise x)) ->
  (exists k, k ∈ l /\ f k = (k, Raise x)) ->
  walk_list f l = (l, Raise x).
Proof.
  induction l as [|k l IH]; intros Hall (k0 & Hin & Hk0).
  - by apply elem_of_nil in Hin.
  - cbn [walk_list]. destruct (Hall k) as [Hk|Hk]; [by left| |by rewrite Hk].
    rewrite Hk, IH; [done| |].
    + intros k' Hk'. apply Hall. by right.
    + apply elem_of_cons in Hin as [->|Hin]; [congruence|]. by exists k0.
Qed.

Section Stuck.
Variable sel : element -> bool.
Variable body : element -> element * res unit.
Variable x : exn.

(** A loop whose body raises on every selected node, before it changes
    anything, stops at the first of them with the tree as it was. *)
Lemma for_each_stuck e :
  (forall a, a ∈ iter e -> sel a = true -> body a = (a, Raise x)) ->
  (for_each sel body e = (e, Ret tt) /\ forall a, a ∈ iter e -> sel a = false) \/
  (for_each sel body e = (e, Raise x) /\ exists a, a ∈ iter e /\ sel a = true).
Proof.
  induction e as [t at_ tx kids tl IH] using element_ind. intros Hbody.
  set (e := Element t at_ tx kids tl) in *.
  rewrite for_each_unfold. unfold turn.
  destruct (sel e) eqn:Hsel.
  { right. rewrite (Hbody e (elem_of_iter_self _) Hsel). split; [done|].
    exists e. split; [apply elem_of_iter_self|done]. }
  assert (rebuilt e e kids = e) as Hre.
  { unfold rebuilt, e. cbn. by rewrite drop_all, app_nil_r. }
  assert (Forall (fun k =>
            (for_each sel body k = (k, Ret tt) /\ forall a, a ∈ iter k -> sel a = false) \/
            (for_each sel body k = (k, Raise x) /\ exists a, a ∈ iter k /\ sel a = true))
            kids) as Hkids.
  { rewrite Forall_forall in IH. apply Forall_forall. intros k Hk. apply IH; [done|].
    intros a Ha. apply Hbody. by eapply elem_of_iter_child. }
  assert ((Forall (fun k => for_each sel body k = (k, Ret tt) /\
                            forall a, a ∈ iter k -> sel a = false) kids) \/
          (exists k, k ∈ kids /\ for_each sel body k = (k, Raise x) /\
                     exists a, a ∈ iter k /\ sel a = true)) as [Hall|(k & Hk & Hr & a & Ha & Hs)].
  { clear -Hkids. induction Hkids as [|k l [Hk|Hk] _ [IHl|(k' & Hk' & IHl)]].
    - left. constructor.
    - left. by constructor.
    - right. exists k'. split; [by right|done].
    - right. exists k. split; [by left|done].
    - right. exists k. split; [by left|done]. }
  - left. change (children e) with kids.
    assert (walk_list (for_each sel body) kids = (kids, Ret tt)) as ->.
    { apply walk_list_ret. clear -Hall. induction Hall as [|k l [Hk _] _ IHl]; by constructor. }
    rewrite Hre. split; [done|].
    intros a [->|(k & Hk & Ha)]%elem_of_iter_inv; [done|].
    rewrite Forall_forall in Hall. by apply (Hall k Hk).
  - right. change (children e) with kids.
    rewrite (walk_list_first_raise _ kids x).
    + rewrite Hre. split; [done|]. exists a. split; [|done]. by eapply elem_of_iter_child.
    + intros k' Hk'. rewrite Forall_forall in Hkids.
      destruct (Hkids k' Hk') as [[? _]|[? _]]; auto.
    + by exists k.
Qed.
End Stuck.

(** X7. [update_app_n] cannot be repeated. On the tree left by a run that
    ended normally, a second run changes nothing and returns when the tree
    has no apparatus, and raises [TypeError], with the tree as it is, when
    it has one: [from] and [to] are gone. *)
Theorem update_app_n_not_repeatable xml x7 :
  update_app_n xml = (x7, Ret tt) ->
  (xpath is_app x7 = [] -> update_app_n x7 = (x7, Ret tt)) /\
  (xpath is_app x7 <> [] -> update_app_n x7 = (x7, Raise TypeError)).
Proof.
  intros Hrun.
  assert (forall a, a ∈ iter x7 -> is_app a = true -> update_n a = (a, Raise TypeError))
    as Hstuck.
  { intros a Ha Happ. apply update_n_raise. split; [|done].
    pose proof (update_app_n_strips _ _ _ Hrun Ha Happ) as Hu.
    unfold unitless_app in Hu. rewrite Happ in Hu. cbn [andb] in Hu.
    apply andb_true_iff in Hu as [Hf%bool_decide_eq_true _]. auto. }
  rewrite update_app_n_eq.
  destruct (for_each_stuck is_app update_n TypeError x7 Hstuck) as [[Hr Hno]|[Hr Hsome]].
  - split; [done|]. intros Hne. destruct Hne. by apply filter_none.
  - split; [|done]. intros Hnil. destruct Hsome as (a & Ha & Happ).
    rewrite (proj1 (filter_none is_app (iter x7)) Hnil a Ha) in Happ. done.
Qed.

(** X8. The output of [main] is no input for [main]. Every apparatus of
    the output lacks [from] and [to], so a second run stops with
    [AttributeError], the tree unchanged, when the root is an apparatus, and
    otherwise its first pass removes every apparatus there is. *)
Theorem main_output_loses_apps xml out :
  main xml = (out, Ret tt) ->
  (is_app out = true -> main out = (out, Raise AttributeError)) /\
  (is_app out = false ->
   exists x1, strip_unitless_apps out = (x1, Ret tt) /\ xpath is_app x1 = []).
Proof.
  intros Hmain.
  pose proof (main_output_unitless xml out) as Hu.
  split; intros Hroot.
  - pose proof (Hu out Hmain (elem_of_iter_self _) Hroot) as Hroot'.
    unfold main, and_then, strip_unitless_apps, remove_each. by rewrite Hroot'.
  - assert (unitless_app out = false) as Hroot'.
    { unfold unitless_app. by rewrite Hroot. }
    exists (prune unitless_app out). unfold strip_unitless_apps, remove_each.
    rewrite Hroot'. split; [done|]. apply filter_none.
    intros a' [->|(a & Ha & Hsel & ->)]%iter_prune.
    + unfold is_app, has_tag in *. by rewrite prune_unfold.
    + destruct (is_app (prune unitless_app a)) eqn:Happ; [|done].
      assert (is_app a = true) as Happ'.
      { unfold is_app, has_tag in *. by rewrite prune_unfold in Happ. }
      rewrite (Hu a Hmain Ha Happ') in Hsel. done.
Qed.

(** ** When the passes return *)

Lemma label_for_ret n f t :
  (exists l, label_for n f t = Ret l) <->
  exists s, n = Some s /\
    (Str.re_match s = None \/
     exists b c v, Str.re_match s = Some (b, c, v) /\ is_Some (books_by_n !! b)).
Proof.
  unfold label_for. destruct n as [s|].
  2:{ split; [by intros [? ?]|by intros (? & ? & _)]. }
  destruct (Str.re_match s) as [[[b c] v]|] eqn:Hm.
  2:{ split; [|by eexists]. intros _. exists s. split; [done|by left]. }
  destruct (books_by_n !! b) as [book|] eqn:Hb.
  - split; [|by eexists]. intros _. exists s. split; [done|]. right.
    exists b, c, v. by rewrite Hb.
  - split; [by intros [? ?]|].
    intros (s' & [= <-] & [?|(b' & c' & v' & Heq & Hsome)]); [congruence|].
    assert (b' = b) as -> by congruence. rewrite Hb in Hsome. by destruct Hsome.
Qed.

Lemma add_app_notes_total xml :
  (forall app, app ∈ iter xml -> is_app app = true -> labelable app) ->
  exists x6, add_app_notes xml = (x6, Ret tt).
Proof.
  intros Hall. rewrite add_app_notes_eq. apply for_each_total. intros a Ha. unfold turn.
  destruct (is_app a) eqn:Happ; [|done].
  destruct (proj2 (label_for_ret _ (get a "from") (get a "to")) (Hall a Ha Happ))
    as [l Hl].
  unfold add_app_note. by rewrite Hl.
Qed.

(** X9. [add_app_notes] runs to its end exactly when every apparatus of
    the tree has an [n] attribute and every [n] that matches the pattern
    starts with a book code of the table. *)
Theorem add_app_notes_returns_iff xml :
  (exists x6, add_app_notes xml = (x6, Ret tt)) <->
  (forall app, app ∈ iter xml -> is_app app = true -> labelable app).
Proof.
  split; [|apply add_app_notes_total].
  rewrite add_app_notes_eq. intros [x6 Hrun] app Hin Happ.
  apply (proj1 (label_for_ret (get app "n") (get app "from") (get app "to"))).
  destruct (label_for (get app "n") (get app "from") (get app "to")) as [l|x] eqn:Hl;
    [by exists l|].
  assert (raised (for_each is_app add_app_note xml).2 = true) as Hr.
  { apply for_each_raised. exists app. split; [done|].
    unfold turn, add_app_note. by rewrite Happ, Hl. }
  by rewrite Hrun in Hr.
Qed.

Lemma wit_values l :
  (forall rdg, rdg ∈ l -> is_Some (get rdg "wit")) ->
  exists ws, Forall2 (fun rdg w => get rdg "wit" = Some w) l ws.
Proof.
  induction l as [|k l IH]; intros Hall; [by exists []|].
  destruct (Hall k) as [w Hw]; [by left|].
  destruct IH as [ws Hws]; [intros rdg Hr; apply Hall; by right|].
  exists (w :: ws). by constructor.
Qed.

Lemma get_wits_raise xml rdg :
  rdg ∈ xpath is_rdg xml -> get rdg "wit" = None -> get_wits xml = Raise AttributeError.
Proof.
  intros Hin Hw. unfold get_wits. by rewrite (get_wits_loop_raise _ rdg _ Hin Hw).
Qed.

Lemma add_tei_header_total xml :
  (forall rdg, rdg ∈ xpath is_rdg xml -> is_Some (get rdg "wit")) ->
  xpath is_TEI xml <> [] ->
  exists out, add_tei_header xml = (out, Ret tt).
Proof.
  intros Hall HT. unfold add_tei_header. destruct (wit_values _ Hall) as [ws Hws].
  rewrite (get_wits_ret xml ws Hws).
  destruct (insert_first _ _ xml) as [out|] eqn:Hins; [by exists out|].
  by apply insert_first_None in Hins.
Qed.

(** X10. The three ways [add_tei_header] ends. A reading without [wit]
    makes it raise [AttributeError], whether or not there is a [TEI]
    element. When every reading has [wit] and the tree has no [TEI] element
    it raises [IndexError]. In both cases the tree is unchanged. When every
    reading has [wit] and there is a [TEI] element it returns. *)
Theorem add_tei_header_outcomes xml :
  ((exists rdg, rdg ∈ xpath is_rdg xml /\ get rdg "wit" = None) ->
   add_tei_header xml = (xml, Raise AttributeError)) /\
  ((forall rdg, rdg ∈ xpath is_rdg xml -> is_Some (get rdg "wit")) ->
   xpath is_TEI xml = [] ->
   add_tei_header xml = (xml, Raise IndexError)) /\
  ((forall rdg, rdg ∈ xpath is_rdg xml -> is_Some (get rdg "wit")) ->
   xpath is_TEI xml <> [] ->
   exists out, add_tei_header xml = (out, Ret tt)).
Proof.
  split_and!; [| |apply add_tei_header_total]; unfold add_tei_header.
  - intros (rdg & Hin & Hw). by rewrite (get_wits_raise xml rdg Hin Hw).
  - intros Hall HT. destruct (wit_values _ Hall) as [ws Hws].
    rewrite (get_wits_ret xml ws Hws).
    destruct (insert_first _ _ xml) as [out|] eqn:Hins; [|done].
    apply insert_first_head in Hins as (p & a & _ & Hhead & _).
    by rewrite HT in Hhead.
Qed.

(** ** What [main] puts into the tree *)

Lemma tags_from_trans x y z : tags_from x y -> tags_from y z -> tags_from x z.
Proof.
  intros Hxy Hyz c Hc. destruct (Hyz c Hc) as [?|(b & Hb & Htag)]; [by left|].
  rewrite Htag. apply Hxy, Hb.
Qed.

Lemma note_for_tags label ids a :
  (forall l, label = Some l -> exists txt, l = Element "label" ∅ (Some txt) [] None) ->
  a ∈ iter (note_for label ids) -> tag a ∈ created_tags.
Proof.
  intros Hlabel Ha.
  apply elem_of_iter_inv in Ha as [->|(k & Hk & Ha)]; [created|].
  simpl in Hk. apply elem_of_app in Hk as [Hk|Hk].
  - destruct label as [l|]; [|by apply elem_of_nil in Hk].
    apply list_elem_of_singleton in Hk as ->.
    destruct (Hlabel l eq_refl) as [txt ->].
    apply list_elem_of_singleton in Ha as ->. created.
  - apply elem_of_cons in Hk as [->|Hk].
    + unfold connectivity_fs in Ha. simpl in Ha.
      repeat (apply elem_of_cons in Ha as [->|Ha]; [created|]).
      by apply elem_of_nil in Ha.
    + apply list_elem_of_singleton in Hk as ->.
      apply elem_of_iter_inv in Ha as [->|(k & Hk & Ha)]; [created|].
      simpl in Hk. apply list_elem_of_In, in_map_iff in Hk as (id & <- & _).
      apply list_elem_of_singleton in Ha as ->. created.
Qed.

Lemma teiHeader_for_tags wits a : a ∈ iter (teiHeader_for wits) -> tag a ∈ created_tags.
Proof.
  unfold teiHeader_for.
  intros [->|(k1 & Hk1 & Ha)]%elem_of_iter_inv; [created|].
  simpl in Hk1. apply list_elem_of_singleton in Hk1 as ->.
  apply elem_of_iter_inv in Ha as [->|(k2 & Hk2 & Ha)]; [created|].
  simpl in Hk2. apply list_elem_of_singleton in Hk2 as ->.
  apply elem_of_iter_inv in Ha as [->|(k3 & Hk3 & Ha)]; [created|].
  simpl in Hk3. apply list_elem_of_In, in_map_iff in Hk3 as (w & <- & _).
  apply list_elem_of_singleton in Ha as ->. created.
Qed.

Lemma nodes_from_trans x y z : nodes_from x y -> nodes_from y z -> nodes_from x z.
Proof.
  intros Hxy Hyz c Hc. destruct (Hyz c Hc) as [?|(b & Hb & Htag & Hattr)]; [by left|].
  rewrite Htag, Hattr. apply Hxy, Hb.
Qed.

Lemma nodes_from_tags x y : nodes_from x y -> tags_from x y.
Proof.
  intros Hxy c Hc. destruct (Hxy c Hc) as [?|(b & Hb & Htag & _)]; [by left|].
  right. by exists b.
Qed.

Lemma nodes_from_prune sel e : nodes_from e (prune sel e).
Proof.
  intros a' [->|(a & Ha & _ & ->)]%iter_prune; right.
  - exists e. split; [apply elem_of_iter_self|by rewrite prune_unfold].
  - exists a. split; [done|by rewrite prune_unfold].
Qed.

Lemma nodes_from_retext f e : nodes_from e (retext f e).
Proof.
  intros a'. rewrite iter_retext. intros (a & -> & Ha)%list_elem_of_fmap.
  right. exists a. by rewrite tag_retext, attrib_retext.
Qed.

Lemma nodes_from_sub_segs xml x5 :
  sub_segs_for_apps xml = (x5, Ret tt) -> nodes_from xml x5.
Proof.
  intros [_ ->]%sub_segs_for_apps_ret a' Ha.
  apply iter_substitute in Ha as [(a & Hin & ->)|(a & new & Hin & Hrep & Hnew)].
  - right. exists a. split; [done|by rewrite substitute_unfold].
  - left. unfold replacement in Hrep. destruct (is_app a); [|done].
    apply seg_for_Some in Hrep as (rdg & _ & ->).
    apply list_elem_of_singleton in Hnew as ->. created.
Qed.

Lemma nodes_from_add_app_notes xml x6 :
  add_app_notes xml = (x6, Ret tt) -> nodes_from xml x6.
Proof.
  rewrite add_app_notes_eq. intros Hrun a' Ha.
  destruct (iter_for_each _ _ _ _ _ Hrun Ha)
    as [(a & b & ks & Hin & Hb & ->)|(a & b & c & Hin & Hb & Hc & Hac)];
    unfold turn in Hb; destruct (is_app a).
  - apply add_app_note_ret in Hb as (label & _ & ->). right. by exists a.
  - injection Hb as <-. right. by exists a.
  - apply add_app_note_ret in Hb as (label & Hlabel & ->). left.
    simpl in Hc. rewrite drop_app_length in Hc. apply list_elem_of_singleton in Hc as ->.
    eapply note_for_tags; [|exact Hac]. intros l ->. by eapply label_for_Some.
  - injection Hb as <-. rewrite drop_all in Hc. by apply elem_of_nil in Hc.
Qed.

(** The renumbering changes the attributes of apparatus elements only, and
    adds no element. *)
Lemma update_app_n_nodes xml x7 a' :
  update_app_n xml = (x7, Ret tt) ->
  a' ∈ iter x7 ->
  exists a, a ∈ iter xml /\ tag a' = tag a /\ (is_app a = false -> attrib a' = attrib a).
Proof.
  rewrite update_app_n_eq. intros Hrun Ha.
  destruct (iter_for_each _ _ _ _ _ Hrun Ha)
    as [(a & b & ks & Hin & Hb & ->)|(a & b & c & Hin & Hb & Hc & Hac)];
    unfold turn in Hb; destruct (is_app a) eqn:Happ.
  - apply update_n_ret in Hb as (n & f & t & _ & _ & _ & ->).
    exists a. split_and!; [done..|]. intros; congruence.
  - injection Hb as <-. exists a. by split_and!.
  - apply update_n_ret in Hb as (n & f & t & _ & _ & _ & ->).
    simpl in Hc. rewrite drop_all in Hc. by apply elem_of_nil in Hc.
  - injection Hb as <-. rewrite drop_all in Hc. by apply elem_of_nil in Hc.
Qed.

Lemma tags_from_update_app_n xml x7 :
  update_app_n xml = (x7, Ret tt) -> tags_from xml x7.
Proof.
  intros Hrun a' Ha. destruct (update_app_n_nodes _ _ _ Hrun Ha) as (a & Hin & Htag & _).
  right. by exists a.
Qed.

Lemma tags_from_add_tei_header xml out :
  add_tei_header xml = (out, Ret tt) -> tags_from xml out.
Proof.
  intros (wits & _ & Hins)%add_tei_header_ret a' Ha.
  apply insert_first_Some in Hins as (p & T & _ & _ & _ & Hnodes).
  destruct (Hnodes a' Ha) as [Hnew|(a0 & Hin & Htag & _)].
  - left. by eapply teiHeader_for_tags.
  - right. by exists a0.
Qed.

(** X11. What [main] puts into the tree. Every element of its output has
    the tag of an element of the input or one of the twelve names the script
    gives to [et.Element], all of them bare names outside the TEI namespace.
    No [wit] element is in the output. *)
Theorem main_output_tags xml out :
  main xml = (out, Ret tt) ->
  (forall a', a' ∈ iter out ->
     tag a' ∈ created_tags \/ exists a, a ∈ iter xml /\ tag a' = tag a) /\
  xpath is_wit out = [].
Proof.
  intros (x1 & x2 & x3 & x4 & x5 & x6 & x7 & H1 & H2 & H3 & H4 & H5 & H6 & H7 & H8)%main_ret.
  assert (tags_from x2 out) as Hlate.
  { rewrite unescape_underdots_retext in H3. injection H3 as <-.
    rewrite strip_om_text_retext in H4. injection H4 as <-.
    eapply tags_from_trans; [apply nodes_from_tags, nodes_from_retext|].
    eapply tags_from_trans; [apply nodes_from_tags, nodes_from_retext|].
    eapply tags_from_trans; [by apply nodes_from_tags, nodes_from_sub_segs|].
    eapply tags_from_trans; [by apply nodes_from_tags, nodes_from_add_app_notes|].
    eapply tags_from_trans; [by apply tags_from_update_app_n|].
    by apply tags_from_add_tei_header. }
  split.
  - apply (tags_from_trans xml x1); [|apply (tags_from_trans x1 x2); [|done]].
    + unfold strip_unitless_apps, remove_each in H1.
      destruct (unitless_app xml); [done|]. injection H1 as <-.
      apply nodes_from_tags, nodes_from_prune.
    + unfold strip_wit_subelements, remove_each in H2.
      destruct (is_wit x1); [done|]. injection H2 as <-.
      apply nodes_from_tags, nodes_from_prune.
  - apply filter_none. intros a' Ha.
    destruct (is_wit a') eqn:Hw; [|done].
    unfold is_wit, has_tag in Hw. apply bool_decide_eq_true in Hw.
    destruct (Hlate a' Ha) as [Hc|(a & Hin & Htag)].
    + rewrite Hw in Hc. exfalso. revert Hc.
      apply (bool_decide_eq_false_1 (tei "wit" ∈ created_tags)). vm_compute. reflexivity.
    + destruct (remove_each_idem is_wit is_wit_shallow x1 x2 H2) as [Hnil _].
      pose proof (proj1 (filter_none is_wit (iter x2)) Hnil a Hin) as Hna.
      unfold is_wit, has_tag in Hna. apply bool_decide_eq_false in Hna. congruence.
Qed.

(** ** [main] on a well-formed document *)

Lemma update_app_n_total xml :
  (forall app, app ∈ iter xml -> is_app app = true ->
     is_Some (get app "n") /\ is_Some (get app "from") /\ is_Some (get app "to")) ->
  exists x7, update_app_n xml = (x7, Ret tt).
Proof.
  intros Hall. rewrite update_app_n_eq. apply for_each_total. intros a Ha. unfold turn.
  destruct (is_app a) eqn:Happ; [|done].
  destruct (Hall a Ha Happ) as ([n Hn] & [f Hf] & [t Ht]).
  assert (exists a', update_n a = (a', Ret tt)) as [a' ->]; [|done].
  eexists. apply update_n_ret. by exists n, f, t.
Qed.

Lemma for_each_root_tag sel body e e' :
  (forall a b, body a = (b, Ret tt) -> tag b = tag a) ->
  for_each sel body e = (e', Ret tt) -> tag e' = tag e.
Proof.
  intros Hbody (b & kids' & Hb & _ & ->)%for_each_ret. rewrite tag_rebuilt.
  unfold turn in Hb. destruct (sel e); [by apply Hbody|by injection Hb as <-].
Qed.

Lemma is_app_not_rdg_rev e : is_rdg e = true -> is_app e = false.
Proof.
  unfold is_rdg, is_app, has_tag. intros ->%bool_decide_eq_true.
  by apply bool_decide_eq_false_2.
Qed.

Lemma not_created_app : tei "app" ∉ created_tags.
Proof. apply (bool_decide_eq_false_1 (tei "app" ∈ created_tags)). vm_compute. reflexivity. Qed.

Lemma not_created_rdg : tei "rdg" ∉ created_tags.
Proof. apply (bool_decide_eq_false_1 (tei "rdg" ∈ created_tags)). vm_compute. reflexivity. Qed.

(** X19. [main] runs to its end on a well-formed document: when the root
    is a [TEI] element, every apparatus that has [from] or [to] has both
    and has an [n] that either does not match the pattern or starts with a
    book code of the table, and every reading has a [wit] attribute, all
    eight passes return. *)
Theorem main_returns xml :
  is_TEI xml = true ->
  (forall app, app ∈ iter xml -> is_app app = true -> unitless_app app = false ->
     labelable app /\ is_Some (get app "from") /\ is_Some (get app "to")) ->
  (forall rdg, rdg ∈ iter xml -> is_rdg rdg = true -> is_Some (get rdg "wit")) ->
  exists out, main xml = (out, Ret tt).
Proof.
  intros Hroot Happs Hrdgs.
  unfold is_TEI, has_tag in Hroot. apply bool_decide_eq_true in Hroot.
  assert (forall e, tag e = tag xml -> is_app e = false) as Hnot_app.
  { intros e He. unfold is_app, has_tag. rewrite He, Hroot. done. }
  (* the removals *)
  assert (strip_unitless_apps xml = (prune unitless_app xml, Ret tt)) as H1.
  { unfold strip_unitless_apps, remove_each, unitless_app. by rewrite (Hnot_app xml). }
  set (x1 := prune unitless_app xml) in *.
  assert (tag x1 = tag xml) as Ht1 by (unfold x1; by rewrite prune_unfold).
  assert (strip_wit_subelements x1 = (prune is_wit x1, Ret tt)) as H2.
  { unfold strip_wit_subelements, remove_each, is_wit, has_tag. by rewrite Ht1, Hroot. }
  set (x2 := prune is_wit x1) in *.
  assert (tag x2 = tag xml) as Ht2 by (unfold x2; by rewrite prune_unfold).
  (* the texts *)
  pose proof (unescape_underdots_retext x2) as H3. set (x3 := retext unescaped x2) in *.
  pose proof (strip_om_text_retext x3) as H4. set (x4 := retext without_om x3) in *.
  assert (tag x4 = tag xml) as Ht4 by (unfold x4, x3; by rewrite !tag_retext).
  (* the collapse *)
  assert (sub_segs_for_apps x4 = (substitute is_app seg_for x4, Ret tt)) as H5.
  { apply (proj2 (sub_segs_for_apps_ret _ _)). split; [|done].
    unfold single_rdg_app. by rewrite (Hnot_app x4 Ht4). }
  set (x5 := substitute is_app seg_for x4) in *.
  assert (tag x5 = tag xml) as Ht5 by (unfold x5; by rewrite substitute_unfold).
  assert (nodes_from xml x5) as Hfrom5.
  { eapply nodes_from_trans; [apply nodes_from_prune|]. fold x1.
    eapply nodes_from_trans; [apply nodes_from_prune|]. fold x2.
    eapply nodes_from_trans; [apply nodes_from_retext|]. fold x3.
    eapply nodes_from_trans; [apply nodes_from_retext|]. fold x4.
    by apply nodes_from_sub_segs. }
  assert (no_unitless x5) as Hclean5.
  { eapply sub_segs_for_apps_keeps, strip_om_text_keeps, unescape_underdots_keeps,
      strip_wit_subelements_keeps, strip_unitless_apps_clean; eauto. }
  assert (forall x, nodes_from xml x -> no_unitless x ->
            forall app, app ∈ iter x -> is_app app = true ->
              labelable app /\ is_Some (get app "from") /\ is_Some (get app "to"))
    as Hwell.
  { intros x Hfrom Hclean app Hin Happ.
    destruct (Hfrom app Hin) as [Hc|(a & Ha & Htag & Hattr)].
    - unfold is_app, has_tag in Happ. apply bool_decide_eq_true in Happ.
      rewrite Happ in Hc. by destruct not_created_app.
    - assert (is_app a = true) as Happ' by (unfold is_app, has_tag in *; by rewrite <- Htag).
      assert (unitless_app a = false) as Hu.
      { rewrite <- (Hclean app Hin). by apply unitless_app_shallow. }
      unfold labelable, get in *. rewrite Hattr. by apply Happs. }
  (* the notes *)
  destruct (add_app_notes_total x5) as [x6 H6].
  { intros app Hin Happ. by apply (Hwell x5). }
  assert (nodes_from xml x6) as Hfrom6.
  { eapply nodes_from_trans; [exact Hfrom5|]. by apply nodes_from_add_app_notes. }
  assert (no_unitless x6) as Hclean6 by by eapply add_app_notes_keeps.
  assert (tag x6 = tag xml) as Ht6.
  { rewrite <- Ht5. rewrite add_app_notes_eq in H6.
    eapply for_each_root_tag; [|exact H6].
    by intros a b (label & _ & ->)%add_app_note_ret. }
  (* the renumbering *)
  destruct (update_app_n_total x6) as [x7 H7].
  { intros app Hin Happ. destruct (Hwell x6 Hfrom6 Hclean6 app Hin Happ) as ((s & Hs & _) & ? & ?).
    by rewrite Hs. }
  assert (tag x7 = tag xml) as Ht7.
  { rewrite <- Ht6. rewrite update_app_n_eq in H7.
    eapply for_each_root_tag; [|exact H7].
    by intros a b (n & f & t & _ & _ & _ & ->)%update_n_ret. }
  (* the header *)
  destruct (add_tei_header_total x7) as [out H8].
  { intros rdg [Hr Hin]%list_elem_of_filter.
    assert (is_rdg rdg = true) as Hr' by by destruct (is_rdg rdg).
    destruct (update_app_n_nodes _ _ _ H7 Hin) as (r6 & Hin6 & Htag6 & Hattr6).
    assert (is_rdg r6 = true) as Hr6 by (unfold is_rdg, has_tag in *; by rewrite <- Htag6).
    unfold get. rewrite Hattr6 by by apply is_app_not_rdg_rev.
    destruct (Hfrom6 r6 Hin6) as [Hc|(r & Hin0 & Htag & Hattr)].
    - unfold is_rdg, has_tag in Hr6. apply bool_decide_eq_true in Hr6.
      rewrite Hr6 in Hc. by destruct not_created_rdg.
    - rewrite Hattr. apply Hrdgs; [done|]. unfold is_rdg, has_tag in *. by rewrite <- Htag. }
  { intros Hnil. pose proof (proj1 (filter_none is_TEI (iter x7)) Hnil x7
                               (elem_of_iter_self _)) as HT.
    unfold is_TEI, has_tag in HT. rewrite Ht7, Hroot in HT.
    by rewrite bool_decide_eq_true_2 in HT. }
  exists out. apply main_ret. by exists x1, x2, x3, x4, x5, x6, x7.
Qed.

(** ** The pattern, the marker, the book table and the output address *)

Lemma append_nil_l s : "" +:+ s = s.
Proof. reflexivity. Qed.

Lemma append_nil_r s : s +:+ "" = s.
Proof. induction s as [|a s IH]; [done|]. by rewrite append_cons, IH. Qed.

Lemma append_snoc s c t : (s +:+ String c "") +:+ t = s +:+ String c t.
Proof. induction s as [|a s IH]; [done|]. by rewrite !append_cons, IH. Qed.

Lemma append_assoc s t u : (s +:+ t) +:+ u = s +:+ (t +:+ u).
Proof. induction s as [|a s IH]; [done|]. by rewrite !append_cons, IH. Qed.

Lemma join_cons ch l : Str.join (ch :: l) = ch +:+ Str.join l.
Proof. reflexivity. Qed.

Lemma join_app l1 l2 : Str.join (l1 ++ l2) = Str.join l1 +:+ Str.join l2.
Proof.
  induction l1 as [|ch l1 IH]; [done|].
  change ((ch :: l1) ++ l2)%list with (ch :: (l1 ++ l2)%list).
  by rewrite !join_cons, IH, append_assoc.
Qed.

(** The characters of a string, put together again, are the string. *)
Lemma join_chars_from s : forall pend k,
  Str.join (Str.chars_from pend k s) =
  match k with O => s | S _ => pend +:+ s end.
Proof.
  induction s as [|c s IH]; intros pend k.
  - destruct k; cbn [Str.chars_from]; [done|]. by rewrite join_cons.
  - cbn [Str.chars_from]. destruct k as [|[|k]].
    + destruct (Str.trail c).
      * by rewrite join_cons, IH.
      * by rewrite IH.
    + by rewrite join_cons, IH, append_snoc.
    + by rewrite IH, append_snoc.
Qed.

Lemma join_chars s : Str.join (Str.chars s) = s.
Proof. apply (join_chars_from s "" 0). Qed.

Lemma isdigit_nonempty ch : Str.isdigit ch = true -> ch <> "".
Proof. by intros H ->. Qed.

Lemma digits_spec l : forall d r,
  Str.digits l = (d, r) <->
  exists ld, l = (ld ++ r)%list /\ d = Str.join ld /\
             all_digits ld = true /\ starts_with_digit r = false.
Proof.
  induction l as [|ch l IH]; intros d r.
  - cbn [Str.digits]. split.
    + intros [= <- <-]. by exists [].
    + intros (ld & Hl & -> & _ & _). symmetry in Hl.
      by apply app_eq_nil in Hl as [-> ->].
  - cbn [Str.digits]. destruct (Str.isdigit ch) eqn:Hch.
    + destruct (Str.digits l) as [d0 r0] eqn:Hd.
      destruct (proj1 (IH d0 r0) eq_refl) as (ld0 & -> & -> & Hall & Hr0).
      split.
      * intros [= <- <-]. exists (ch :: ld0). split_and!; try done.
        unfold all_digits. cbn [forallb]. by rewrite Hch.
      * intros (ld & Hl & -> & Hall' & Hr). destruct ld as [|ch' ld].
        { simpl in Hl. subst r. change (Str.isdigit ch = false) in Hr. congruence. }
        injection Hl as <- Hl.
        unfold all_digits in Hall'. cbn [forallb] in Hall'.
        apply andb_true_iff in Hall' as [_ Hall'].
        assert ((Str.join ld0, r0) = (Str.join ld, r)) as Heq.
        { apply IH. by exists ld. }
        injection Heq as -> ->. by rewrite join_cons.
    + split.
      * intros [= <- <-]. exists []. by split_and!.
      * intros (ld & Hl & -> & Hall & Hr). destruct ld as [|ch' ld].
        { simpl in Hl. by subst. }
        injection Hl as <- Hl.
        unfold all_digits in Hall. cbn [forallb] in Hall. by rewrite Hch in Hall.
Qed.

Lemma join_digits_nonempty ld :
  ld <> [] -> all_digits ld = true -> Str.join ld <> "".
Proof.
  destruct ld as [|ch ld]; [done|]. intros _ Hall.
  unfold all_digits in Hall. cbn [forallb] in Hall.
  apply andb_true_iff in Hall as [Hch%isdigit_nonempty _].
  rewrite join_cons. by destruct ch.
Qed.

Lemma group_spec letter l g r :
  Str.group letter l = Some (g, r) <->
  exists ld, l = (String letter "" :: ld ++ r)%list /\ digit_run ld /\
             g = String letter (Str.join ld) /\ starts_with_digit r = false.
Proof.
  unfold Str.group, digit_run. destruct l as [|ch l].
  { split; [done|]. by intros (ld & ? & _). }
  case_bool_decide as Hch.
  - subst ch. destruct (Str.digits l) as [d0 r0] eqn:Hd.
    apply digits_spec in Hd as (ld0 & -> & -> & Hall0 & Hr0). split.
    + destruct (Str.join ld0) eqn:Hj; [done|]. intros [= <- <-].
      exists ld0. split_and!; try done; [|by rewrite Hj].
      intros ->. done.
    + intros (ld & Hl & [Hne Hall] & -> & Hr). injection Hl as Hl.
      assert (Str.digits (ld0 ++ r0) = (Str.join ld, r)) as Hd.
      { apply digits_spec. by exists ld. }
      assert (Str.digits (ld0 ++ r0) = (Str.join ld0, r0)) as Hd'.
      { apply digits_spec. by exists ld0. }
      assert (Str.join ld0 = Str.join ld /\ r0 = r) as [-> ->] by (split; congruence).
      pose proof (join_digits_nonempty ld Hne Hall) as Hj.
      by destruct (Str.join ld).
  - split; [done|]. intros (ld & Hl & _). congruence.
Qed.

(** X12. What the pattern of the label accepts. [re_match s] gives the
    groups [b], [k], [v] exactly when the characters of [s] are "B", one or
    more decimal digits, "K", one or more decimal digits, "V", one or more
    decimal digits, and a rest that does not start with a decimal digit: the
    digits of the verse are taken to the last one, and what follows them is
    ignored. The groups are the letters with their digits, digits of any
    script included, and [s] starts with the three of them. *)
Theorem re_match_iff s b k v :
  (Str.re_match s = Some (b, k, v) <->
   exists db dk dv rest,
     Str.chars s = (["B"] ++ db ++ ["K"] ++ dk ++ ["V"] ++ dv ++ rest)%list /\
     digit_run db /\ digit_run dk /\ digit_run dv /\
     b = String "B" (Str.join db) /\
     k = String "K" (Str.join dk) /\
     v = String "V" (Str.join dv) /\
     starts_with_digit rest = false) /\
  (Str.re_match s = Some (b, k, v) -> exists rest, s = b +:+ k +:+ v +:+ rest).
Proof.
  assert (Str.re_match s = Some (b, k, v) ->
          exists db dk dv rest,
            Str.chars s = (["B"] ++ db ++ ["K"] ++ dk ++ ["V"] ++ dv ++ rest)%list /\
            digit_run db /\ digit_run dk /\ digit_run dv /\
            b = String "B" (Str.join db) /\
            k = String "K" (Str.join dk) /\
            v = String "V" (Str.join dv) /\
            starts_with_digit rest = false) as Hfwd.
  { unfold Str.re_match.
    destruct (Str.group "B" (Str.chars s)) as [[b0 r1]|] eqn:H1; [|done]. cbn.
    destruct (Str.group "K" r1) as [[k0 r2]|] eqn:H2; [|done]. cbn.
    destruct (Str.group "V" r2) as [[v0 r3]|] eqn:H3; [|done]. cbn.
    intros [= <- <- <-].
    apply group_spec in H1 as (db & Hs & Hdb & -> & _).
    apply group_spec in H2 as (dk & -> & Hdk & -> & _).
    apply group_spec in H3 as (dv & -> & Hdv & -> & Hrest).
    exists db, dk, dv, r3. split_and!; done. }
  split; [split; [exact Hfwd|]|].
  - intros (db & dk & dv & rest & Hs & Hdb & Hdk & Hdv & -> & -> & -> & Hrest).
    unfold Str.re_match. rewrite Hs.
    assert (Str.group "V" (["V"] ++ dv ++ rest) = Some (String "V" (Str.join dv), rest))
      as H3.
    { apply group_spec. by exists dv. }
    assert (Str.group "K" (["K"] ++ dk ++ ["V"] ++ dv ++ rest) =
            Some (String "K" (Str.join dk), (["V"] ++ dv ++ rest)%list)) as H2.
    { apply group_spec. by exists dk. }
    assert (Str.group "B" (["B"] ++ db ++ ["K"] ++ dk ++ ["V"] ++ dv ++ rest) =
            Some (String "B" (Str.join db), (["K"] ++ dk ++ ["V"] ++ dv ++ rest)%list))
      as H1.
    { apply group_spec. by exists db. }
    rewrite H1. cbn [mbind option_bind]. rewrite H2. cbn [mbind option_bind].
    by rewrite H3.
  - intros (db & dk & dv & rest & Hs & _ & _ & _ & -> & -> & -> & _)%Hfwd.
    exists (Str.join rest). rewrite <- (join_chars s), Hs.
    rewrite !join_app. cbn [Str.join foldr]. rewrite !append_nil_r.
    by rewrite !append_cons, !append_nil_l.
Qed.

Lemma endswith_snoc s c : Str.endswith (s +:+ String c "") c = true.
Proof.
  induction s as [|a s IH];
    [change (bool_decide (c = c) = true); by apply bool_decide_eq_true_2|].
  rewrite append_cons. destruct s; [exact IH|]. exact IH.
Qed.

Lemma endswith_snoc_ne s c d : c <> d -> Str.endswith (s +:+ String c "") d = false.
Proof.
  intros Hne. induction s as [|a s IH];
    [change (bool_decide (c = d) = false); by apply bool_decide_eq_false_2|].
  rewrite append_cons. destruct s; [exact IH|]. exact IH.
Qed.

Lemma drop_last_snoc s c : Str.drop_last (s +:+ String c "") = s.
Proof.
  induction s as [|a s IH]; [done|].
  rewrite append_cons. destruct s; [done|].
  change (String a (Str.drop_last (String a0 s +:+ String c "")) = String a (String a0 s)).
  by rewrite IH.
Qed.

(** X13. The marker at the end of a witness token. One trailing "*" or "V"
    is removed, whatever stands before it: "A**" gives "A*", and the token
    "V" gives the empty identifier. A token that ends in any other character
    is kept whole. *)
Theorem strip_marker_last s :
  strip_marker (s +:+ "*") = s /\
  strip_marker (s +:+ "V") = s /\
  (forall c, c <> "*"%char -> c <> "V"%char ->
     strip_marker (s +:+ String c "") = s +:+ String c "") /\
  strip_marker "" = "".
Proof.
  unfold strip_marker. split_and!.
  - by rewrite endswith_snoc, drop_last_snoc.
  - by rewrite endswith_snoc, orb_true_r, drop_last_snoc.
  - intros c H1 H2. by rewrite !endswith_snoc_ne.
  - done.
Qed.

Lemma books_by_n_key b :
  is_Some (books_by_n !! b) ->
  String.length b = 3 /\ List.length (Str.chars b) = 3.
Proof.
  intros [book H]. unfold books_by_n in H. apply elem_of_list_to_map_2 in H.
  repeat (apply elem_of_cons in H as [[= -> _]|H]; [by split|]).
  by apply elem_of_nil in H.
Qed.

(** X14. Book codes have two digits. An apparatus whose [n] matches the
    pattern with a book group that is not three characters long, as in
    "B1K1V1", or not three bytes long, as with two digits outside ASCII, is
    in no case labelled: the body raises [KeyError] on the group, with the
    empty note appended, and [add_app_notes] raises on every tree in which
    it is an apparatus. *)
Theorem book_code_two_digits app s b c v :
  get app "n" = Some s ->
  Str.re_match s = Some (b, c, v) ->
  String.length b <> 3 \/ List.length (Str.chars b) <> 3 ->
  add_app_note app = (append app (et_Element "note"), Raise (KeyError b)) /\
  (forall xml, app ∈ iter xml -> is_app app = true ->
     raised (add_app_notes xml).2 = true).
Proof.
  intros Hn Hm Hlen.
  assert (books_by_n !! b = None) as Hb.
  { destruct (books_by_n !! b) eqn:Hb; [|done].
    destruct (books_by_n_key b) as [H3 H3']; [by rewrite Hb|].
    by destruct Hlen. }
  assert (add_app_note app = (append app (et_Element "note"), Raise (KeyError b))) as Hbody.
  { unfold add_app_note, label_for. by rewrite Hn, Hm, Hb. }
  split; [done|]. intros xml Hin Happ. rewrite add_app_notes_eq.
  apply for_each_raised. exists app. split; [done|].
  unfold turn. by rewrite Happ, Hbody.
Qed.

Lemma prefix_append old rest : String.prefix old (old +:+ rest) = true.
Proof.
  induction old as [|c old IH]; [by destruct rest|].
  by rewrite append_cons, prefix_cons, bool_decide_eq_true_2, IH.
Qed.

Lemma replace_from_skip old new s1 s2 : forall k,
  String.length s1 = k ->
  Str.replace_from old new k (s1 +:+ s2) = Str.replace_from old new 0 s2.
Proof.
  induction s1 as [|c s1 IH]; intros k <-; [done|].
  rewrite append_cons. cbn [String.length Str.replace_from]. by apply IH.
Qed.

(** The occurrence at the head of the string is replaced, and the search
    goes on behind it. *)
Lemma replace_occurrence o0 old' new rest :
  Str.replace (String o0 old') new (String o0 old' +:+ rest) =
  new +:+ Str.replace (String o0 old') new rest.
Proof.
  unfold Str.replace. rewrite append_cons at 1. cbn [Str.replace_from].
  rewrite <- append_cons, prefix_append. f_equal.
  apply replace_from_skip. cbn [String.length]. lia.
Qed.

(** X15. The address of the output. With [-o] it is the value given.
    Without it, an input address that does not contain ".xml" is returned
    as it is, so that the output is written over the input; and in [base],
    ".xml" and [rest], where [base] has no dot, the ".xml" is replaced by
    "_opencbgm.xml" and the replacement goes on in [rest]. *)
Theorem output_addr_default input_addr :
  (forall o, output_addr (Some o) input_addr = o) /\
  (Str.contains ".xml" input_addr = false -> output_addr None input_addr = input_addr) /\
  (forall base rest,
     occurs "." base = false ->
     input_addr = base +:+ ".xml" +:+ rest ->
     output_addr None input_addr = base +:+ "_opencbgm.xml" +:+ output_addr None rest).
Proof.
  split_and!; [done|apply replace_absent|].
  intros base rest Hbase ->. unfold output_addr, Str.replace.
  induction base as [|c base IH]; [apply (replace_occurrence "." "xml")|].
  cbn [occurs] in Hbase. apply orb_false_iff in Hbase as [Hc Hbase].
  rewrite !append_cons. cbn [Str.replace_from].
  change ".xml" with (String "." "xml") at 1. rewrite prefix_cons.
  apply bool_decide_eq_false in Hc.
  rewrite (bool_decide_eq_false_2 ("."%char = c)) by congruence.
  cbn [andb]. f_equal. by apply IH.
Qed.

(** ** The witnesses after the collapse *)

Lemma get_wits_inv xml ws :
  get_wits xml = Ret ws ->
  exists vals,
    Forall2 (fun rdg w => get rdg "wit" = Some w) (xpath is_rdg xml) vals /\
    ws = dedup_first (flat_map wit_ids vals).
Proof.
  intros Hrun.
  destruct (wit_values (xpath is_rdg xml)) as [vals Hvals].
  { intros rdg Hin. destruct (get rdg "wit") eqn:Hw; [done|].
    rewrite (get_wits_raise xml rdg Hin Hw) in Hrun. done. }
  exists vals. split; [done|]. rewrite (get_wits_ret xml vals Hvals) in Hrun. congruence.
Qed.

Lemma elem_of_wits (l : list element) vals w :
  Forall2 (fun rdg v => get rdg "wit" = Some v) l vals ->
  w ∈ dedup_first (flat_map wit_ids vals) <->
  exists rdg v, rdg ∈ l /\ get rdg "wit" = Some v /\ w ∈ wit_ids v.
Proof.
  intros HF. rewrite elem_of_dedup_first. rewrite list_elem_of_In, in_flat_map. split.
  - intros (v & Hv%list_elem_of_In & Hw%list_elem_of_In).
    apply list_elem_of_lookup in Hv as [i Hi].
    destruct (Forall2_lookup_r _ _ _ _ _ HF Hi) as (rdg & Hrdg & Hget).
    exists rdg, v. split_and!; [|done..]. by eapply list_elem_of_lookup_2.
  - intros (rdg & v & Hin & Hget & Hw).
    apply list_elem_of_lookup in Hin as [i Hi].
    destruct (Forall2_lookup_l _ _ _ _ _ HF Hi) as (v' & Hv' & Hget').
    assert (v' = v) as -> by congruence.
    exists v. split; apply list_elem_of_In; [|done]. by eapply list_elem_of_lookup_2.
Qed.

(** X16. The collapse can only lose witnesses. When [get_wits] returns on
    a tree and [sub_segs_for_apps] runs to its end, [get_wits] returns on
    the tree that is left, and every witness it lists there was listed
    before. *)
Theorem collapse_only_drops_witnesses xml x5 ws :
  get_wits xml = Ret ws ->
  sub_segs_for_apps xml = (x5, Ret tt) ->
  exists ws5, get_wits x5 = Ret ws5 /\ forall w, w ∈ ws5 -> w ∈ ws.
Proof.
  intros (vals & Hvals & ->)%get_wits_inv [_ ->]%sub_segs_for_apps_ret.
  assert (forall rdg', rdg' ∈ xpath is_rdg (substitute is_app seg_for xml) ->
            exists rdg, rdg ∈ xpath is_rdg xml /\ attrib rdg' = attrib rdg) as Hback.
  { intros rdg' [Hr Hin]%list_elem_of_filter.
    apply iter_substitute in Hin as [(a & Hin & ->)|(a & new & Hin & Hrep & Hnew)].
    - exists a. split; [|by rewrite substitute_unfold].
      apply list_elem_of_filter. split; [|done].
      unfold is_rdg, has_tag in *. by rewrite substitute_unfold in Hr.
    - unfold replacement in Hrep. destruct (is_app a); [|done].
      apply seg_for_Some in Hrep as (rdg & _ & ->).
      apply list_elem_of_singleton in Hnew as ->. done. }
  destruct (wit_values (xpath is_rdg (substitute is_app seg_for xml))) as [vals5 Hvals5].
  { intros rdg' Hin. destruct (Hback rdg' Hin) as (rdg & Hrdg & Hattr).
    unfold get. rewrite Hattr.
    apply list_elem_of_lookup in Hrdg as [i Hi].
    destruct (Forall2_lookup_l _ _ _ _ _ Hvals Hi) as (v & _ & Hget). by exists v. }
  eexists. split; [by apply get_wits_ret|].
  intros w (rdg' & v & Hin & Hget & Hw)%(elem_of_wits _ _ _ Hvals5).
  apply (elem_of_wits _ _ _ Hvals).
  destruct (Hback rdg' Hin) as (rdg & Hrdg & Hattr).
  exists rdg, v. split_and!; [done| |done]. unfold get in *. by rewrite <- Hattr.
Qed.

(** ** Tokens, and the nodes the apparatus passes leave alone *)

(** A character that has all its bytes is read off as one. *)
Lemma chars_from_take t : forall pend k s,
  String.length t = S k ->
  Str.chars_from pend (S k) (t +:+ s) = (pend +:+ t) :: Str.chars_from "" 0 s.
Proof.
  induction t as [|c t IH]; intros pend k s Hlen; [done|].
  rewrite append_cons. cbn [String.length] in Hlen. injection Hlen as Hlen.
  cbn [Str.chars_from]. destruct k as [|k].
  - destruct t; [|done]. by rewrite append_nil_l.
  - rewrite (IH _ k s Hlen). by rewrite append_snoc.
Qed.

Lemma chars_full ch s :
  full ch = true -> Str.chars (ch +:+ s) = ch :: Str.chars s.
Proof.
  unfold Str.chars. destruct ch as [|c t]; [done|]. cbn [full].
  intros Hlen%Nat.eqb_eq. rewrite append_cons. cbn [Str.chars_from].
  destruct (Str.trail c) as [|m] eqn:Htrail.
  - destruct t; [|done]. by rewrite append_nil_l.
  - by rewrite (chars_from_take t _ m s Hlen).
Qed.

Lemma chars_join l s :
  forallb full l = true -> Str.chars (Str.join l +:+ s) = (l ++ Str.chars s)%list.
Proof.
  induction l as [|ch l IH]; [done|]. cbn [forallb].
  intros [Hch Hl]%andb_true_iff.
  rewrite join_cons, append_assoc, (chars_full _ _ Hch), (IH Hl). done.
Qed.

Lemma full_nonempty ch : full ch = true -> ch <> "".
Proof. by intros H ->. Qed.

(** White space is a character with all its bytes. *)
Lemma isspace_full ch : Str.isspace ch = true -> full ch = true.
Proof.
  unfold Str.isspace, Str.code. destruct ch as [|c t]; [done|]. cbn [full].
  destruct (Str.lead c); [|done].
  by destruct (String.length t =? Str.trail c)%nat.
Qed.

Lemma split_from_word l : forall cur,
  no_space l = true -> Str.split_from cur l = Str.flush (cur +:+ Str.join l).
Proof.
  induction l as [|ch l IH]; intros cur Hl; [by cbn; rewrite append_nil_r|].
  unfold no_space in Hl. cbn [forallb] in Hl.
  apply andb_true_iff in Hl as [Hch%negb_true_iff Hl].
  cbn [Str.split_from]. rewrite Hch, (IH _ Hl), join_cons. by rewrite append_assoc.
Qed.

Lemma split_from_space la c lb : forall cur,
  Str.isspace c = true ->
  Str.split_from cur (la ++ c :: lb) =
  (Str.split_from cur la ++ Str.split_from "" lb)%list.
Proof.
  induction la as [|x la IH]; intros cur Hc.
  - cbn [app Str.split_from]. by rewrite Hc.
  - change ((x :: la) ++ c :: lb)%list with (x :: (la ++ c :: lb)%list).
    cbn [Str.split_from].
    destruct (Str.isspace x); rewrite IH by done; by rewrite ?app_assoc.
Qed.

(** Every token is a run of characters of the string none of which is white
    space. *)
Lemma split_from_tokens l : forall lc tok,
  forallb full lc = true -> no_space lc = true -> forallb full l = true ->
  tok ∈ Str.split_from (Str.join lc) l ->
  exists lt, lt <> [] /\ tok = Str.join lt /\ forallb full lt = true /\ no_space lt = true.
Proof.
  assert (forall lc tok,
            forallb full lc = true -> no_space lc = true ->
            tok ∈ Str.flush (Str.join lc) ->
            exists lt, lt <> [] /\ tok = Str.join lt /\
                       forallb full lt = true /\ no_space lt = true) as Hflush.
  { intros lc tok Hfull Hns. unfold Str.flush.
    destruct (Str.join lc) eqn:Hj; [by intros ?%elem_of_nil|].
    intros ->%list_elem_of_singleton. exists lc. split_and!; [|done..].
    intros ->. done. }
  induction l as [|ch l IH]; intros lc tok Hfull Hns Hl; cbn [Str.split_from];
    [by apply Hflush|].
  cbn [forallb] in Hl. apply andb_true_iff in Hl as [Hch Hl].
  destruct (Str.isspace ch) eqn:Hsp.
  - intros [Hin|Hin]%elem_of_app; [by apply (Hflush lc)|by apply (IH [])].
  - intros Hin. apply (IH (lc ++ [ch])%list).
    + rewrite forallb_app, Hfull. cbn [forallb]. by rewrite Hch.
    + unfold no_space in *. rewrite forallb_app, Hns. cbn [forallb]. by rewrite Hsp.
    + done.
    + by rewrite join_app, join_cons, append_nil_r.
Qed.

(** X17. [split] cuts at white space, which is every character for which
    [str.isspace] holds, the no-break space among them. The empty string
    has no token. A non-empty string none of whose characters is white
    space is its one token. The tokens of [a], a white space character and
    [b] are the tokens of [a] followed by those of [b]. No token is empty or
    holds a white space character. (A string is [whole] when it does not
    end in the middle of a character, as every [str] is.) *)
Theorem split_tokens :
  Str.split "" = [] /\
  (forall s, s <> "" -> no_space (Str.chars s) = true -> Str.split s = [s]) /\
  (forall a c b,
     whole a = true -> Str.isspace c = true ->
     Str.split (a +:+ c +:+ b) = (Str.split a ++ Str.split b)%list) /\
  (forall s tok,
     whole s = true -> tok ∈ Str.split s ->
     tok <> "" /\ no_space (Str.chars tok) = true /\ whole tok = true).
Proof.
  unfold Str.split. split_and!.
  - done.
  - intros s Hne Hs. rewrite split_from_word by done.
    rewrite append_nil_l, join_chars. by destruct s.
  - intros a c b Ha Hsp. pose proof (isspace_full c Hsp) as Hc. unfold whole in Ha.
    rewrite <- (join_chars a) at 1. rewrite (chars_join _ _ Ha), (chars_full _ _ Hc).
    by apply split_from_space.
  - intros s tok Hs Hin.
    destruct (split_from_tokens (Str.chars s) [] tok eq_refl eq_refl Hs Hin)
      as (lt & Hne & -> & Hfull & Hns).
    assert (Str.chars (Str.join lt) = lt) as Hchars.
    { rewrite <- (append_nil_r (Str.join lt)), (chars_join _ _ Hfull).
      by rewrite app_nil_r. }
    unfold whole. rewrite Hchars. split_and!; [|done..].
    destruct lt as [|ch lt]; [done|]. cbn [forallb] in Hfull.
    apply andb_true_iff in Hfull as [Hch%full_nonempty _].
    rewrite join_cons. by destruct ch.
Qed.

Section Frame.
Variable sel : element -> bool.
Variable body : element -> element * res unit.

(** A loop that ran to its end leaves a node it did not select as it was,
    with its children rewritten in their places. *)
Lemma for_each_frame e e' p a :
  for_each sel body e = (e', Ret tt) ->
  at_path p e = Some a ->
  sel a = false ->
  exists kids',
    at_path p e' = Some (set_children a kids') /\
    List.length kids' = List.length (children a) /\
    ((forall b, b ∈ iter a -> sel b = false) -> kids' = children a).
Proof.
  intros Hrun Hp Hsel.
  destruct (for_each_at_path _ _ _ _ _ _ Hrun Hp) as (b & kids' & Hb & Hkids & Hp').
  unfold turn in Hb. rewrite Hsel in Hb. injection Hb as <-.
  apply walk_list_ret in Hkids.
  exists kids'. split_and!.
  - rewrite Hp'. unfold rebuilt. by rewrite drop_all, app_nil_r.
  - symmetry. by eapply Forall2_length.
  - intros Hnone.
    assert (forall k, k ∈ children a -> for_each sel body k = (k, Ret tt)) as Hid.
    { intros k Hk. apply for_each_no_sel. intros c Hc. apply Hnone.
      by eapply elem_of_iter_child. }
    clear -Hkids Hid. induction Hkids as [|k k' l l' Hk _ IH]; [done|].
    rewrite (Hid k) in Hk by left. injection Hk as <-. f_equal.
    apply IH. intros k0 Hk0. apply Hid. by right.
Qed.
End Frame.

(** X18. [add_app_notes] and [update_app_n] change apparatus elements
    only. After a normal run of either, an element that is not an apparatus
    is at its place with its tag, attributes, text, tail and number of
    children, and it is the same element when no apparatus lies inside
    it. *)
Theorem apparatus_passes_frame xml out p a :
  add_app_notes xml = (out, Ret tt) \/ update_app_n xml = (out, Ret tt) ->
  at_path p xml = Some a ->
  is_app a = false ->
  exists a',
    at_path p out = Some a' /\
    same_node a a' /\
    List.length (children a') = List.length (children a) /\
    ((forall b, b ∈ iter a -> is_app b = false) -> a' = a).
Proof.
  intros Hrun Hp Happ.
  assert (exists kids',
            at_path p out = Some (set_children a kids') /\
            List.length kids' = List.length (children a) /\
            ((forall b, b ∈ iter a -> is_app b = false) -> kids' = children a))
    as (kids' & Hp' & Hlen & Hsame).
  { destruct Hrun as [Hrun|Hrun].
    - rewrite add_app_notes_eq in Hrun. by eapply for_each_frame.
    - rewrite update_app_n_eq in Hrun. by eapply for_each_frame. }
  exists (set_children a kids'). split_and!; try done.
  intros Hnone. rewrite (Hsame Hnone). by destruct a.
Qed.

(** ** The further properties on the example documents *)

Lemma seg_carries_normalised_text_witness :
  exists x5 parent',
    (unescape_underdots ;; strip_om_text ;; sub_segs_for_apps)%pass escaped_doc =
      (x5, Ret tt) /\
    at_path [0] x5 = Some parent' /\
    children parent' !! 0 = Some (Element "seg" ∅ (Some ("a" +:+ underdot +:+ "b")) [] None).
Proof.
  destruct (seg_carries_normalised_text escaped_doc [0]
           (Element (tei "ab") ∅ None
              [Element (tei "app") {["n" := "B01K1V1"; "from" := "2"; "to" := "2"]} None
                 [Element (tei "rdg") {["n" := "1"; "wit" := "A"]} (Some "a&#803;b") [] None]
                 None;
               Element (tei "app") {["n" := "B01K1V1"; "from" := "4"; "to" := "4"]} None
                 [Element (tei "rdg") {["n" := "1"; "wit" := "B"]} (Some "c&#803;")
                    [Element (tei "wit") ∅ (Some "B") [] None] None;
                  Element (tei "rdg") {["n" := "2"; "type" := "om"; "wit" := "C"]}
                    (Some "om.") [] None] None] None)
           0
           (Element (tei "app") {["n" := "B01K1V1"; "from" := "2"; "to" := "2"]} None
              [Element (tei "rdg") {["n" := "1"; "wit" := "A"]} (Some "a&#803;b") [] None]
              None)
           (Element (tei "rdg") {["n" := "1"; "wit" := "A"]} (Some "a&#803;b") [] None))
    as (x5 & parent' & Hrun & Hp & Hseg); [vm_compute; reflexivity..|].
  exists x5, parent'. split_and!; [exact Hrun|exact Hp|].
  rewrite Hseg. vm_compute; reflexivity.
Defined.

Lemma strip_wit_subelements_removes_witness :
  exists x2, strip_wit_subelements escaped_doc = (x2, Ret tt) /\ xpath is_wit x2 = [] /\
             get_wits x2 = get_wits escaped_doc.
Proof.
  destruct (proj2 (strip_wit_subelements_removes escaped_doc))
    as (x2 & Hrun & Hnone & _ & _ & Hwits); [vm_compute; reflexivity|].
  exists x2. split_and!; [exact Hrun|exact Hnone|].
  apply Hwits. intros w Hw. vm_compute in Hw.
  repeat (apply elem_of_cons in Hw as [->|Hw]; [vm_compute; done|]).
  by apply elem_of_nil in Hw.
Defined.

Lemma removing_passes_idempotent_witness :
  strip_wit_subelements (strip_wit_subelements escaped_doc).1 =
    ((strip_wit_subelements escaped_doc).1, Ret tt).
Proof.
  apply (proj1 (proj2 (removing_passes_idempotent escaped_doc _))).
  vm_compute; reflexivity.
Defined.

Lemma update_app_n_not_repeatable_witness :
  update_app_n (update_app_n matt_doc).1 = ((update_app_n matt_doc).1, Raise TypeError).
Proof.
  apply (proj2 (update_app_n_not_repeatable matt_doc _ ltac:(vm_compute; reflexivity))).
  vm_compute. discriminate.
Defined.

Lemma main_output_loses_apps_witness :
  exists x1, strip_unitless_apps (main matt_doc).1 = (x1, Ret tt) /\ xpath is_app x1 = [].
Proof.
  apply (proj2 (main_output_loses_apps matt_doc _ ltac:(vm_compute; reflexivity))).
  vm_compute; reflexivity.
Defined.

Lemma add_app_notes_returns_iff_witness : labelable matt_app.
Proof.
  apply (proj1 (add_app_notes_returns_iff matt_doc)).
  - eexists. vm_compute; reflexivity.
  - apply (at_path_iter [0; 0; 0; 0]). vm_compute; reflexivity.
  - vm_compute; reflexivity.
Defined.

Lemma add_tei_header_outcomes_witness :
  add_tei_header matt_app = (matt_app, Raise IndexError).
Proof.
  apply (proj1 (proj2 (add_tei_header_outcomes matt_app))).
  - intros rdg Hin. vm_compute in Hin.
    repeat (apply elem_of_cons in Hin as [->|Hin]; [by eexists|]).
    by apply elem_of_nil in Hin.
  - vm_compute; reflexivity.
Defined.

Lemma main_output_tags_witness : xpath is_wit (main escaped_doc).1 = [].
Proof.
  apply (proj2 (main_output_tags escaped_doc _ ltac:(vm_compute; reflexivity))).
Defined.

Lemma book_code_two_digits_witness :
  add_app_note short_book_app =
    (append short_book_app (et_Element "note"), Raise (KeyError "B1")).
Proof.
  apply (proj1 (book_code_two_digits short_book_app "B1K1V1" "B1" "K1" "V1"
                  ltac:(vm_compute; reflexivity) ltac:(vm_compute; reflexivity)
                  ltac:(left; vm_compute; lia))).
Defined.

Lemma output_addr_default_witness :
  output_addr None "matt.xml" = "matt_opencbgm.xml" /\
  output_addr None "matt.XML" = "matt.XML".
Proof.
  split.
  - apply (proj2 (proj2 (output_addr_default "matt.xml")) "matt" "");
      vm_compute; reflexivity.
  - apply (proj1 (proj2 (output_addr_default "matt.XML"))). vm_compute; reflexivity.
Defined.

Lemma collapse_only_drops_witnesses_witness :
  exists ws5,
    get_wits (sub_segs_for_apps escaped_doc).1 = Ret ws5 /\
    forall w, w ∈ ws5 -> w ∈ ["A"; "B"; "C"].
Proof.
  apply (collapse_only_drops_witnesses escaped_doc); vm_compute; reflexivity.
Defined.

Example collapse_drops_a_witness :
  get_wits escaped_doc = Ret ["A"; "B"; "C"] /\
  get_wits (sub_segs_for_apps escaped_doc).1 = Ret ["B"; "C"].
Proof. split; vm_compute; reflexivity. Qed.

Lemma apparatus_passes_frame_witness :
  exists a',
    at_path [0; 0; 0] (add_app_notes matt_doc).1 = Some a' /\
    same_node (Element (tei "ab") {["n" := "B01K02V03"]} None [matt_app] None) a' /\
    List.length (children a') = 1.
Proof.
  destruct (apparatus_passes_frame matt_doc (add_app_notes matt_doc).1 [0; 0; 0]
              (Element (tei "ab") {["n" := "B01K02V03"]} None [matt_app] None))
    as (a' & Hp & Hsame & Hlen & _); [left|..]; [vm_compute; reflexivity..|].
  by exists a'.
Defined.

Lemma main_returns_witness : exists out, main matt_doc = (out, Ret tt).
Proof.
  apply (main_returns matt_doc).
  - vm_compute; reflexivity.
  - intros app Hin Happ _. vm_compute in Hin.
    repeat (apply elem_of_cons in Hin as [->|Hin];
            [first [by vm_compute in Happ|clear Happ]|]);
      [|by apply elem_of_nil in Hin].
    split_and!; [|eexists; vm_compute; reflexivity..].
    exists "B01K02V03". split; [vm_compute; reflexivity|]. right.
    exists "B01", "K02", "V03". split; [vm_compute; reflexivity|].
    eexists. vm_compute; reflexivity.
  - intros rdg Hin Hr. vm_compute in Hin.
    repeat (apply elem_of_cons in Hin as [->|Hin];
            [first [by vm_compute in Hr|eexists; vm_compute; reflexivity]|]).
    by apply elem_of_nil in Hin.
Defined.
